(** * A shallow embedding of [skyrim_save_archiver.py]

    The development follows the source file top to bottom: the fixed-width
    readers and packers, the FILETIME conversion, the [ESS] save record with
    its two serialisers, the archive create / restore passes, and the
    choice of the files that the command line packs.

    Python integers are modelled by [Z] with the range checks of [struct]
    written out, [bytes] by [list byte], a binary stream by the list of bytes
    that remain to be read, exceptions by the [Err] case of [res]. *)

From Stdlib Require Import ZArith Lia List Strings.Byte Strings.Ascii.
From stdpp Require Import base list gmap strings sorting.
Import ListNotations.

Local Open Scope Z_scope.

(** ** Exceptions *)

(** Which reader ran out of data: the text after ['Not enough data for '] . *)
Inductive width := U8 | U16 | U32 | U64 | WString.

(** One constructor per [raise] site of the source, and one per exception of
    the Python runtime or of a library that the code can meet. *)
Inductive error :=
| NotEnoughData (w : width)
| InvalidMagic (magic : list byte)
| UnsupportedVersion (version : Z)
| WrongUncompressedSize (expected got : Z)
| InvalidCompressionType (compressionType : Z)
| TooLargeForWstring
| StructError
| LZ4BlockError
| UnicodeDecodeError
| DestinationExists
| KeyError (stem : string)
| FileNotFoundError
| ZeroDivisionError
| OverflowError.

(** The error kinds of the specification, section 7. *)
Inductive error_kind :=
| TruncatedInput | InvalidFormat | SizeMismatch | FieldTooLarge
| AlreadyExists | UnresolvedReference | OtherError.

Definition kind_of (e : error) : error_kind :=
  match e with
  | NotEnoughData _ => TruncatedInput
  | InvalidMagic _ | UnsupportedVersion _ | InvalidCompressionType _ => InvalidFormat
  | WrongUncompressedSize _ _ => SizeMismatch
  | TooLargeForWstring => FieldTooLarge
  | DestinationExists => AlreadyExists
  | KeyError _ => UnresolvedReference
  | StructError | LZ4BlockError | UnicodeDecodeError | FileNotFoundError
  | ZeroDivisionError | OverflowError => OtherError
  end.

Inductive res (A : Type) :=
| Ok (a : A)
| Err (e : error).
Arguments Ok {A} a.
Arguments Err {A} e.

Definition res_bind {A B} (m : res A) (k : A -> res B) : res B :=
  match m with Ok a => k a | Err e => Err e end.

Definition res_map {A B} (f : A -> B) (m : res A) : res B :=
  match m with Ok a => Ok (f a) | Err e => Err e end.

Notation "'try!' x ':=' m 'in' k" := (res_bind m (fun x => k))
  (at level 10, x name, m at level 100, k at level 200).

(** ** Bytes and little-endian integers *)

Definition byte_val (b : byte) : Z := Z.of_N (Byte.to_N b).

Definition byte_of (z : Z) : byte :=
  match Byte.of_N (Z.to_N (z mod 256)) with
  | Some b => b
  | None => x00
  end.

(** [struct.unpack('<..', data)[0]] on unsigned formats. *)
Fixpoint le_value (data : list byte) : Z :=
  match data with
  | [] => 0
  | b :: data' => byte_val b + 256 * le_value data'
  end.

(** The [n] bytes of [struct.pack('<..', v)] for a value in range. *)
Fixpoint le_bytes (n : nat) (v : Z) : list byte :=
  match n with
  | O => []
  | S n' => byte_of (v mod 256) :: le_bytes n' (v / 256)
  end.

(** ** Streams

    A readable binary stream ([io.BytesIO], a file opened ['rb'], the zstd
    stream reader) is the list of bytes not yet consumed. A [reader] either
    raises or returns a value and the advanced stream. *)

Definition reader (A : Type) : Type := list byte -> res (A * list byte).

Definition ret {A} (a : A) : reader A := fun f => Ok (a, f).

Definition raise {A} (e : error) : reader A := fun _ => Err e.

Definition bind {A B} (m : reader A) (k : A -> reader B) : reader B :=
  fun f => match m f with
           | Ok (a, f') => k a f'
           | Err e => Err e
           end.

Notation "'let!' x ':=' m 'in' k" := (bind m (fun x => k))
  (at level 10, x name, m at level 100, k at level 200).

(** [f.read(size)] for a [size >= 0] that the platform takes: up to [size]
    bytes, fewer only at the end of the stream. [read_sized] below is the
    call for any size. *)
Definition read (size : Z) : reader (list byte) :=
  fun f => Ok (take (Z.to_nat size) f, drop (Z.to_nat size) f).

(** [f.read(size)] for any [size >= 0], on a platform that reads at most
    [max_read] bytes in one call: [max_read] is [sys.maxsize], beyond which
    the size does not fit the index type and the call raises
    [OverflowError] before it reads anything. *)
Definition read_sized (max_read size : Z) : reader (list byte) :=
  fun f => if size >? max_read then Err OverflowError else read size f.

(** [f.read()]: everything that is left. *)
Definition read_all : reader (list byte) :=
  fun f => Ok (f, []).

Definition len (data : list byte) : Z := Z.of_nat (length data).

Definition read_uint64 : reader Z :=
  let! data := read 8 in
  if len data =? 8 then ret (le_value data) else raise (NotEnoughData U64).

Definition read_uint32 : reader Z :=
  let! data := read 4 in
  if len data =? 4 then ret (le_value data) else raise (NotEnoughData U32).

Definition read_uint16 : reader Z :=
  let! data := read 2 in
  if len data =? 2 then ret (le_value data) else raise (NotEnoughData U16).

Definition read_uint8 : reader Z :=
  let! data := read 1 in
  if len data =? 1 then ret (le_value data) else raise (NotEnoughData U8).

Definition read_wstring : reader (list byte) :=
  let! size := read_uint16 in
  let! data := read size in
  if len data =? size then ret data else raise (NotEnoughData WString).

(** [struct.pack] raises [struct.error] on a value outside the format. *)
Definition pack_uint64 (v : Z) : res (list byte) :=
  if (0 <=? v) && (v <? 2 ^ 64) then Ok (le_bytes 8 v) else Err StructError.

Definition pack_uint32 (v : Z) : res (list byte) :=
  if (0 <=? v) && (v <? 2 ^ 32) then Ok (le_bytes 4 v) else Err StructError.

Definition pack_uint16 (v : Z) : res (list byte) :=
  if (0 <=? v) && (v <? 2 ^ 16) then Ok (le_bytes 2 v) else Err StructError.

Definition pack_uint8 (v : Z) : res (list byte) :=
  if (0 <=? v) && (v <? 2 ^ 8) then Ok (le_bytes 1 v) else Err StructError.

Definition pack_wstring (v : list byte) : res (list byte) :=
  if len v >? 2 ^ 16 - 1 then Err TooLargeForWstring
  else try! size := pack_uint16 (len v) in Ok (size ++ v).

(** ** FILETIME *)

Definition EPOCH_AS_FILETIME : Z := 116444736000000000.

(** Python's [//] is floor division, as is [Z.div] for a positive divisor. *)
Definition windows_filetime_to_unix_second (ft : Z) : Z :=
  (ft - EPOCH_AS_FILETIME) / (10 ^ 9 / 100).

(** ** The save record *)

#[global] Instance byte_eq_dec : EqDecision byte := Byte.byte_eq_dec.

Definition MAGIC : list byte := String.list_byte_of_string "TESV_SAVEGAME".

(** The attributes that [ESS.__init__] sets. [uncompressedLen] and
    [compressedLen] exist only on a record read from the compressed
    representation. *)
Record ESS := {
  headerSize : Z;
  version : Z;
  saveNumber : Z;
  playerName : list byte;
  playerLevel : Z;
  playerLocation : list byte;
  gameDate : list byte;
  playerRaceEditorId : list byte;
  playerSex : Z;
  playerCurExp : list byte;
  playerLvlUpExp : list byte;
  filetime : Z;
  shotWidth : Z;
  shotHeight : Z;
  compressionType : Z;
  screenshotData : list byte;
  uncompressedLen : option Z;
  compressedLen : option Z;
  uncompressedBlob : list byte
}.

Section Lz4.

(** [lz4.block.compress(data, store_size=False)] and
    [lz4.block.decompress(data, uncompressed_size=n)] belong to the lz4
    package. The compressor raises on an input beyond the size that LZ4
    takes. The decompressor raises on a corrupt block, on one that needs
    more than [n] bytes or on an [n] that it does not take, and otherwise
    returns what the block holds, which can be shorter than [n]. [None]
    stands for any exception of the call, [LZ4BlockError] in a result. *)
Variable lz4_block_compress : list byte -> option (list byte).
Variable lz4_block_decompress : list byte -> Z -> option (list byte).

(** [ESS.__init__] on the stream [f]. The sizes of its reads are constants
    or 16-bit lengths, but for the screenshot, whose size is the product of
    two 32-bit fields: [read_shot] is the [f.read] of that line. *)
Definition ESS_read_with (read_shot : Z -> reader (list byte)) : reader ESS :=
  let! magic := read 13 in
  if negb (bool_decide (magic = MAGIC)) then raise (InvalidMagic magic) else
  let! headerSize := read_uint32 in
  let! version := read_uint32 in
  if negb (version =? 12) then raise (UnsupportedVersion version) else
  let! saveNumber := read_uint32 in
  let! playerName := read_wstring in
  let! playerLevel := read_uint32 in
  let! playerLocation := read_wstring in
  let! gameDate := read_wstring in
  let! playerRaceEditorId := read_wstring in
  let! playerSex := read_uint16 in
  let! playerCurExp := read 4 in
  let! playerLvlUpExp := read 4 in
  let! filetime := read_uint64 in
  let! shotWidth := read_uint32 in
  let! shotHeight := read_uint32 in
  let! compressionType := read_uint16 in
  let! screenshotData := read_shot (4 * shotWidth * shotHeight) in
  if compressionType =? 0 then
    let! uncompressedBlob := read_all in
    ret {| headerSize := headerSize; version := version;
           saveNumber := saveNumber; playerName := playerName;
           playerLevel := playerLevel; playerLocation := playerLocation;
           gameDate := gameDate; playerRaceEditorId := playerRaceEditorId;
           playerSex := playerSex; playerCurExp := playerCurExp;
           playerLvlUpExp := playerLvlUpExp; filetime := filetime;
           shotWidth := shotWidth; shotHeight := shotHeight;
           compressionType := compressionType;
           screenshotData := screenshotData;
           uncompressedLen := None; compressedLen := None;
           uncompressedBlob := uncompressedBlob |}
  else if compressionType =? 2 then
    let! uncompressedLen := read_uint32 in
    let! compressedLen := read_uint32 in
    let! compressedBlob := read_all in
    match lz4_block_decompress compressedBlob uncompressedLen with
    | None => raise LZ4BlockError
    | Some uncompressedBlob =>
        if negb (len uncompressedBlob =? uncompressedLen)
        then raise (WrongUncompressedSize uncompressedLen (len uncompressedBlob))
        else
          ret {| headerSize := headerSize; version := version;
                 saveNumber := saveNumber; playerName := playerName;
                 playerLevel := playerLevel; playerLocation := playerLocation;
                 gameDate := gameDate; playerRaceEditorId := playerRaceEditorId;
                 playerSex := playerSex; playerCurExp := playerCurExp;
                 playerLvlUpExp := playerLvlUpExp; filetime := filetime;
                 shotWidth := shotWidth; shotHeight := shotHeight;
                 compressionType := compressionType;
                 screenshotData := screenshotData;
                 uncompressedLen := Some uncompressedLen;
                 compressedLen := Some compressedLen;
                 uncompressedBlob := uncompressedBlob |}
    end
  else raise (InvalidCompressionType compressionType).

(** The run in which the size of the screenshot is one that the platform
    takes. *)
Definition ESS_read : reader ESS := ESS_read_with read.

(** [ESS(input)] for [input] a [bytes] object, or the contents of the file
    at a [Path], in that run. *)
Definition ESS_init (input : list byte) : res ESS :=
  res_map fst (ESS_read input).

(** [ESS(input)] for any input, on a platform that reads at most
    [max_read] bytes in one call. *)
Definition ESS_init_sized (max_read : Z) (input : list byte) : res ESS :=
  res_map fst (ESS_read_with (read_sized max_read) input).

(** The chunks shared by the two serialisers, up to [shotHeight]. *)
Definition header_chunks (self : ESS) : res (list (list byte)) :=
  try! c_headerSize := pack_uint32 (headerSize self) in
  try! c_version := pack_uint32 (version self) in
  try! c_saveNumber := pack_uint32 (saveNumber self) in
  try! c_playerName := pack_wstring (playerName self) in
  try! c_playerLevel := pack_uint32 (playerLevel self) in
  try! c_playerLocation := pack_wstring (playerLocation self) in
  try! c_gameDate := pack_wstring (gameDate self) in
  try! c_playerRaceEditorId := pack_wstring (playerRaceEditorId self) in
  try! c_playerSex := pack_uint16 (playerSex self) in
  try! c_filetime := pack_uint64 (filetime self) in
  try! c_shotWidth := pack_uint32 (shotWidth self) in
  try! c_shotHeight := pack_uint32 (shotHeight self) in
  Ok [MAGIC; c_headerSize; c_version; c_saveNumber; c_playerName;
      c_playerLevel; c_playerLocation; c_gameDate; c_playerRaceEditorId;
      c_playerSex; playerCurExp self; playerLvlUpExp self; c_filetime;
      c_shotWidth; c_shotHeight].

(** [ESS.get_uncompressed]: [b''.join(chunks)]. *)
Definition get_uncompressed (self : ESS) : res (list byte) :=
  try! chunks := header_chunks self in
  try! c_compressionType := pack_uint16 0 in
  Ok (concat (chunks ++ [c_compressionType; screenshotData self;
                         uncompressedBlob self])).

(** [ESS.get_compressed]. *)
Definition get_compressed (self : ESS) : res (list byte) :=
  try! chunks := header_chunks self in
  try! c_compressionType := pack_uint16 2 in
  try! c_uncompressedLen := pack_uint32 (len (uncompressedBlob self)) in
  match lz4_block_compress (uncompressedBlob self) with
  | None => Err LZ4BlockError
  | Some compressedBlob =>
      try! c_compressedLen := pack_uint32 (len compressedBlob) in
      Ok (concat (chunks ++ [c_compressionType; screenshotData self;
                             c_uncompressedLen; c_compressedLen;
                             compressedBlob]))
  end.

Definition get_filetime_as_posix_seconds (self : ESS) : Z :=
  windows_filetime_to_unix_second (filetime self).

End Lz4.

(** ** The archive *)

Definition MiB : Z := 1 * 1024 * 1024.

(** [range(0, stop, step)] for a positive step. *)
Definition range_step (stop step : nat) : list nat :=
  map (fun k => (k * step)%nat) (seq 0 (Nat.div (stop + step - 1) step)).

(** The generator [chunks(arr, size)], as the list of the slices it yields. *)
Definition chunks (arr : list byte) (size : nat) : list (list byte) :=
  map (fun i => take size (drop i arr)) (range_step (length arr) size).

Definition READ_CHUNK_SIZE : nat := Z.to_nat (1 * MiB).

(** [append_blob(compressor, blob)]: the compressor is the sequence of bytes
    written into it so far. The progress bar divides by the number of bytes
    read so far, which is positive inside the loop since no chunk is empty. *)
Definition append_blob (compressor blob : list byte) : list byte :=
  fold_left (fun written chunk => written ++ chunk)
            (chunks blob READ_CHUNK_SIZE) compressor.

(** [for x in xs: body], where the body may raise. *)
Fixpoint for_each {S A} (body : S -> A -> res S) (st : S) (xs : list A) : res S :=
  match xs with
  | [] => Ok st
  | x :: xs' => try! st' := body st x in for_each body st' xs'
  end.

(** A file of the output directory: what was written, and the modification
    time when [os.utime] has set it. *)
Record file := { content : list byte; mtime : option Z }.

(** The state of one [decompress_files] run: the zstd stream reader, the
    output directory keyed by file name, and the stem table. *)
Record restore_state := {
  decompressor : list byte;
  directory : gmap string file;
  stem_to_posix_timestamp : gmap string Z
}.

(** How a run ends: normally, or with an exception and the directory as the
    exception leaves it. *)
Inductive outcome :=
| Done (st : restore_state)
| Raised (e : error) (directory : gmap string file).

Definition or_raise {A} (m : res A) (directory : gmap string file)
    (k : A -> outcome) : outcome :=
  match m with
  | Ok a => k a
  | Err e => Raised e directory
  end.

Notation "'get!' x ':=' m 'or' d 'in' k" := (or_raise m d (fun x => k))
  (at level 10, x pattern, m at level 100, d at level 9, k at level 200).

(** [for i in range(n): body]. *)
Fixpoint repeat_body (n : nat) (body : restore_state -> outcome)
    (st : restore_state) : outcome :=
  match n with
  | O => Done st
  | S n' => match body st with
            | Done st' => repeat_body n' body st'
            | Raised e d => Raised e d
            end
  end.

(** The output directory is the map of its files by name. That models
    [output_directory.joinpath(name)] for a name that is one component of
    a path, on a file system that tells names apart by their characters,
    case included: the path is then the child of the directory under that
    name, and [plain_name] says that the name is such a component. Any other
    name can lead to the directory itself (the empty name), below a
    directory that does not exist, or outside the output directory. *)
Definition plain_char (c : ascii) : bool :=
  let n := N_of_ascii c in
  (32 <=? n)%N
  && negb (existsb (Ascii.eqb c)
             ["/"; "\"; ":"; "*"; "?"; "<"; ">"; "|"; "034"]%char).

Definition plain_name (name : string) : bool :=
  negb (String.eqb name "") && negb (String.eqb name ".")
  && negb (String.eqb name "..")
  && (String.length name <=? 255)%nat
  && forallb plain_char (String.list_ascii_of_string name).

(** [os.path.exists(output_path)], for a plain name. *)
Definition path_exists (directory : gmap string file) (name : string) : bool :=
  bool_decide (is_Some (directory !! name)).

(** [os.utime(output_path, times=(ts, ts))] *)
Definition utime (directory : gmap string file) (name : string) (ts : Z)
    : res (gmap string file) :=
  match directory !! name with
  | Some f => Ok (<[name := {| content := content f; mtime := Some ts |}]> directory)
  | None => Err FileNotFoundError
  end.

(** [open(output_path, 'wb')], for a plain name, creates the file, or
    empties it. *)
Definition open_wb (directory : gmap string file) (name : string)
    : gmap string file :=
  <[name := {| content := []; mtime := None |}]> directory.

(** [out_f.write(data)] on the file just opened. *)
Definition write_file (directory : gmap string file) (name : string)
    (data : list byte) : gmap string file :=
  <[name := {| content := data; mtime := None |}]> directory.

Section Archive.

(** The lz4 block codec, as above. *)
Variable lz4_block_compress : list byte -> option (list byte).
Variable lz4_block_decompress : list byte -> Z -> option (list byte).

(** The zstd stream writer, as the file it leaves once every byte of
    [written] has gone through it and it is closed, for a compression level
    and a number of threads; and the zstd stream reader, as the bytes that
    an archive file decompresses to. What the reader raises on a frame that
    is not a zstd frame is left out. *)
Variable zstd_stream_writer : Z -> Z -> list byte -> list byte.
Variable zstd_stream_reader : list byte -> list byte.

(** A file name, a Python [str], is a [string] that stands for a text with
    a UTF-8 encoding; [str.encode] and [bytes.decode] for UTF-8, and
    [Path(name).stem], belong to the Python runtime. A name is its own path
    under the output directory: two names are the same file only when they
    are equal. *)
Variable utf8_encode : string -> list byte.
Variable utf8_decode : list byte -> option string.
Variable path_stem : string -> string.

(** The state of one [compress_files] run: what was written into the
    compressor, and [total_read]. A source file is its name and its
    contents at the time of the run. *)
Definition compress_ess (st : list byte * Z) (ess_file : string * list byte)
    : res (list byte * Z) :=
  let '(compressor, total_read) := st in
  let total_read := total_read + len (snd ess_file) in
  try! ess := ESS_init lz4_block_decompress (snd ess_file) in
  try! uncompressed_blob := get_uncompressed ess in
  try! name := pack_wstring (utf8_encode (fst ess_file)) in
  try! size := pack_uint32 (len uncompressed_blob) in
  let compressor := append_blob compressor (name ++ size) in
  let compressor := append_blob compressor uncompressed_blob in
  if total_read =? 0 then Err ZeroDivisionError
  else Ok (compressor, total_read).

Definition compress_skse (st : list byte * Z) (skse_file : string * list byte)
    : res (list byte * Z) :=
  let '(compressor, total_read) := st in
  let filesize := len (snd skse_file) in
  let total_read := total_read + filesize in
  try! name := pack_wstring (utf8_encode (fst skse_file)) in
  try! size := pack_uint32 filesize in
  let compressor := append_blob compressor (name ++ size) in
  let compressor := append_blob compressor (snd skse_file) in
  if total_read =? 0 then Err ZeroDivisionError
  else Ok (compressor, total_read).

(** What [compress_files] writes into the compressor. *)
Definition compress_stream (ess_files skse_files : list (string * list byte))
    : res (list byte) :=
  try! num_ess_files := pack_uint32 (Z.of_nat (length ess_files)) in
  try! num_skse_files := pack_uint32 (Z.of_nat (length skse_files)) in
  let compressor := append_blob [] (num_ess_files ++ num_skse_files) in
  try! st := for_each compress_ess (compressor, 0) ess_files in
  try! st := for_each compress_skse st skse_files in
  Ok (fst st).

(** [compress_files]: the archive file of a run that does not raise. *)
Definition compress_files (ess_files skse_files : list (string * list byte))
    (compression_level threads : Z) : res (list byte) :=
  res_map (zstd_stream_writer compression_level threads)
          (compress_stream ess_files skse_files).

(** One iteration of the first loop of [decompress_files]. *)
Definition restore_ess (st : restore_state) : outcome :=
  let d := directory st in
  get! (raw, f1) := read_wstring (decompressor st) or d in
  match utf8_decode raw with
  | None => Raised UnicodeDecodeError d
  | Some name =>
    if path_exists d name then Raised DestinationExists d else
    get! (filesize, f2) := read_uint32 f1 or d in
    get! (data, f3) := read filesize f2 or d in
    get! ess := ESS_init lz4_block_decompress data or d in
    let ts := get_filetime_as_posix_seconds ess in
    let table := <[path_stem name := ts]> (stem_to_posix_timestamp st) in
    let finish := fun d1 =>
      get! d2 := utime d1 name ts or d1 in
      Done {| decompressor := f3; directory := d2;
              stem_to_posix_timestamp := table |} in
    if negb (path_exists d name) then
      let d0 := open_wb d name in
      get! data := get_compressed lz4_block_compress ess or d0 in
      finish (write_file d0 name data)
    else finish d
  end.

(** One iteration of the second loop. *)
Definition restore_skse (st : restore_state) : outcome :=
  let d := directory st in
  get! (raw, f1) := read_wstring (decompressor st) or d in
  match utf8_decode raw with
  | None => Raised UnicodeDecodeError d
  | Some name =>
    if path_exists d name then Raised DestinationExists d else
    get! (filesize, f2) := read_uint32 f1 or d in
    if negb (path_exists d name) then
      get! (data, f3) := read filesize f2 or (open_wb d name) in
      let d1 := write_file (open_wb d name) name data in
      match stem_to_posix_timestamp st !! path_stem name with
      | None => Raised (KeyError (path_stem name)) d1
      | Some ts =>
        get! d2 := utime d1 name ts or d1 in
        Done {| decompressor := f3; directory := d2;
                stem_to_posix_timestamp := stem_to_posix_timestamp st |}
      end
    else
      Done {| decompressor := f2; directory := d;
              stem_to_posix_timestamp := stem_to_posix_timestamp st |}
  end.

(** [decompress_files(archive, output_directory)], from the contents of the
    archive file and of the output directory. *)
Definition decompress_files (archive : list byte)
    (output_directory : gmap string file) : outcome :=
  let f := zstd_stream_reader archive in
  get! (num_ess_files, f1) := read_uint32 f or output_directory in
  get! (num_skse_files, f2) := read_uint32 f1 or output_directory in
  let st := {| decompressor := f2; directory := output_directory;
               stem_to_posix_timestamp := ∅ |} in
  match repeat_body (Z.to_nat num_ess_files) restore_ess st with
  | Done st' => repeat_body (Z.to_nat num_skse_files) restore_skse st'
  | Raised e d => Raised e d
  end.

End Archive.

(** ** The command line

    A path of the input directory is the name of the file: every path that
    [cli_compress] handles is a child of that directory. A name is cut at
    ASCII characters only, so that its characters can be those of the text
    or the bytes of its UTF-8 encoding alike. *)

(** What [get_save_id_from_path] raises: its own exception, or the
    [ValueError] of [int]. *)
Inductive id_error := OnlyMainSaves | ValueError.

(** [s.split('_')[0]]: [s] up to its first underscore, all of [s] when it
    has none. *)
Fixpoint before_underscore (s : string) : string :=
  match s with
  | EmptyString => EmptyString
  | String c s' =>
      if Ascii.eqb c "_" then EmptyString else String c (before_underscore s')
  end.

(** [s[n:]] *)
Fixpoint string_drop (n : nat) (s : string) : string :=
  match n, s with
  | O, _ => s
  | S n', String _ s' => string_drop n' s'
  | S _, EmptyString => EmptyString
  end.

(** [s[:-n]] for a positive [n]. *)
Definition drop_last (n : nat) (s : string) : string :=
  String.substring 0 (String.length s - n) s.

(** [xs.sort(key=key)]: the keys are computed first, one call for each
    element in order, and a key that raises ends the sort; the elements
    are then put in the order of their keys, those with equal keys in the
    order that they had. *)
Fixpoint sort_keys {A E} (key : A -> E + Z) (xs : list A)
    : E + list (Z * A) :=
  match xs with
  | [] => inr []
  | x :: xs' =>
      match key x with
      | inl e => inl e
      | inr k =>
          match sort_keys key xs' with
          | inl e => inl e
          | inr keyed => inr ((k, x) :: keyed)
          end
      end
  end.

Fixpoint insert_by_key {A} (x : Z * A) (l : list (Z * A)) : list (Z * A) :=
  match l with
  | [] => [x]
  | y :: l' => if fst x <=? fst y then x :: l else y :: insert_by_key x l'
  end.

Definition stable_sort {A} (l : list (Z * A)) : list (Z * A) :=
  foldr insert_by_key [] l.

Definition sort_by {A E} (key : A -> E + Z) (xs : list A) : E + list A :=
  match sort_keys key xs with
  | inl e => inl e
  | inr keyed => inr (map snd (stable_sort keyed))
  end.

(** The contents of the file of a directory under a name, when there is
    one. A directory is the list of its files, in the order in which
    [Path.iterdir] yields them. *)
Fixpoint file_at (directory : list (string * list byte)) (name : string)
    : option (list byte) :=
  match directory with
  | [] => None
  | (name', data) :: directory' =>
      if String.eqb name' name then Some data else file_at directory' name
  end.

Section Cli.

(** [int(text)], with [None] for a [ValueError], and [Path(name).suffix]
    belong to the Python runtime. *)
Variable py_int : string -> option Z.
Variable path_suffix : string -> string.

(** The block and stream codecs and the UTF-8 encoder, as above. *)
Variable lz4_block_decompress : list byte -> Z -> option (list byte).
Variable zstd_stream_writer : Z -> Z -> list byte -> list byte.
Variable utf8_encode : string -> list byte.

Definition get_save_id_from_path (name : string) : id_error + Z :=
  if negb (String.prefix "Save" name) then inl OnlyMainSaves
  else match py_int (string_drop 4 (before_underscore name)) with
       | Some id => inr id
       | None => inl ValueError
       end.

(** [Path(str(child)[:-4] + '.skse')]: the four characters that are cut
    are those of the suffix ['.ess'] of the name. *)
Definition skse_file_of (name : string) : string :=
  drop_last 4 name +:+ ".skse".

(** One iteration of the loop of [cli_compress] over the children of the
    input directory: a file is its name and its contents, and
    [os.path.exists] looks the name up in the directory, where two names
    are the same file only when they are equal. *)
Definition cli_compress_step (directory : list (string * list byte))
    (st : list (string * list byte) * list (string * list byte))
    (child : string * list byte)
    : list (string * list byte) * list (string * list byte) :=
  let '(ess_files, skse_files) := st in
  if negb (String.prefix "Save" (fst child)) then st
  else match get_save_id_from_path (fst child) with
       | inl _ => st
       | inr _ =>
           if String.eqb (path_suffix (fst child)) ".ess" then
             let skse_file := skse_file_of (fst child) in
             (ess_files ++ [child],
              match file_at directory skse_file with
              | Some data => skse_files ++ [(skse_file, data)]
              | None => skse_files
              end)
           else st
       end.

(** The two lists that [cli_compress] hands to [compress_files]. *)
Definition cli_compress_files (directory : list (string * list byte))
    : id_error
      + list (string * list byte) * list (string * list byte) :=
  let '(ess_files, skse_files) :=
    fold_left (cli_compress_step directory) directory ([], []) in
  match sort_by (fun x => get_save_id_from_path (fst x)) ess_files with
  | inl e => inl e
  | inr ess_files =>
      match sort_by (fun x => get_save_id_from_path (fst x)) skse_files with
      | inl e => inl e
      | inr skse_files => inr (ess_files, skse_files)
      end
  end.

(** [cli_compress(args)] for the input directory [args.i], the
    compression level [args.c] and the number of threads [args.t]: the
    archive file written at [args.o], which is none of the files that the
    run reads. *)
Definition cli_compress (directory : list (string * list byte))
    (compression_level threads : Z) : id_error + res (list byte) :=
  match cli_compress_files directory with
  | inl e => inl e
  | inr (ess_files, skse_files) =>
      inr (compress_files lz4_block_decompress zstd_stream_writer
             utf8_encode ess_files skse_files compression_level threads)
  end.

End Cli.

(** ** The layout of a serialised record

    The definitions below name parts of the byte layout and of the record;
    the theorems are stated with them. *)

Definition wstring_bytes (v : list byte) : list byte :=
  le_bytes 2 (len v) ++ v.

(** The bytes from the magic up to [playerSex], before the two experience
    blobs. *)
Definition header_before_exp (r : ESS) : list byte :=
  MAGIC ++ le_bytes 4 (headerSize r) ++ le_bytes 4 (version r)
    ++ le_bytes 4 (saveNumber r) ++ wstring_bytes (playerName r)
    ++ le_bytes 4 (playerLevel r) ++ wstring_bytes (playerLocation r)
    ++ wstring_bytes (gameDate r) ++ wstring_bytes (playerRaceEditorId r)
    ++ le_bytes 2 (playerSex r).

(** The bytes after the blobs, up to and including the compression type. *)
Definition header_after_exp (r : ESS) (tag : Z) : list byte :=
  le_bytes 8 (filetime r) ++ le_bytes 4 (shotWidth r)
    ++ le_bytes 4 (shotHeight r) ++ le_bytes 2 tag.

Definition header_bytes (r : ESS) (tag : Z) : list byte :=
  header_before_exp r ++ playerCurExp r ++ playerLvlUpExp r
    ++ header_after_exp r tag.

(** The header fields of a record are those of a parsed header: every
    integer fits its width, every text field its 16-bit length, and the two
    experience blobs have four bytes. *)
Definition header_ok (r : ESS) : Prop :=
  0 <= headerSize r < 2 ^ 32 /\ version r = 12
  /\ 0 <= saveNumber r < 2 ^ 32 /\ len (playerName r) < 2 ^ 16
  /\ 0 <= playerLevel r < 2 ^ 32 /\ len (playerLocation r) < 2 ^ 16
  /\ len (gameDate r) < 2 ^ 16 /\ len (playerRaceEditorId r) < 2 ^ 16
  /\ 0 <= playerSex r < 2 ^ 16
  /\ len (playerCurExp r) = 4 /\ len (playerLvlUpExp r) = 4
  /\ 0 <= filetime r < 2 ^ 64
  /\ 0 <= shotWidth r < 2 ^ 32 /\ 0 <= shotHeight r < 2 ^ 32.

(** The record [r] with the fields that depend on the representation
    replaced. *)
Definition with_payload (r : ESS) (tag : Z) (shot : list byte)
    (sizes : option (Z * Z)) (blob : list byte) : ESS :=
  {| headerSize := headerSize r; version := version r;
     saveNumber := saveNumber r; playerName := playerName r;
     playerLevel := playerLevel r; playerLocation := playerLocation r;
     gameDate := gameDate r; playerRaceEditorId := playerRaceEditorId r;
     playerSex := playerSex r; playerCurExp := playerCurExp r;
     playerLvlUpExp := playerLvlUpExp r; filetime := filetime r;
     shotWidth := shotWidth r; shotHeight := shotHeight r;
     compressionType := tag; screenshotData := shot;
     uncompressedLen := fst <$> sizes; compressedLen := snd <$> sizes;
     uncompressedBlob := blob |}.

(** What [ESS.__init__] does once the compression type is read (from the
    screenshot on), for the header fields of [r]: with any reader of the
    screenshot, and with [read]. *)
Definition ESS_read_payload_with
    (lz4_block_decompress : list byte -> Z -> option (list byte))
    (read_shot : Z -> reader (list byte)) (r : ESS) (tag : Z) : reader ESS :=
  let! shot := read_shot (4 * shotWidth r * shotHeight r) in
  if tag =? 0 then
    let! blob := read_all in
    ret (with_payload r tag shot None blob)
  else if tag =? 2 then
    let! uncompressedLen := read_uint32 in
    let! compressedLen := read_uint32 in
    let! compressedBlob := read_all in
    match lz4_block_decompress compressedBlob uncompressedLen with
    | None => raise LZ4BlockError
    | Some blob =>
        if negb (len blob =? uncompressedLen)
        then raise (WrongUncompressedSize uncompressedLen (len blob))
        else ret (with_payload r tag shot
                    (Some (uncompressedLen, compressedLen)) blob)
    end
  else raise (InvalidCompressionType tag).

Definition ESS_read_payload
    (lz4_block_decompress : list byte -> Z -> option (list byte))
    (r : ESS) (tag : Z) : reader ESS :=
  let! shot := read (4 * shotWidth r * shotHeight r) in
  if tag =? 0 then
    let! blob := read_all in
    ret (with_payload r tag shot None blob)
  else if tag =? 2 then
    let! uncompressedLen := read_uint32 in
    let! compressedLen := read_uint32 in
    let! compressedBlob := read_all in
    match lz4_block_decompress compressedBlob uncompressedLen with
    | None => raise LZ4BlockError
    | Some blob =>
        if negb (len blob =? uncompressedLen)
        then raise (WrongUncompressedSize uncompressedLen (len blob))
        else ret (with_payload r tag shot
                    (Some (uncompressedLen, compressedLen)) blob)
    end
  else raise (InvalidCompressionType tag).

(** Equality of two records in every field but the compression type and the
    two declared sizes. *)
Definition agree_except_repr (r r' : ESS) : Prop :=
  headerSize r = headerSize r' /\ version r = version r'
  /\ saveNumber r = saveNumber r' /\ playerName r = playerName r'
  /\ playerLevel r = playerLevel r' /\ playerLocation r = playerLocation r'
  /\ gameDate r = gameDate r'
  /\ playerRaceEditorId r = playerRaceEditorId r'
  /\ playerSex r = playerSex r' /\ playerCurExp r = playerCurExp r'
  /\ playerLvlUpExp r = playerLvlUpExp r' /\ filetime r = filetime r'
  /\ shotWidth r = shotWidth r' /\ shotHeight r = shotHeight r'
  /\ screenshotData r = screenshotData r'
  /\ uncompressedBlob r = uncompressedBlob r'.

Definition set_headerSize (v : Z) (r : ESS) : ESS :=
  {| headerSize := v; version := version r;
     saveNumber := saveNumber r; playerName := playerName r;
     playerLevel := playerLevel r; playerLocation := playerLocation r;
     gameDate := gameDate r; playerRaceEditorId := playerRaceEditorId r;
     playerSex := playerSex r; playerCurExp := playerCurExp r;
     playerLvlUpExp := playerLvlUpExp r; filetime := filetime r;
     shotWidth := shotWidth r; shotHeight := shotHeight r;
     compressionType := compressionType r;
     screenshotData := screenshotData r;
     uncompressedLen := uncompressedLen r; compressedLen := compressedLen r;
     uncompressedBlob := uncompressedBlob r |}.

Definition set_compressedLen (v : option Z) (r : ESS) : ESS :=
  {| headerSize := headerSize r; version := version r;
     saveNumber := saveNumber r; playerName := playerName r;
     playerLevel := playerLevel r; playerLocation := playerLocation r;
     gameDate := gameDate r; playerRaceEditorId := playerRaceEditorId r;
     playerSex := playerSex r; playerCurExp := playerCurExp r;
     playerLvlUpExp := playerLvlUpExp r; filetime := filetime r;
     shotWidth := shotWidth r; shotHeight := shotHeight r;
     compressionType := compressionType r;
     screenshotData := screenshotData r;
     uncompressedLen := uncompressedLen r; compressedLen := v;
     uncompressedBlob := uncompressedBlob r |}.

(** One archive entry: [wstring filename, uint32 filesize, data]. *)
Definition entry_bytes (name payload : list byte) : list byte :=
  wstring_bytes name ++ le_bytes 4 (len payload) ++ payload.

(** The stored serialisation of a record with a well-formed header. *)
Definition stored_bytes (r : ESS) : list byte :=
  header_bytes r 0 ++ screenshotData r ++ uncompressedBlob r.

(** The file that the restore pass leaves for a record. *)
Definition restored_file (lz4_block_compress : list byte -> option (list byte))
    (r : ESS) : file :=
  {| content := match get_compressed lz4_block_compress r with
                | Ok data => data
                | Err _ => []
                end;
     mtime := Some (get_filetime_as_posix_seconds r) |}.

(** The output directory at the end of a run, however it ends. *)
Definition final_directory (o : outcome) : gmap string file :=
  match o with
  | Done st => directory st
  | Raised _ d => d
  end.

(** ** Stand-ins for the libraries

    A block codec that stores the data as it is, a stream codec that does
    the same, and names that are their own UTF-8 encoding. They meet what
    the theorems assume of lz4, zstd and the Python runtime, and serve to
    run the definitions on concrete inputs. *)

Definition stored_compress (data : list byte) : option (list byte) :=
  Some data.

Definition stored_decompress (data : list byte) (uncompressed_size : Z)
    : option (list byte) :=
  if len data <=? uncompressed_size then Some data else None.

Definition plain_writer (compression_level threads : Z) (written : list byte)
    : list byte := written.

Definition plain_reader (archive : list byte) : list byte := archive.

Definition ascii_encode (name : string) : list byte :=
  String.list_byte_of_string name.

Definition ascii_decode (raw : list byte) : option string :=
  Some (String.string_of_list_byte raw).

(** The part of a name before its last dot, if it has one. *)
Fixpoint before_last_dot (name : string) : option string :=
  match name with
  | EmptyString => None
  | String c name' =>
      match before_last_dot name' with
      | Some t => Some (String c t)
      | None => if Ascii.eqb c "."%char then Some EmptyString else None
      end
  end.

Definition simple_stem (name : string) : string :=
  match before_last_dot name with
  | Some EmptyString | None => name
  | Some t => t
  end.

(** A reader of decimal digits for [int], and the part of a name from
    its last dot for [Path.suffix]. *)
Definition digit_of (c : ascii) : option Z :=
  let n := Z.of_N (N_of_ascii c) in
  if (48 <=? n) && (n <=? 57) then Some (n - 48) else None.

Fixpoint digits_value (acc : Z) (s : string) : option Z :=
  match s with
  | EmptyString => Some acc
  | String c s' =>
      match digit_of c with
      | Some d => digits_value (10 * acc + d) s'
      | None => None
      end
  end.

Definition digits_int (s : string) : option Z :=
  match s with
  | EmptyString => None
  | _ => digits_value 0 s
  end.

Fixpoint from_last_dot (name : string) : option string :=
  match name with
  | EmptyString => None
  | String c name' =>
      match from_last_dot name' with
      | Some t => Some t
      | None => if Ascii.eqb c "."%char then Some name else None
      end
  end.

Definition simple_suffix (name : string) : string :=
  match from_last_dot name with
  | Some t => t
  | None => EmptyString
  end.

(** ** Sample inputs

    The minimal record of the specification's concrete scenario: an empty
    screenshot, empty text fields and a three-byte payload. *)

Definition sample_ess : ESS :=
  {| headerSize := 74; version := 12; saveNumber := 1; playerName := [];
     playerLevel := 1; playerLocation := []; gameDate := [];
     playerRaceEditorId := []; playerSex := 0;
     playerCurExp := [x00; x00; x00; x00];
     playerLvlUpExp := [x00; x00; x00; x00];
     filetime := 133000000000000000; shotWidth := 0; shotHeight := 0;
     compressionType := 0; screenshotData := [];
     uncompressedLen := None; compressedLen := None;
     uncompressedBlob := [x01; x02; x03] |}.

(** The same save, stored on disk. *)
Definition sample_stored : list byte :=
  header_bytes sample_ess 0 ++ [x01; x02; x03].

(** A header that announces a screenshot of one pixel. *)
Definition one_pixel_ess : ESS :=
  {| headerSize := 74; version := 12; saveNumber := 1; playerName := [];
     playerLevel := 1; playerLocation := []; gameDate := [];
     playerRaceEditorId := []; playerSex := 0;
     playerCurExp := [x00; x00; x00; x00];
     playerLvlUpExp := [x00; x00; x00; x00];
     filetime := 133000000000000000; shotWidth := 1; shotHeight := 1;
     compressionType := 0; screenshotData := [];
     uncompressedLen := None; compressedLen := None;
     uncompressedBlob := [] |}.

(** A stored save that ends right after the compression type, before any
    byte of the screenshot. *)
Definition cut_before_shot : list byte := header_bytes one_pixel_ess 0.

(** A save that ends after [playerSex] and two bytes of the first
    experience blob. *)
Definition cut_in_exp : list byte :=
  header_before_exp sample_ess ++ [x00; x00].

(** One save and its sidecar, and the archive that packing them gives
    with the stand-ins. *)
Definition sample_ess_files : list (string * list byte) :=
  [("Save1_Hero.ess"%string, sample_stored)].

Definition sample_skse_files : list (string * list byte) :=
  [("Save1_Hero.skse"%string, [x07; x08])].

Definition sample_archive : list byte :=
  Eval vm_compute in
    match compress_files stored_decompress plain_writer ascii_encode
            sample_ess_files sample_skse_files 3 1 with
    | Ok archive => archive
    | Err _ => []
    end.

(** The same save, as the restore pass writes it. *)
Definition sample_compressed : list byte :=
  header_bytes sample_ess 2 ++ le_bytes 4 3 ++ le_bytes 4 3
    ++ [x01; x02; x03].

(** A directory of the game: two saves, the sidecar of the second one,
    a save of another naming scheme, a save whose name has no number and
    a file that is not a save; and the archive that [cli_compress] makes
    of it with the stand-ins. *)
Definition sample_directory : list (string * list byte) :=
  [("Save12_Hero.ess"%string, sample_stored);
   ("Save3_Hero.skse"%string, [x07; x08]);
   ("Quicksave0_Hero.ess"%string, sample_stored);
   ("Save3_Hero.ess"%string, sample_stored);
   ("SaveA_Hero.ess"%string, sample_stored);
   ("notes.txt"%string, [x09])].

Definition sample_cli_archive : list byte :=
  Eval vm_compute in
    match cli_compress digits_int simple_suffix stored_decompress
            plain_writer ascii_encode sample_directory 3 1 with
    | inr (Ok archive) => archive
    | _ => []
    end.

(** What one call of [read] takes on 64-bit CPython: [sys.maxsize]. *)
Definition sys_maxsize : Z := 2 ^ 63 - 1.




(** * Properties *)

(** ** Bytes and little-endian integers *)

Lemma byte_val_range (b : byte) : 0 <= byte_val b < 256.
Proof.
  unfold byte_val. pose proof (Byte.to_N_bounded b). lia.
Qed.

Lemma byte_of_val (b : byte) : byte_of (byte_val b) = b.
Proof.
  unfold byte_of. pose proof (byte_val_range b) as Hb.
  rewrite Z.mod_small by lia. unfold byte_val.
  rewrite N2Z.id, Byte.of_to_N. reflexivity.
Qed.

Lemma byte_val_of (z : Z) : 0 <= z < 256 -> byte_val (byte_of z) = z.
Proof.
  intros Hz. unfold byte_of, byte_val. rewrite Z.mod_small by lia.
  destruct (Byte.of_N (Z.to_N z)) as [b|] eqn:E.
  - apply Byte.to_of_N in E. rewrite E. lia.
  - apply Byte.of_N_None_iff in E. lia.
Qed.

Lemma length_le_bytes (n : nat) (v : Z) : length (le_bytes n v) = n.
Proof.
  revert v. induction n as [|n IH]; intros v; simpl; [reflexivity|].
  now rewrite IH.
Qed.

Lemma len_le_bytes (n : nat) (v : Z) : len (le_bytes n v) = Z.of_nat n.
Proof. unfold len. now rewrite length_le_bytes. Qed.

Lemma le_value_range (data : list byte) :
  0 <= le_value data < 256 ^ len data.
Proof.
  unfold len. induction data as [|b data IH]; simpl le_value.
  - simpl. lia.
  - pose proof (byte_val_range b).
    replace (Z.of_nat (length (b :: data))) with (Z.succ (Z.of_nat (length data)))
      by (simpl length; lia).
    rewrite Z.pow_succ_r by lia. lia.
Qed.

Lemma le_value_bytes (n : nat) (v : Z) :
  0 <= v < 256 ^ Z.of_nat n -> le_value (le_bytes n v) = v.
Proof.
  revert v. induction n as [|n IH]; intros v Hv.
  - simpl in *. lia.
  - replace (Z.of_nat (S n)) with (Z.succ (Z.of_nat n)) in Hv by lia.
    rewrite Z.pow_succ_r in Hv by lia.
    simpl. rewrite byte_val_of by (apply Z.mod_pos_bound; lia).
    rewrite IH.
    + pose proof (Z.div_mod v 256). lia.
    + split; [apply Z.div_pos; lia|].
      apply Z.div_lt_upper_bound; lia.
Qed.

Lemma le_bytes_value (data : list byte) :
  le_bytes (length data) (le_value data) = data.
Proof.
  induction data as [|b data IH]; [reflexivity|].
  pose proof (byte_val_range b) as Hb.
  simpl length. cbn [le_bytes le_value].
  replace ((byte_val b + 256 * le_value data) mod 256) with (byte_val b).
  - replace ((byte_val b + 256 * le_value data) / 256) with (le_value data).
    + now rewrite byte_of_val, IH.
    + rewrite Z.mul_comm, Z.div_add by lia.
      rewrite Z.div_small by lia. lia.
  - rewrite Z.mul_comm, Z.mod_add by lia. now rewrite Z.mod_small by lia.
Qed.

(** ** The readers *)

Lemma len_nonneg (data : list byte) : 0 <= len data.
Proof. unfold len. lia. Qed.

Lemma read_app (data f : list byte) :
  read (len data) (data ++ f) = Ok (data, f).
Proof.
  unfold read, len. rewrite Nat2Z.id.
  now rewrite take_app_length, drop_app_length.
Qed.

Lemma read_app' (n : Z) (data f : list byte) :
  len data = n -> read n (data ++ f) = Ok (data, f).
Proof. intros <-. apply read_app. Qed.

Lemma bind_ok {A B} (m : reader A) (k : A -> reader B) f a f' :
  m f = Ok (a, f') -> bind m k f = k a f'.
Proof. unfold bind. now intros ->. Qed.

(** The common shape of [read_uint8] ... [read_uint64]. *)
Lemma fixed_read_ok (n : nat) (w : width) (f : list byte) (v : Z) (f' : list byte) :
  (let! data := read (Z.of_nat n) in
   if len data =? Z.of_nat n then ret (le_value data)
   else raise (NotEnoughData w)) f = Ok (v, f') ->
  f = le_bytes n v ++ f' /\ 0 <= v < 256 ^ Z.of_nat n.
Proof.
  unfold bind, read, ret, raise. rewrite Nat2Z.id.
  destruct (len (take n f) =? Z.of_nat n) eqn:E; [|discriminate].
  apply Z.eqb_eq in E. intros [= <- <-].
  assert (length (take n f) = n) as Hl by (unfold len in E; lia).
  split.
  - rewrite <- Hl at 1. rewrite le_bytes_value. now rewrite take_drop.
  - pose proof (le_value_range (take n f)) as H. now rewrite E in H.
Qed.

Lemma fixed_read_err (n : nat) (w : width) (f : list byte) (e : error) :
  (let! data := read (Z.of_nat n) in
   if len data =? Z.of_nat n then ret (le_value data)
   else raise (NotEnoughData w)) f = Err e ->
  e = NotEnoughData w /\ len f < Z.of_nat n.
Proof.
  unfold bind, read, ret, raise. rewrite Nat2Z.id.
  destruct (len (take n f) =? Z.of_nat n) eqn:E; [discriminate|].
  apply Z.eqb_neq in E. intros [= <-]. split; [reflexivity|].
  unfold len in *. rewrite length_take in E. lia.
Qed.

Lemma fixed_read_app (n : nat) (w : width) (v : Z) (f : list byte) :
  0 <= v < 256 ^ Z.of_nat n ->
  (let! data := read (Z.of_nat n) in
   if len data =? Z.of_nat n then ret (le_value data)
   else raise (NotEnoughData w)) (le_bytes n v ++ f) = Ok (v, f).
Proof.
  intros Hv. unfold bind.
  rewrite (read_app' (Z.of_nat n) (le_bytes n v) f) by apply len_le_bytes.
  rewrite len_le_bytes, Z.eqb_refl. unfold ret. now rewrite le_value_bytes.
Qed.

Lemma read_uint64_ok f v f' :
  read_uint64 f = Ok (v, f') -> f = le_bytes 8 v ++ f' /\ 0 <= v < 2 ^ 64.
Proof. exact (fixed_read_ok 8 U64 f v f'). Qed.

Lemma read_uint32_ok f v f' :
  read_uint32 f = Ok (v, f') -> f = le_bytes 4 v ++ f' /\ 0 <= v < 2 ^ 32.
Proof. exact (fixed_read_ok 4 U32 f v f'). Qed.

Lemma read_uint16_ok f v f' :
  read_uint16 f = Ok (v, f') -> f = le_bytes 2 v ++ f' /\ 0 <= v < 2 ^ 16.
Proof. exact (fixed_read_ok 2 U16 f v f'). Qed.

Lemma read_uint64_err f e :
  read_uint64 f = Err e -> e = NotEnoughData U64 /\ len f < 8.
Proof. exact (fixed_read_err 8 U64 f e). Qed.

Lemma read_uint32_err f e :
  read_uint32 f = Err e -> e = NotEnoughData U32 /\ len f < 4.
Proof. exact (fixed_read_err 4 U32 f e). Qed.

Lemma read_uint16_err f e :
  read_uint16 f = Err e -> e = NotEnoughData U16 /\ len f < 2.
Proof. exact (fixed_read_err 2 U16 f e). Qed.

Lemma read_uint64_app v f :
  0 <= v < 2 ^ 64 -> read_uint64 (le_bytes 8 v ++ f) = Ok (v, f).
Proof. exact (fixed_read_app 8 U64 v f). Qed.

Lemma read_uint32_app v f :
  0 <= v < 2 ^ 32 -> read_uint32 (le_bytes 4 v ++ f) = Ok (v, f).
Proof. exact (fixed_read_app 4 U32 v f). Qed.

Lemma read_uint16_app v f :
  0 <= v < 2 ^ 16 -> read_uint16 (le_bytes 2 v ++ f) = Ok (v, f).
Proof. exact (fixed_read_app 2 U16 v f). Qed.

Lemma read_wstring_ok f v f' :
  read_wstring f = Ok (v, f') -> f = wstring_bytes v ++ f' /\ len v < 2 ^ 16.
Proof.
  unfold read_wstring, bind at 1.
  destruct (read_uint16 f) as [[size f1]|e] eqn:E; [|discriminate].
  apply read_uint16_ok in E as [-> Hsize].
  unfold bind, read, ret, raise.
  destruct (len (take (Z.to_nat size) f1) =? size) eqn:E; [|discriminate].
  apply Z.eqb_eq in E. intros [= <- <-]. unfold wstring_bytes.
  rewrite E. split; [|lia]. now rewrite <- app_assoc, take_drop.
Qed.

Lemma read_wstring_err f e :
  read_wstring f = Err e -> exists w, e = NotEnoughData w.
Proof.
  unfold read_wstring, bind at 1.
  destruct (read_uint16 f) as [[size f1]|e1] eqn:E.
  - unfold bind, read, ret, raise.
    destruct (len (take (Z.to_nat size) f1) =? size); [discriminate|].
    intros [= <-]. now exists WString.
  - apply read_uint16_err in E as [-> _]. intros [= <-]. now exists U16.
Qed.

Lemma read_wstring_app v f :
  len v < 2 ^ 16 -> read_wstring (wstring_bytes v ++ f) = Ok (v, f).
Proof.
  intros Hv. unfold read_wstring, wstring_bytes. rewrite <- app_assoc.
  pose proof (len_nonneg v).
  rewrite (bind_ok _ _ _ _ _ (read_uint16_app (len v) (v ++ f) ltac:(lia))).
  rewrite (bind_ok _ _ _ _ _ (read_app v f)).
  now rewrite Z.eqb_refl.
Qed.

(** ** The header of a record *)

Lemma take_full_of_drop (n : nat) (f : list byte) :
  (0 < length (drop n f))%nat -> length (take n f) = n.
Proof. rewrite length_take, length_drop. lia. Qed.

(** One read of the header in a hypothesis [HR : R = (let! x := m in k) f]:
    either it returns [v] and leaves the stream [f'], or the run ends. *)
Ltac split_read HR v f' E :=
  unfold bind at 1 in HR;
  lazymatch type of HR with
  | context [match ?m ?f with Ok _ => _ | Err _ => _ end] =>
      destruct (m f) as [[v f']|?] eqn:E; cbv beta iota in HR
  end.

Ltac plain_read HR :=
  unfold bind at 1, read at 1 in HR; cbv beta iota in HR.

Ltac truncated E lem :=
  apply lem in E; destruct E as [? E]; subst; do 3 right; eauto.

Ltac read_u32 HR v f' :=
  let E := fresh "E" in
  split_read HR v f' E;
  [ apply read_uint32_ok in E; destruct E as [-> ?]
  | truncated E read_uint32_err ].

Ltac read_u16 HR v f' :=
  let E := fresh "E" in
  split_read HR v f' E;
  [ apply read_uint16_ok in E; destruct E as [-> ?]
  | truncated E read_uint16_err ].

Ltac read_ws HR v f' :=
  let E := fresh "E" in
  split_read HR v f' E;
  [ apply read_wstring_ok in E; destruct E as [-> ?]
  | truncated E read_wstring_err ].

Ltac fields :=
  cbn [headerSize version saveNumber playerName playerLevel playerLocation
       gameDate playerRaceEditorId playerSex playerCurExp playerLvlUpExp
       filetime shotWidth shotHeight compressionType screenshotData
       uncompressedLen compressedLen uncompressedBlob] in *.

Ltac step lem :=
  unfold bind at 1; rewrite lem by (assumption || reflexivity || lia);
  cbv beta iota.

Section Decode.

Variable lz4_block_compress : list byte -> option (list byte).
Variable lz4_block_decompress : list byte -> Z -> option (list byte).

(** On the layout of a header, the reads up to the compression type return
    the fields, and the run continues with the screenshot. *)
Lemma ESS_read_with_header (read_shot : Z -> reader (list byte)) (r : ESS)
    (tag : Z) (tail : list byte) :
  header_ok r -> 0 <= tag < 2 ^ 16 ->
  ESS_read_with lz4_block_decompress read_shot (header_bytes r tag ++ tail)
  = ESS_read_payload_with lz4_block_decompress read_shot r tag tail.
Proof.
  intros (Hhs & Hver & Hsn & Hpn & Hpl & Hloc & Hgd & Hrace & Hsex & Hcur
          & Hlvl & Hft & Hw & Hh) Htag.
  unfold header_bytes, header_before_exp, header_after_exp.
  repeat rewrite <- app_assoc. unfold ESS_read_with.
  step read_app'.
  rewrite bool_decide_true by reflexivity. cbn [negb].
  step read_uint32_app.
  step read_uint32_app.
  replace (version r =? 12) with true by (now rewrite Hver). cbn [negb].
  step read_uint32_app.
  step read_wstring_app.
  step read_uint32_app.
  step read_wstring_app.
  step read_wstring_app.
  step read_wstring_app.
  step read_uint16_app.
  step read_app'.
  step read_app'.
  step read_uint64_app.
  step read_uint32_app.
  step read_uint32_app.
  step read_uint16_app.
  unfold ESS_read_payload_with, with_payload.
  reflexivity.
Qed.

Lemma ESS_read_header (r : ESS) (tag : Z) (tail : list byte) :
  header_ok r -> 0 <= tag < 2 ^ 16 ->
  ESS_read lz4_block_decompress (header_bytes r tag ++ tail)
  = ESS_read_payload lz4_block_decompress r tag tail.
Proof. exact (ESS_read_with_header read r tag tail). Qed.

(** Every stream either starts with the layout of a header, or is rejected
    for its magic or its version, or ends inside the header. *)
Lemma ESS_read_with_cases (read_shot : Z -> reader (list byte))
    (f : list byte) :
  (exists r tag tail,
      header_ok r /\ 0 <= tag < 2 ^ 16 /\ f = header_bytes r tag ++ tail)
  \/ (take 13 f <> MAGIC
      /\ ESS_read_with lz4_block_decompress read_shot f
         = Err (InvalidMagic (take 13 f)))
  \/ (exists hs v rest,
         f = MAGIC ++ le_bytes 4 hs ++ le_bytes 4 v ++ rest
         /\ 0 <= hs < 2 ^ 32 /\ 0 <= v < 2 ^ 32 /\ v <> 12
         /\ ESS_read_with lz4_block_decompress read_shot f
            = Err (UnsupportedVersion v))
  \/ (exists w, ESS_read_with lz4_block_decompress read_shot f
                = Err (NotEnoughData w)).
Proof.
  remember (ESS_read_with lz4_block_decompress read_shot f) as R eqn:HR.
  unfold ESS_read_with in HR.
  plain_read HR. change (Z.to_nat 13) with 13%nat in HR.
  destruct (decide (take 13 f = MAGIC)) as [Hm|Hm].
  2:{ rewrite bool_decide_false in HR by assumption. right. left. now split. }
  rewrite bool_decide_true in HR by assumption. cbn [negb] in HR.
  assert (f = MAGIC ++ drop 13 f) as Hf
    by (rewrite <- Hm; symmetry; apply take_drop).
  clear Hm. remember (drop 13 f) as f0 eqn:Hf0. clear Hf0. subst f.
  read_u32 HR hs f1.
  read_u32 HR ver f2.
  destruct (Z.eqb_spec ver 12) as [->|Hv]; cbn [negb] in HR.
  2:{ right. right. left. exists hs, ver, f2.
      repeat split; try lia; assumption. }
  read_u32 HR snum f3.
  read_ws HR pn f4.
  read_u32 HR plev f5.
  read_ws HR loc f6.
  read_ws HR gd f7.
  read_ws HR race f8.
  read_u16 HR sex f9.
  plain_read HR. plain_read HR.
  change (Z.to_nat 4) with 4%nat in HR.
  split_read HR ft f10 E; [|truncated E read_uint64_err].
  apply read_uint64_ok in E. destruct E as [E Hft].
  assert (length (take 4 (drop 4 f9)) = 4%nat) as Hlvl.
  { apply take_full_of_drop. rewrite E, length_app, length_le_bytes. lia. }
  assert (length (take 4 f9) = 4%nat) as Hcur.
  { apply take_full_of_drop.
    rewrite <- (take_drop 4 (drop 4 f9)), length_app, Hlvl. lia. }
  assert (f9 = take 4 f9 ++ take 4 (drop 4 f9) ++ le_bytes 8 ft ++ f10) as Hf9.
  { rewrite <- E, take_drop, take_drop. reflexivity. }
  remember (take 4 f9) as curExp eqn:Hc.
  remember (take 4 (drop 4 f9)) as lvlExp eqn:Hl.
  clear Hc Hl E. subst f9.
  read_u32 HR w f11.
  read_u32 HR h f12.
  read_u16 HR tag f13.
  left.
  exists {| headerSize := hs; version := 12; saveNumber := snum;
            playerName := pn; playerLevel := plev; playerLocation := loc;
            gameDate := gd; playerRaceEditorId := race; playerSex := sex;
            playerCurExp := curExp; playerLvlUpExp := lvlExp;
            filetime := ft; shotWidth := w; shotHeight := h;
            compressionType := 0; screenshotData := [];
            uncompressedLen := None; compressedLen := None;
            uncompressedBlob := [] |}, tag, f13.
  split; [|split; [assumption|]].
  - unfold header_ok; fields. unfold len in *. rewrite Hcur, Hlvl.
    repeat split; lia.
  - unfold header_bytes, header_before_exp, header_after_exp; fields.
    repeat rewrite <- app_assoc. reflexivity.
Qed.

Lemma ESS_read_cases (f : list byte) :
  (exists r tag tail,
      header_ok r /\ 0 <= tag < 2 ^ 16 /\ f = header_bytes r tag ++ tail)
  \/ (take 13 f <> MAGIC
      /\ ESS_read lz4_block_decompress f = Err (InvalidMagic (take 13 f)))
  \/ (exists hs v rest,
         f = MAGIC ++ le_bytes 4 hs ++ le_bytes 4 v ++ rest
         /\ 0 <= hs < 2 ^ 32 /\ 0 <= v < 2 ^ 32 /\ v <> 12
         /\ ESS_read lz4_block_decompress f = Err (UnsupportedVersion v))
  \/ (exists w, ESS_read lz4_block_decompress f = Err (NotEnoughData w)).
Proof. exact (ESS_read_with_cases read f). Qed.

Local Abbreviation decode := (ESS_init lz4_block_decompress).
Local Abbreviation encodeStored := get_uncompressed.
Local Abbreviation encodeCompressed := (get_compressed lz4_block_compress).

Lemma ESS_init_header (r : ESS) (tag : Z) (tail : list byte) :
  header_ok r -> 0 <= tag < 2 ^ 16 ->
  decode (header_bytes r tag ++ tail)
  = res_map fst (ESS_read_payload lz4_block_decompress r tag tail).
Proof.
  intros Hr Htag. unfold ESS_init. now rewrite ESS_read_header.
Qed.

(** The stored representation: the screenshot is whatever [f.read] returns,
    the payload is the rest. *)
Lemma payload_stored (r : ESS) (tail : list byte) :
  ESS_read_payload lz4_block_decompress r 0 tail
  = Ok (with_payload r 0
          (take (Z.to_nat (4 * shotWidth r * shotHeight r)) tail) None
          (drop (Z.to_nat (4 * shotWidth r * shotHeight r)) tail), []).
Proof. reflexivity. Qed.


Lemma payload_compressed (r : ESS) (shot : list byte) (ulen clen : Z)
    (data : list byte) :
  len shot = 4 * shotWidth r * shotHeight r ->
  0 <= ulen < 2 ^ 32 -> 0 <= clen < 2 ^ 32 ->
  ESS_read_payload lz4_block_decompress r 2
    (shot ++ le_bytes 4 ulen ++ le_bytes 4 clen ++ data)
  = match lz4_block_decompress data ulen with
    | None => Err LZ4BlockError
    | Some blob =>
        if len blob =? ulen
        then Ok (with_payload r 2 shot (Some (ulen, clen)) blob, [])
        else Err (WrongUncompressedSize ulen (len blob))
    end.
Proof.
  intros Hshot Hu Hc. unfold ESS_read_payload.
  step read_app'. cbn [Z.eqb Pos.eqb].
  step read_uint32_app. step read_uint32_app.
  unfold bind at 1, read_all at 1. cbv beta iota.
  destruct (lz4_block_decompress data ulen) as [blob|]; [|reflexivity].
  now destruct (len blob =? ulen).
Qed.


Lemma bytes_as_le (k : nat) (data : list byte) :
  length data = k -> data = le_bytes k (le_value data).
Proof. intros <-. now rewrite le_bytes_value. Qed.

Lemma le_value_u32 (data : list byte) :
  len data = 4 -> 0 <= le_value data < 2 ^ 32.
Proof. intros H. pose proof (le_value_range data) as R. now rewrite H in R. Qed.

Lemma decode_bad_magic (f : list byte) :
  take 13 f <> MAGIC -> decode f = Err (InvalidMagic (take 13 f)).
Proof.
  intros Hm. unfold ESS_init, ESS_read, ESS_read_with.
  unfold bind at 1, read at 1. cbv beta iota.
  change (Z.to_nat 13) with 13%nat.
  now rewrite bool_decide_false by assumption.
Qed.

Lemma decode_bad_version (hs vs rest : list byte) :
  len hs = 4 -> len vs = 4 -> le_value vs <> 12 ->
  decode (MAGIC ++ hs ++ vs ++ rest) = Err (UnsupportedVersion (le_value vs)).
Proof.
  intros Hh Hv Hne. unfold ESS_init, ESS_read, ESS_read_with.
  step read_app'. rewrite bool_decide_true by reflexivity. cbn [negb].
  rewrite (bytes_as_le 4 hs) at 1 by (unfold len in Hh; lia).
  rewrite (bytes_as_le 4 vs) at 1 by (unfold len in Hv; lia).
  pose proof (le_value_u32 hs Hh). pose proof (le_value_u32 vs Hv).
  step read_uint32_app. step read_uint32_app.
  destruct (Z.eqb_spec (le_value vs) 12); [contradiction|]. reflexivity.
Qed.




(** ** The compressed representation *)

(** C5. On a record whose compression type is 2, [decode] reads the two
    declared lengths, hands the rest of the input to the block decompressor
    with the declared uncompressed length, and accepts its output exactly
    when the output has that length; a different length is a size-mismatch
    error, and nothing else about the payload is checked. *)
Theorem C5_compressed_payload_check (r : ESS) (shot : list byte)
    (ulen clen : Z) (data : list byte) :
  header_ok r -> len shot = 4 * shotWidth r * shotHeight r ->
  0 <= ulen < 2 ^ 32 -> 0 <= clen < 2 ^ 32 ->
  decode (header_bytes r 2 ++ shot ++ le_bytes 4 ulen ++ le_bytes 4 clen
            ++ data)
  = match lz4_block_decompress data ulen with
    | None => Err LZ4BlockError
    | Some blob =>
        if len blob =? ulen
        then Ok (with_payload r 2 shot (Some (ulen, clen)) blob)
        else Err (WrongUncompressedSize ulen (len blob))
    end
  /\ forall blob, kind_of (WrongUncompressedSize ulen (len blob)) = SizeMismatch.
Proof.
  intros Hr Hshot Hu Hc. split; [|reflexivity].
  rewrite ESS_init_header by (assumption || lia).
  rewrite payload_compressed by assumption.
  destruct (lz4_block_decompress data ulen) as [blob|]; [|reflexivity].
  now destruct (len blob =? ulen).
Qed.

(** C9. Two compressed inputs that differ only in the four bytes of the
    declared compressed length fail with the same error, or decode to
    records that differ in [compressedLen] alone; the payloads and both
    re-encodings are the same. *)
Theorem C9_compressed_length_ignored (r : ESS) (shot : list byte) (ulen : Z)
    (c1 c2 data : list byte) :
  header_ok r -> len shot = 4 * shotWidth r * shotHeight r ->
  0 <= ulen < 2 ^ 32 -> len c1 = 4 -> len c2 = 4 ->
  match decode (header_bytes r 2 ++ shot ++ le_bytes 4 ulen ++ c1 ++ data),
        decode (header_bytes r 2 ++ shot ++ le_bytes 4 ulen ++ c2 ++ data)
  with
  | Ok r1, Ok r2 =>
      set_compressedLen None r1 = set_compressedLen None r2
      /\ compressedLen r1 = Some (le_value c1)
      /\ compressedLen r2 = Some (le_value c2)
      /\ uncompressedBlob r1 = uncompressedBlob r2
      /\ encodeStored r1 = encodeStored r2
      /\ encodeCompressed r1 = encodeCompressed r2
  | Err e1, Err e2 => e1 = e2
  | _, _ => False
  end.
Proof.
  intros Hr Hshot Hu H1 H2.
  pose proof (le_value_u32 c1 H1). pose proof (le_value_u32 c2 H2).
  remember (le_value c1) as v1 eqn:Hv1. remember (le_value c2) as v2 eqn:Hv2.
  assert (c1 = le_bytes 4 v1) as ->
    by (subst v1; apply bytes_as_le; unfold len in H1; lia).
  assert (c2 = le_bytes 4 v2) as ->
    by (subst v2; apply bytes_as_le; unfold len in H2; lia).
  rewrite !ESS_init_header by (assumption || lia).
  rewrite !payload_compressed by assumption.
  destruct (lz4_block_decompress data ulen) as [blob|]; [|reflexivity].
  destruct (len blob =? ulen); [|reflexivity].
  cbn [res_map fst]. repeat split.
Qed.


(** ** What a successful [decode] says about its input *)

Lemma payload_ok_inv (r0 : ESS) (tag : Z) (tail : list byte) (r : ESS)
    (f' : list byte) :
  0 <= shotWidth r0 -> 0 <= shotHeight r0 ->
  ESS_read_payload lz4_block_decompress r0 tag tail = Ok (r, f') ->
  (tag = 0
   /\ r = with_payload r0 0
            (take (Z.to_nat (4 * shotWidth r0 * shotHeight r0)) tail) None
            (drop (Z.to_nat (4 * shotWidth r0 * shotHeight r0)) tail))
  \/ (tag = 2
      /\ exists shot ulen clen data blob,
          tail = shot ++ le_bytes 4 ulen ++ le_bytes 4 clen ++ data
          /\ len shot = 4 * shotWidth r0 * shotHeight r0
          /\ 0 <= ulen < 2 ^ 32 /\ 0 <= clen < 2 ^ 32
          /\ lz4_block_decompress data ulen = Some blob
          /\ len blob = ulen
          /\ r = with_payload r0 2 shot (Some (ulen, clen)) blob).
Proof.
  intros Hw Hh.
  unfold ESS_read_payload. unfold bind at 1, read at 1. cbv beta iota.
  set (n := Z.to_nat (4 * shotWidth r0 * shotHeight r0)).
  destruct (Z.eqb_spec tag 0) as [->|H0].
  { intros [= <- <-]. now left. }
  destruct (Z.eqb_spec tag 2) as [->|H2]; [|discriminate].
  intros HR. right. split; [reflexivity|].
  split_read HR ulen f1 E1; [|discriminate].
  apply read_uint32_ok in E1 as [E1 Hu].
  split_read HR clen f2 E2; [|discriminate].
  apply read_uint32_ok in E2 as [-> Hc].
  unfold bind at 1, read_all at 1 in HR. cbv beta iota in HR.
  destruct (lz4_block_decompress f2 ulen) as [blob|] eqn:Hd; [|discriminate].
  destruct (Z.eqb_spec (len blob) ulen) as [Hl|Hl];
    cbn [negb] in HR; [|discriminate].
  injection HR as <- <-.
  assert (length (take n tail) = n) as Hn.
  { apply take_full_of_drop. rewrite E1, length_app, length_le_bytes. lia. }
  pose proof (len_nonneg (take n tail)) as Hpos.
  exists (take n tail), ulen, clen, f2, blob.
  repeat split; try assumption; try lia.
  - now rewrite <- E1, take_drop.
  - unfold len in *. rewrite Hn. subst n. nia.
Qed.

(** A decoded record carries a well-formed header, its input starts with
    the layout of that header, and the rest of the input is either the
    screenshot bytes that were there followed by the stored payload, or the
    whole screenshot, the two lengths and a block that decompresses to the
    payload. *)
Lemma decode_inv (b : list byte) (r : ESS) :
  decode b = Ok r ->
  header_ok r
  /\ exists tail,
      b = header_bytes r (compressionType r) ++ tail
      /\ ((compressionType r = 0
           /\ screenshotData r
              = take (Z.to_nat (4 * shotWidth r * shotHeight r)) tail
           /\ uncompressedBlob r
              = drop (Z.to_nat (4 * shotWidth r * shotHeight r)) tail
           /\ uncompressedLen r = None /\ compressedLen r = None)
          \/ (compressionType r = 2
              /\ len (screenshotData r) = 4 * shotWidth r * shotHeight r
              /\ exists ulen clen data,
                  tail = screenshotData r ++ le_bytes 4 ulen
                           ++ le_bytes 4 clen ++ data
                  /\ 0 <= ulen < 2 ^ 32 /\ 0 <= clen < 2 ^ 32
                  /\ lz4_block_decompress data ulen
                     = Some (uncompressedBlob r)
                  /\ len (uncompressedBlob r) = ulen
                  /\ uncompressedLen r = Some ulen
                  /\ compressedLen r = Some clen)).
Proof.
  intros Hd.
  destruct (ESS_read_cases b)
    as [(r0 & tag & tail & Hr & Ht & ->)
       |[[_ Hf]|[(hs & v & rest & _ & _ & _ & _ & Hf)|[w Hf]]]];
    try (unfold ESS_init in Hd; rewrite Hf in Hd; discriminate).
  rewrite ESS_init_header in Hd by assumption.
  destruct (ESS_read_payload lz4_block_decompress r0 tag tail)
    as [[r' f']|e] eqn:HP; [|discriminate].
  injection Hd as ->.
  apply payload_ok_inv in HP; [|apply Hr..].
  destruct HP
    as [[-> ->]|[-> (shot & ulen & clen & data & blob & -> & Hs & Hu & Hc
                      & Hz & Hl & ->)]].
  - split; [exact Hr|]. exists tail. split; [reflexivity|].
    left. repeat split.
  - split; [exact Hr|].
    exists (shot ++ le_bytes 4 ulen ++ le_bytes 4 clen ++ data).
    split; [reflexivity|]. right. split; [reflexivity|].
    split; [exact Hs|]. exists ulen, clen, data. repeat split; assumption || lia.
Qed.

(** ** The layout that the two serialisers produce *)

Lemma pack_uint64_ok (v : Z) :
  0 <= v < 2 ^ 64 -> pack_uint64 v = Ok (le_bytes 8 v).
Proof.
  intros H. unfold pack_uint64.
  destruct (Z.leb_spec 0 v); [|lia]. destruct (Z.ltb_spec v (2 ^ 64)); [|lia].
  reflexivity.
Qed.

Lemma pack_uint32_ok (v : Z) :
  0 <= v < 2 ^ 32 -> pack_uint32 v = Ok (le_bytes 4 v).
Proof.
  intros H. unfold pack_uint32.
  destruct (Z.leb_spec 0 v); [|lia]. destruct (Z.ltb_spec v (2 ^ 32)); [|lia].
  reflexivity.
Qed.

Lemma pack_uint32_inv (v : Z) (data : list byte) :
  pack_uint32 v = Ok data -> 0 <= v < 2 ^ 32 /\ data = le_bytes 4 v.
Proof.
  unfold pack_uint32.
  destruct (Z.leb_spec 0 v); [|discriminate].
  destruct (Z.ltb_spec v (2 ^ 32)); [|discriminate].
  intros [= <-]. split; [lia|reflexivity].
Qed.

Lemma pack_uint16_ok (v : Z) :
  0 <= v < 2 ^ 16 -> pack_uint16 v = Ok (le_bytes 2 v).
Proof.
  intros H. unfold pack_uint16.
  destruct (Z.leb_spec 0 v); [|lia]. destruct (Z.ltb_spec v (2 ^ 16)); [|lia].
  reflexivity.
Qed.

Lemma pack_wstring_ok (v : list byte) :
  len v < 2 ^ 16 -> pack_wstring v = Ok (wstring_bytes v).
Proof.
  intros H. pose proof (len_nonneg v). unfold pack_wstring.
  destruct (Z.gtb_spec (len v) (2 ^ 16 - 1)); [lia|].
  now rewrite pack_uint16_ok by lia.
Qed.

Lemma pack_wstring_inv (v data : list byte) :
  pack_wstring v = Ok data -> len v < 2 ^ 16 /\ data = wstring_bytes v.
Proof.
  unfold pack_wstring. pose proof (len_nonneg v).
  destruct (Z.gtb_spec (len v) (2 ^ 16 - 1)); [discriminate|].
  rewrite pack_uint16_ok by lia. intros [= <-]. split; [lia|reflexivity].
Qed.

Lemma header_chunks_ok (r : ESS) (tag : Z) (rest : list (list byte)) :
  header_ok r -> 0 <= tag < 2 ^ 16 ->
  exists chunks,
    header_chunks r = Ok chunks
    /\ concat (chunks ++ le_bytes 2 tag :: rest)
       = header_bytes r tag ++ concat rest.
Proof.
  intros (Hhs & Hver & Hsn & Hpn & Hpl & Hloc & Hgd & Hrace & Hsex & Hcur
          & Hlvl & Hft & Hw & Hh) Htag.
  unfold header_chunks.
  rewrite !pack_uint32_ok, !pack_wstring_ok, pack_uint16_ok, pack_uint64_ok
    by (assumption || lia).
  cbn [res_bind]. eexists. split; [reflexivity|].
  unfold header_bytes, header_before_exp, header_after_exp.
  cbn [concat app]. repeat rewrite <- app_assoc. reflexivity.
Qed.

Lemma get_uncompressed_layout (r : ESS) :
  header_ok r ->
  encodeStored r
  = Ok (header_bytes r 0 ++ screenshotData r ++ uncompressedBlob r).
Proof.
  intros Hr. unfold get_uncompressed.
  destruct (header_chunks_ok r 0 [screenshotData r; uncompressedBlob r] Hr)
    as (chunks & -> & Hc); [lia|].
  cbn [res_bind]. change (pack_uint16 0) with (Ok (le_bytes 2 0)).
  cbn [res_bind]. rewrite Hc. cbn [concat]. now rewrite app_nil_r.
Qed.

Lemma get_compressed_layout (r : ESS) (block : list byte) :
  header_ok r ->
  len (uncompressedBlob r) < 2 ^ 32 ->
  lz4_block_compress (uncompressedBlob r) = Some block ->
  len block < 2 ^ 32 ->
  encodeCompressed r
  = Ok (header_bytes r 2 ++ screenshotData r
          ++ le_bytes 4 (len (uncompressedBlob r))
          ++ le_bytes 4 (len block) ++ block).
Proof.
  intros Hr Hb Hz Hc. unfold get_compressed.
  pose proof (len_nonneg (uncompressedBlob r)).
  pose proof (len_nonneg block).
  destruct (header_chunks_ok r 2
              [screenshotData r; le_bytes 4 (len (uncompressedBlob r));
               le_bytes 4 (len block); block] Hr)
    as (chunks & -> & Hch); [lia|].
  cbn [res_bind]. change (pack_uint16 2) with (Ok (le_bytes 2 2)).
  cbn [res_bind]. rewrite pack_uint32_ok by lia. cbn [res_bind].
  rewrite Hz, pack_uint32_ok by lia. cbn [res_bind].
  rewrite Hch. cbn [concat]. now rewrite app_nil_r.
Qed.

(** A compressed serialisation is the header with compression type 2,
    the screenshot, the length of the payload, the length of its block, and
    the block. *)
Lemma get_compressed_inv (r : ESS) (data : list byte) :
  header_ok r -> encodeCompressed r = Ok data ->
  exists block,
    lz4_block_compress (uncompressedBlob r) = Some block
    /\ len (uncompressedBlob r) < 2 ^ 32 /\ len block < 2 ^ 32
    /\ data = header_bytes r 2 ++ screenshotData r
                ++ le_bytes 4 (len (uncompressedBlob r))
                ++ le_bytes 4 (len block) ++ block.
Proof.
  intros Hr Hc. pose proof Hc as Hc0. unfold get_compressed in Hc.
  destruct (header_chunks r) as [chunks|] eqn:Hch; [|discriminate].
  cbn [res_bind] in Hc.
  destruct (pack_uint16 2) as [tag|] eqn:Ht; [|discriminate].
  cbn [res_bind] in Hc.
  destruct (pack_uint32 (len (uncompressedBlob r))) as [ulen|] eqn:Hu;
    [|discriminate].
  apply pack_uint32_inv in Hu as [Hu _]. cbn [res_bind] in Hc.
  destruct (lz4_block_compress (uncompressedBlob r)) as [block|] eqn:Hz;
    [|discriminate].
  destruct (pack_uint32 (len block)) as [clen|] eqn:Hl; [|discriminate].
  apply pack_uint32_inv in Hl as [Hl _].
  rewrite (get_compressed_layout r block Hr) in Hc0 by (assumption || lia).
  exists block. split; [reflexivity|]. split; [lia|]. split; [lia|].
  injection Hc0 as <-. reflexivity.
Qed.

(** ** Unchecked reads *)

(** A stored save whose screenshot is cut short is accepted: the record
    holds the bytes that were there, and an empty payload. *)
Lemma decode_short_screenshot (r : ESS) (tail : list byte) :
  header_ok r -> len tail <= 4 * shotWidth r * shotHeight r ->
  decode (header_bytes r 0 ++ tail) = Ok (with_payload r 0 tail None []).
Proof.
  intros Hr Hl. rewrite ESS_init_header by (assumption || lia).
  rewrite payload_stored. cbn [res_map fst].
  rewrite take_ge, drop_ge by (unfold len in Hl; lia). reflexivity.
Qed.

(** A compressed save whose screenshot is cut short is rejected, by the
    read of the declared length that follows. *)
Lemma decode_short_screenshot_compressed (r : ESS) (tail : list byte) :
  header_ok r -> len tail < 4 * shotWidth r * shotHeight r + 4 ->
  decode (header_bytes r 2 ++ tail) = Err (NotEnoughData U32).
Proof.
  intros Hr Hl. rewrite ESS_init_header by (assumption || lia).
  unfold ESS_read_payload. unfold bind at 1, read at 1. cbv beta iota.
  cbn [Z.eqb Pos.eqb]. unfold bind at 1.
  destruct (read_uint32 _) as [[v f1]|e] eqn:E.
  - apply read_uint32_ok in E as [E _]. exfalso.
    apply (f_equal (@length byte)) in E.
    rewrite length_drop, length_app, length_le_bytes in E.
    unfold len in Hl. lia.
  - now apply read_uint32_err in E as [-> _].
Qed.

(** X2. An input that ends inside the two experience blobs, or inside the
    file time after them, is rejected by the read of the file time. *)
Lemma decode_cut_in_exp (r : ESS) (partial : list byte) :
  header_ok r -> len partial < 16 ->
  decode (header_before_exp r ++ partial) = Err (NotEnoughData U64).
Proof.
  intros (Hhs & Hver & Hsn & Hpn & Hpl & Hloc & Hgd & Hrace & Hsex & _) Hl.
  unfold header_before_exp. repeat rewrite <- app_assoc.
  unfold ESS_init, ESS_read, ESS_read_with.
  step read_app'. rewrite bool_decide_true by reflexivity. cbn [negb].
  step read_uint32_app. step read_uint32_app.
  replace (version r =? 12) with true by (now rewrite Hver). cbn [negb].
  step read_uint32_app. step read_wstring_app. step read_uint32_app.
  step read_wstring_app. step read_wstring_app. step read_wstring_app.
  step read_uint16_app.
  unfold bind at 1, read at 1. cbv beta iota.
  unfold bind at 1, read at 1. cbv beta iota.
  unfold bind at 1.
  destruct (read_uint64 _) as [[v f1]|e] eqn:E.
  - apply read_uint64_ok in E as [E _]. exfalso.
    apply (f_equal (@length byte)) in E.
    rewrite !length_drop, length_app, length_le_bytes in E.
    unfold len in Hl. lia.
  - now apply read_uint64_err in E as [-> _].
Qed.

(** C3. The read of the screenshot is not checked: a stored save that
    ends before the [4 * shotWidth * shotHeight] bytes of its screenshot is
    accepted, and the record holds the bytes that were there. *)
Theorem C3_short_screenshot_accepted (r : ESS) (tail : list byte) :
  header_ok r -> len tail < 4 * shotWidth r * shotHeight r ->
  exists r',
    decode (header_bytes r 0 ++ tail) = Ok r'
    /\ screenshotData r' = tail /\ uncompressedBlob r' = []
    /\ shotWidth r' = shotWidth r /\ shotHeight r' = shotHeight r
    /\ len (screenshotData r') < 4 * shotWidth r' * shotHeight r'.
Proof.
  intros Hr Hl. exists (with_payload r 0 tail None []).
  split; [apply decode_short_screenshot; [exact Hr|lia]|].
  repeat split. exact Hl.
Qed.

(** ** Round trip *)

(** The stored serialisation of a decoded record decodes to the same
    record, in the stored representation. *)
Lemma decode_stored_bytes (b : list byte) (r : ESS) :
  decode b = Ok r ->
  header_ok r
  /\ encodeStored r = Ok (stored_bytes r)
  /\ decode (stored_bytes r)
     = Ok (with_payload r 0 (screenshotData r) None (uncompressedBlob r)).
Proof.
  intros Hd. destruct (decode_inv b r Hd) as (Hr & tail & -> & Hcases).
  split; [exact Hr|]. split; [now apply get_uncompressed_layout|].
  unfold stored_bytes.
  rewrite ESS_init_header by (assumption || lia).
  rewrite payload_stored. cbn [res_map fst]. do 2 f_equal.
  - destruct Hcases as [(_ & Hs & Hb & _)|(_ & Hs & _)].
    + rewrite Hs at 2. rewrite Hs, Hb, take_drop. reflexivity.
    + apply take_app_length'. unfold len in Hs.
      destruct Hr as (_ & _ & _ & _ & _ & _ & _ & _ & _ & _ & _ & _ & ? & ?).
      nia.
  - destruct Hcases as [(_ & Hs & Hb & _)|(_ & Hs & _)].
    + rewrite Hb at 2. rewrite Hs, Hb, take_drop. reflexivity.
    + apply drop_app_length'. unfold len in Hs.
      destruct Hr as (_ & _ & _ & _ & _ & _ & _ & _ & _ & _ & _ & _ & ? & ?).
      nia.
Qed.


Hypothesis lz4_roundtrip :
  forall data block,
    lz4_block_compress data = Some block ->
    lz4_block_decompress block (len data) = Some data.

(** X1. Both serialisers give back a record that decodes to the same
    fields, the compressed one provided that the screenshot of the record
    is complete, that the payload has a block, and that both fit the 32-bit
    length fields. *)
Theorem roundtrip_complete_screenshot (b : list byte) (r : ESS) :
  decode b = Ok r ->
  (exists s r',
      encodeStored r = Ok s /\ decode s = Ok r'
      /\ agree_except_repr r r' /\ compressionType r' = 0
      /\ uncompressedLen r' = None /\ compressedLen r' = None)
  /\ (forall block,
        len (screenshotData r) = 4 * shotWidth r * shotHeight r ->
        len (uncompressedBlob r) < 2 ^ 32 ->
        lz4_block_compress (uncompressedBlob r) = Some block ->
        len block < 2 ^ 32 ->
        exists c r',
          encodeCompressed r = Ok c /\ decode c = Ok r'
          /\ agree_except_repr r r' /\ compressionType r' = 2
          /\ uncompressedLen r' = Some (len (uncompressedBlob r))
          /\ compressedLen r' = Some (len block)).
Proof.
  intros Hd. destruct (decode_stored_bytes b r Hd) as (Hr & He & Hds).
  split.
  - exists (stored_bytes r),
           (with_payload r 0 (screenshotData r) None (uncompressedBlob r)).
    split; [exact He|]. split; [exact Hds|repeat split].
  - intros block Hs Hb Hz Hc.
    pose proof (len_nonneg (uncompressedBlob r)).
    pose proof (len_nonneg block).
    eexists.
    exists (with_payload r 2 (screenshotData r)
              (Some (len (uncompressedBlob r), len block))
              (uncompressedBlob r)).
    split; [exact (get_compressed_layout r block Hr Hb Hz Hc)|].
    split; [|repeat split].
    rewrite ESS_init_header by (assumption || lia).
    rewrite payload_compressed by (assumption || lia).
    now rewrite (lz4_roundtrip _ _ Hz), Z.eqb_refl.
Qed.

(** Whatever the block codec, the compressed serialisation of a record
    read from a stored save is not the byte string that was read: the two
    decode to different compression types. *)
Lemma stored_save_reencoded_differs (b : list byte) (r : ESS)
    (data : list byte) :
  decode b = Ok r -> compressionType r = 0 ->
  encodeCompressed r = Ok data -> data <> b.
Proof.
  intros Hd Ht Hc ->. destruct (decode_inv b r Hd) as (Hr & _).
  destruct (get_compressed_inv r b Hr Hc) as (block & _ & _ & _ & Hb).
  rewrite Hb in Hd. rewrite ESS_init_header in Hd by (exact Hr || lia).
  destruct (ESS_read_payload _ _ _ _) as [[r0 f']|e] eqn:HP in Hd;
    [|discriminate].
  injection Hd as ->.
  apply payload_ok_inv in HP; [|apply Hr..].
  destruct HP as [[H _]|[_ (shot & ulen & clen & d & blob & _ & _ & _ & _
                            & _ & _ & Heq)]]; [discriminate|].
  apply (f_equal compressionType) in Heq.
  cbn [compressionType with_payload] in Heq. congruence.
Qed.

Lemma sample_header_ok : header_ok sample_ess.
Proof. unfold header_ok, len; cbn; repeat split; lia. Qed.

Lemma one_pixel_header_ok : header_ok one_pixel_ess.
Proof. unfold header_ok, len; cbn; repeat split; lia. Qed.

(** C1. The round trip through the compressed representation fails on
    the record that [decode] returns for a stored save cut inside its
    screenshot: whatever the block codec, the bytes that follow the short
    screenshot in the compressed serialisation, the declared lengths first,
    are read back as screenshot bytes. *)
Theorem C1_compressed_roundtrip_breaks (r : ESS) (tail : list byte) :
  header_ok r -> len tail < 4 * shotWidth r * shotHeight r ->
  decode (header_bytes r 0 ++ tail) = Ok (with_payload r 0 tail None [])
  /\ forall c r',
       encodeCompressed (with_payload r 0 tail None []) = Ok c ->
       decode c = Ok r' ->
       len (screenshotData r') = 4 * shotWidth r * shotHeight r
       /\ screenshotData r' <> tail.
Proof.
  intros Hr Hl. split; [apply decode_short_screenshot; [exact Hr|lia]|].
  intros c r' Hc Hd.
  apply (get_compressed_inv (with_payload r 0 tail None [])) in Hc;
    [|exact Hr].
  destruct Hc as (block & _ & _ & _ & Hc).
  cbn [screenshotData uncompressedBlob with_payload] in Hc.
  change (header_bytes (with_payload r 0 tail None []) 2)
    with (header_bytes r 2) in Hc.
  subst c. rewrite ESS_init_header in Hd by (exact Hr || lia).
  destruct (ESS_read_payload _ _ _ _) as [[r0 f']|e] eqn:HP in Hd;
    [|discriminate].
  injection Hd as ->.
  apply payload_ok_inv in HP; [|apply Hr..].
  destruct HP as [[H _]|[_ (shot & ulen & clen & data & blob & _ & Hs & _
                            & _ & _ & _ & ->)]]; [discriminate|].
  cbn [screenshotData with_payload].
  split; [exact Hs|]. intros ->. lia.
Qed.

(** ** The header size *)

Lemma bind_map_ext {A} (g : ESS * list byte -> ESS * list byte)
    (m : reader A) (k1 k2 : A -> reader ESS) (f : list byte) :
  (forall a f', k2 a f' = res_map g (k1 a f')) ->
  bind m k2 f = res_map g (bind m k1 f).
Proof.
  intros H. unfold bind. destruct (m f) as [[a f']|e]; [apply H|reflexivity].
Qed.

Ltac same_run :=
  repeat first
    [ reflexivity
    | apply bind_map_ext; intros ? ?
    | match goal with
      | |- context [if ?c then _ else _] => destruct c
      | |- context [match ?o with Some _ => _ | None => _ end] => destruct o
      end ].

(** The declared header size flows into the record and nowhere else. *)
Lemma ESS_read_headerSize (read_shot : Z -> reader (list byte))
    (v1 v2 : Z) (rest : list byte) :
  0 <= v1 < 2 ^ 32 -> 0 <= v2 < 2 ^ 32 ->
  ESS_read_with lz4_block_decompress read_shot
    (MAGIC ++ le_bytes 4 v2 ++ rest)
  = res_map (prod_map (set_headerSize v2) id)
      (ESS_read_with lz4_block_decompress read_shot
         (MAGIC ++ le_bytes 4 v1 ++ rest)).
Proof.
  intros H1 H2. symmetry. unfold ESS_read_with.
  step read_app'. rewrite bool_decide_true by reflexivity. cbn [negb].
  step read_uint32_app. symmetry.
  step read_app'. rewrite bool_decide_true by reflexivity. cbn [negb].
  step read_uint32_app.
  same_run.
Qed.

End Decode.

(** ** The file time *)

(** C8. The conversion subtracts the FILETIME of the Unix epoch and
    divides by ten million, rounding towards minus infinity. *)
Theorem C8_filetime_to_epoch_seconds (ft : Z) :
  windows_filetime_to_unix_second ft
  = (ft - 116444736000000000) / 10000000
  /\ 10000000 * windows_filetime_to_unix_second ft
     <= ft - 116444736000000000
     < 10000000 * (windows_filetime_to_unix_second ft + 1)
  /\ forall self,
       filetime self = ft ->
       get_filetime_as_posix_seconds self
       = (ft - 116444736000000000) / 10000000.
Proof.
  unfold get_filetime_as_posix_seconds, windows_filetime_to_unix_second,
    EPOCH_AS_FILETIME.
  change (10 ^ 9 / 100) with 10000000.
  split; [reflexivity|]. split.
  - pose proof (Z.div_mod (ft - 116444736000000000) 10000000).
    pose proof (Z.mod_pos_bound (ft - 116444736000000000) 10000000). lia.
  - now intros self ->.
Qed.

Example filetime_of_epoch :
  windows_filetime_to_unix_second 116444736000000000 = 0
  /\ windows_filetime_to_unix_second 116444736009999999 = 0
  /\ windows_filetime_to_unix_second 116444735999999999 = -1
  /\ windows_filetime_to_unix_second 0 = -11644473600
  /\ windows_filetime_to_unix_second (2 ^ 64 - 1) = 1833029933770.
Proof. repeat split. Qed.

(** ** The theorems on the sample inputs *)

Lemma stored_roundtrip (data block : list byte) :
  stored_compress data = Some block ->
  stored_decompress block (len data) = Some data.
Proof.
  unfold stored_decompress, stored_compress. intros [= <-].
  now rewrite Z.leb_refl.
Qed.

(** The save cut before its one-pixel screenshot. *)
Lemma C1_compressed_roundtrip_witness :
  ESS_init stored_decompress cut_before_shot = Ok one_pixel_ess
  /\ forall c r',
       get_compressed stored_compress one_pixel_ess = Ok c ->
       ESS_init stored_decompress c = Ok r' ->
       len (screenshotData r') = 4 /\ screenshotData r' <> [].
Proof.
  exact (C1_compressed_roundtrip_breaks stored_compress stored_decompress
           one_pixel_ess [] one_pixel_header_ok eq_refl).
Defined.

(** The same save: it decodes, with no screenshot byte. *)
Lemma C3_short_screenshot_witness :
  exists r',
    ESS_init stored_decompress cut_before_shot = Ok r'
    /\ screenshotData r' = [] /\ uncompressedBlob r' = []
    /\ shotWidth r' = 1 /\ shotHeight r' = 1
    /\ len (screenshotData r') < 4 * shotWidth r' * shotHeight r'.
Proof.
  exact (C3_short_screenshot_accepted stored_decompress one_pixel_ess []
           one_pixel_header_ok eq_refl).
Defined.

(** A declared length that the block has, and one that it has not. *)
Lemma C5_compressed_payload_witness :
  ESS_init stored_decompress
    (header_bytes sample_ess 2 ++ [] ++ le_bytes 4 3 ++ le_bytes 4 3
       ++ [x01; x02; x03])
  = Ok (with_payload sample_ess 2 [] (Some (3, 3)) [x01; x02; x03])
  /\ ESS_init stored_decompress
       (header_bytes sample_ess 2 ++ [] ++ le_bytes 4 4 ++ le_bytes 4 3
          ++ [x01; x02; x03])
     = Err (WrongUncompressedSize 4 3).
Proof.
  split.
  - exact (proj1 (C5_compressed_payload_check stored_decompress sample_ess
                    [] 3 3 [x01; x02; x03] sample_header_ok eq_refl
                    ltac:(lia) ltac:(lia))).
  - exact (proj1 (C5_compressed_payload_check stored_decompress sample_ess
                    [] 4 3 [x01; x02; x03] sample_header_ok eq_refl
                    ltac:(lia) ltac:(lia))).
Defined.

(** A declared compressed length of 3, and one of 99. *)
Lemma C9_compressed_length_witness :
  exists r1 r2,
    ESS_init stored_decompress
      (header_bytes sample_ess 2 ++ [] ++ le_bytes 4 3 ++ le_bytes 4 3
         ++ [x01; x02; x03]) = Ok r1
    /\ ESS_init stored_decompress
         (header_bytes sample_ess 2 ++ [] ++ le_bytes 4 3 ++ le_bytes 4 99
            ++ [x01; x02; x03]) = Ok r2
    /\ compressedLen r1 = Some 3 /\ compressedLen r2 = Some 99
    /\ uncompressedBlob r1 = uncompressedBlob r2
    /\ get_compressed stored_compress r1 = get_compressed stored_compress r2.
Proof.
  pose proof (C9_compressed_length_ignored stored_compress stored_decompress
                sample_ess [] 3 (le_bytes 4 3) (le_bytes 4 99)
                [x01; x02; x03] sample_header_ok eq_refl ltac:(lia)
                eq_refl eq_refl) as H.
  destruct (ESS_init stored_decompress _) as [r1|e1] eqn:E1 in H;
    [|discriminate E1].
  destruct (ESS_init stored_decompress _) as [r2|e2] eqn:E2 in H;
    [|discriminate E2].
  destruct H as (_ & H1 & H2 & Hb & _ & Hc).
  exists r1, r2. repeat split; assumption.
Defined.

(** The sample save through both serialisers. *)
Lemma roundtrip_witness :
  (exists s r',
      get_uncompressed sample_ess = Ok s
      /\ ESS_init stored_decompress s = Ok r'
      /\ agree_except_repr sample_ess r' /\ compressionType r' = 0
      /\ uncompressedLen r' = None /\ compressedLen r' = None)
  /\ exists c r',
      get_compressed stored_compress sample_ess = Ok c
      /\ ESS_init stored_decompress c = Ok r'
      /\ agree_except_repr sample_ess r' /\ compressionType r' = 2
      /\ uncompressedLen r' = Some 3 /\ compressedLen r' = Some 3.
Proof.
  destruct (roundtrip_complete_screenshot stored_compress stored_decompress
              stored_roundtrip sample_stored sample_ess eq_refl)
    as [Hs Hc].
  split; [exact Hs|].
  apply (Hc [x01; x02; x03]); reflexivity.
Defined.

Lemma Ok_inj {A} (a b : A) : Ok a = Ok b -> a = b.
Proof. congruence. Qed.

(** ** Chunked writes *)

Lemma chunks_prefix (arr : list byte) (size n : nat) :
  concat (map (fun i => take size (drop i arr))
              (map (fun k => (k * size)%nat) (seq 0 n)))
  = take (n * size) arr.
Proof.
  induction n as [|n IH]; [reflexivity|].
  rewrite seq_S, !map_app, concat_app, IH. cbn [map concat plus].
  rewrite app_nil_r, take_take_drop. f_equal. lia.
Qed.

Lemma chunks_concat (arr : list byte) (size : nat) :
  (0 < size)%nat -> concat (chunks arr size) = arr.
Proof.
  intros Hs. unfold chunks, range_step. rewrite chunks_prefix.
  apply take_ge.
  pose proof (Nat.div_mod_eq (length arr + size - 1) size) as Hd.
  pose proof (Nat.mod_upper_bound (length arr + size - 1) size) as Hm.
  nia.
Qed.

Lemma fold_left_app_concat (l : list (list byte)) (w : list byte) :
  fold_left (fun written chunk => written ++ chunk) l w = w ++ concat l.
Proof.
  revert w. induction l as [|c l IH]; intros w; cbn [fold_left concat].
  - now rewrite app_nil_r.
  - now rewrite IH, app_assoc.
Qed.

(** The compressor receives the blob whole, whatever the chunking. *)
Lemma append_blob_app (compressor blob : list byte) :
  append_blob compressor blob = compressor ++ blob.
Proof.
  unfold append_blob. rewrite fold_left_app_concat, chunks_concat;
    [reflexivity|].
  unfold READ_CHUNK_SIZE, MiB. lia.
Qed.

(** ** Packing *)

Section Pack.

Variable lz4_block_compress : list byte -> option (list byte).
Variable lz4_block_decompress : list byte -> Z -> option (list byte).
Variable zstd_stream_writer : Z -> Z -> list byte -> list byte.
Variable zstd_stream_reader : list byte -> list byte.
Variable utf8_encode : string -> list byte.
Variable utf8_decode : list byte -> option string.
Variable path_stem : string -> string.

Local Abbreviation decode := (ESS_init lz4_block_decompress).
Local Abbreviation encodeCompressed := (get_compressed lz4_block_compress).
Local Abbreviation ess_entry :=
  (fun (file : string * list byte) (r : ESS) =>
     entry_bytes (utf8_encode (fst file)) (stored_bytes r)).
Local Abbreviation skse_entry :=
  (fun file : string * list byte =>
     entry_bytes (utf8_encode (fst file)) (snd file)).
Local Abbreviation packed_ok :=
  (fun (file : string * list byte) (r : ESS) =>
     decode (snd file) = Ok r
     /\ len (utf8_encode (fst file)) < 2 ^ 16
     /\ len (stored_bytes r) < 2 ^ 32).

(** One save file of the first loop: it is decoded, and the entry that
    goes into the compressor holds its stored serialisation, whatever the
    representation it had on disk. *)
Lemma compress_ess_inv (compressor : list byte) (total_read : Z)
    (file : string * list byte) (st' : list byte * Z) :
  compress_ess lz4_block_decompress utf8_encode (compressor, total_read) file
  = Ok st' ->
  exists r,
    packed_ok file r
    /\ st' = (compressor ++ ess_entry file r, total_read + len (snd file)).
Proof.
  unfold compress_ess.
  destruct (decode (snd file)) as [r|] eqn:Hd; [|discriminate].
  cbn [res_bind].
  destruct (decode_stored_bytes lz4_block_decompress _ _ Hd) as (_ & -> & _).
  cbn [res_bind].
  destruct (pack_wstring _) as [name|] eqn:Hn; [|discriminate].
  apply pack_wstring_inv in Hn as [Hn ->]. cbn [res_bind].
  destruct (pack_uint32 _) as [size|] eqn:Hs; [|discriminate].
  apply pack_uint32_inv in Hs as [Hs ->]. cbn [res_bind].
  rewrite !append_blob_app.
  destruct (_ =? 0); [discriminate|]. intros <-%Ok_inj.
  exists r. split; [repeat split; (assumption || lia)|].
  unfold entry_bytes. now rewrite <- !app_assoc.
Qed.

Lemma compress_skse_inv (compressor : list byte) (total_read : Z)
    (file : string * list byte) (st' : list byte * Z) :
  compress_skse utf8_encode (compressor, total_read) file = Ok st' ->
  len (utf8_encode (fst file)) < 2 ^ 16 /\ len (snd file) < 2 ^ 32
  /\ st' = (compressor ++ skse_entry file, total_read + len (snd file)).
Proof.
  unfold compress_skse.
  destruct (pack_wstring _) as [name|] eqn:Hn; [|discriminate].
  apply pack_wstring_inv in Hn as [Hn ->]. cbn [res_bind].
  destruct (pack_uint32 _) as [size|] eqn:Hs; [|discriminate].
  apply pack_uint32_inv in Hs as [Hs ->]. cbn [res_bind].
  rewrite !append_blob_app.
  destruct (_ =? 0); [discriminate|]. intros <-%Ok_inj.
  split; [assumption|]. split; [lia|].
  unfold entry_bytes. now rewrite <- !app_assoc.
Qed.

Lemma for_each_ess_inv (ess_files : list (string * list byte))
    (st st' : list byte * Z) :
  for_each (compress_ess lz4_block_decompress utf8_encode) st ess_files
  = Ok st' ->
  exists records,
    Forall2 packed_ok ess_files records
    /\ fst st' = fst st ++ concat (zip_with ess_entry ess_files records).
Proof.
  revert st. induction ess_files as [|file files IH]; intros [w tr];
    cbn [for_each].
  - intros <-%Ok_inj. exists []. split; [constructor|].
    cbn. now rewrite app_nil_r.
  - destruct (compress_ess _ _ _ _) as [st1|] eqn:H1; [|discriminate].
    cbn [res_bind]. intros H2.
    apply compress_ess_inv in H1 as (r & Hr & ->).
    apply IH in H2 as (records & Hrs & ->).
    exists (r :: records). split; [now constructor|].
    cbn [fst zip_with concat]. now rewrite <- app_assoc.
Qed.

Lemma for_each_skse_inv (skse_files : list (string * list byte))
    (st st' : list byte * Z) :
  for_each (compress_skse utf8_encode) st skse_files = Ok st' ->
  Forall (fun file => len (utf8_encode (fst file)) < 2 ^ 16
                      /\ len (snd file) < 2 ^ 32) skse_files
  /\ fst st' = fst st ++ concat (map skse_entry skse_files).
Proof.
  revert st. induction skse_files as [|file files IH]; intros [w tr];
    cbn [for_each].
  - intros <-%Ok_inj. split; [constructor|]. cbn. now rewrite app_nil_r.
  - destruct (compress_skse _ _ _) as [st1|] eqn:H1; [|discriminate].
    cbn [res_bind]. intros H2.
    apply compress_skse_inv in H1 as (Hn & Hs & ->).
    apply IH in H2 as (Hall & ->).
    split; [now constructor|].
    cbn [fst map concat]. now rewrite <- app_assoc.
Qed.

(** The decompressed archive: the two counts, the save entries in the
    order of [ess_files], the sidecar entries in the order of
    [skse_files]. *)
Lemma compress_stream_inv (ess_files skse_files : list (string * list byte))
    (stream : list byte) :
  compress_stream lz4_block_decompress utf8_encode ess_files skse_files
  = Ok stream ->
  Z.of_nat (length ess_files) < 2 ^ 32
  /\ Z.of_nat (length skse_files) < 2 ^ 32
  /\ Forall (fun file => len (utf8_encode (fst file)) < 2 ^ 16
                         /\ len (snd file) < 2 ^ 32) skse_files
  /\ exists records,
      Forall2 packed_ok ess_files records
      /\ stream
         = le_bytes 4 (Z.of_nat (length ess_files))
             ++ le_bytes 4 (Z.of_nat (length skse_files))
             ++ concat (zip_with ess_entry ess_files records)
             ++ concat (map skse_entry skse_files).
Proof.
  unfold compress_stream.
  destruct (pack_uint32 _) as [n1|] eqn:H1; [|discriminate].
  apply pack_uint32_inv in H1 as [H1 ->]. cbn [res_bind].
  destruct (pack_uint32 _) as [n2|] eqn:H2; [|discriminate].
  apply pack_uint32_inv in H2 as [H2 ->]. cbn [res_bind].
  rewrite append_blob_app.
  destruct (for_each _ _ ess_files) as [st1|] eqn:He; [|discriminate].
  cbn [res_bind].
  destruct (for_each _ _ skse_files) as [st2|] eqn:Hs; [|discriminate].
  cbn [res_bind]. intros <-%Ok_inj.
  apply for_each_ess_inv in He as (records & Hrs & He).
  apply for_each_skse_inv in Hs as (Hall & ->).
  split; [lia|]. split; [lia|]. split; [exact Hall|].
  exists records. split; [exact Hrs|].
  rewrite He. cbn [fst app]. now rewrite <- !app_assoc.
Qed.


(** ** Restoring *)

Lemma path_exists_false (d : gmap string file) (name : string) :
  d !! name = None -> path_exists d name = false.
Proof.
  intros H. unfold path_exists. apply bool_decide_eq_false.
  rewrite H. now intros [? ?].
Qed.

Lemma path_exists_true (d : gmap string file) (name : string) (f : file) :
  d !! name = Some f -> path_exists d name = true.
Proof.
  intros H. unfold path_exists. apply bool_decide_eq_true. now rewrite H.
Qed.

(** One save entry, restored into a directory that does not have its
    name: the record is decoded, and the file receives its compressed
    serialisation and its time stamp. *)
Lemma restore_ess_step (st : restore_state) (raw payload rest : list byte)
    (name : string) (r : ESS) (data : list byte) :
  decompressor st = entry_bytes raw payload ++ rest ->
  len raw < 2 ^ 16 -> len payload < 2 ^ 32 ->
  utf8_decode raw = Some name ->
  directory st !! name = None ->
  decode payload = Ok r ->
  encodeCompressed r = Ok data ->
  restore_ess lz4_block_compress lz4_block_decompress utf8_decode path_stem st
  = Done {| decompressor := rest;
            directory :=
              <[name := {| content := data;
                           mtime := Some (get_filetime_as_posix_seconds r) |}]>
                (directory st);
            stem_to_posix_timestamp :=
              <[path_stem name := get_filetime_as_posix_seconds r]>
                (stem_to_posix_timestamp st) |}.
Proof.
  intros Hin Hraw Hpay Hname Hfree Hd Hc.
  pose proof (len_nonneg payload).
  unfold restore_ess. rewrite Hin. unfold entry_bytes.
  rewrite <- !app_assoc, read_wstring_app by assumption.
  cbn [or_raise]. rewrite Hname, (path_exists_false _ _ Hfree).
  rewrite read_uint32_app by lia. cbn [or_raise].
  rewrite read_app. cbn [or_raise]. rewrite Hd. cbn [or_raise negb].
  rewrite Hc. cbn [or_raise].
  unfold utime, write_file, open_wb. rewrite lookup_insert_eq.
  cbn [or_raise content]. now rewrite !insert_insert_eq.
Qed.

(** One sidecar entry, likewise; its time stamp is the one recorded for
    its stem. *)
Lemma restore_skse_step (st : restore_state) (raw payload rest : list byte)
    (name : string) (ts : Z) :
  decompressor st = entry_bytes raw payload ++ rest ->
  len raw < 2 ^ 16 -> len payload < 2 ^ 32 ->
  utf8_decode raw = Some name ->
  directory st !! name = None ->
  stem_to_posix_timestamp st !! path_stem name = Some ts ->
  restore_skse utf8_decode path_stem st
  = Done {| decompressor := rest;
            directory :=
              <[name := {| content := payload; mtime := Some ts |}]>
                (directory st);
            stem_to_posix_timestamp := stem_to_posix_timestamp st |}.
Proof.
  intros Hin Hraw Hpay Hname Hfree Hts.
  pose proof (len_nonneg payload).
  unfold restore_skse. rewrite Hin. unfold entry_bytes.
  rewrite <- !app_assoc, read_wstring_app by assumption.
  cbn [or_raise]. rewrite Hname, (path_exists_false _ _ Hfree).
  rewrite read_uint32_app by lia. cbn [or_raise negb].
  rewrite read_app. cbn [or_raise]. rewrite Hts.
  unfold utime, write_file, open_wb. rewrite lookup_insert_eq.
  cbn [or_raise content]. now rewrite !insert_insert_eq.
Qed.

(** An entry whose name is taken ends the run before anything is written. *)
Lemma restore_ess_exists (st : restore_state) (raw rest : list byte)
    (name : string) (f : file) :
  decompressor st = wstring_bytes raw ++ rest -> len raw < 2 ^ 16 ->
  utf8_decode raw = Some name ->
  directory st !! name = Some f ->
  restore_ess lz4_block_compress lz4_block_decompress utf8_decode path_stem st
  = Raised DestinationExists (directory st).
Proof.
  intros Hin Hraw Hname Hf. unfold restore_ess.
  rewrite Hin, read_wstring_app by assumption. cbn [or_raise].
  now rewrite Hname, (path_exists_true _ _ _ Hf).
Qed.

Lemma restore_skse_exists (st : restore_state) (raw rest : list byte)
    (name : string) (f : file) :
  decompressor st = wstring_bytes raw ++ rest -> len raw < 2 ^ 16 ->
  utf8_decode raw = Some name ->
  directory st !! name = Some f ->
  restore_skse utf8_decode path_stem st
  = Raised DestinationExists (directory st).
Proof.
  intros Hin Hraw Hname Hf. unfold restore_skse.
  rewrite Hin, read_wstring_app by assumption. cbn [or_raise].
  now rewrite Hname, (path_exists_true _ _ _ Hf).
Qed.


(** ** Nothing that exists is overwritten *)

Lemma path_exists_false_inv (d : gmap string file) (name : string) :
  path_exists d name = false -> d !! name = None.
Proof.
  unfold path_exists. intros H%bool_decide_eq_false.
  now apply eq_None_not_Some.
Qed.

Lemma insert_twice_subseteq (d : gmap string file) (name : string)
    (x y : file) :
  d !! name = None -> d ⊆ <[name := x]> (<[name := y]> d).
Proof.
  intros H. rewrite insert_insert_eq. now apply insert_subseteq.
Qed.

Lemma restore_ess_keeps (st : restore_state) :
  directory st
  ⊆ final_directory
      (restore_ess lz4_block_compress lz4_block_decompress utf8_decode
         path_stem st).
Proof.
  unfold restore_ess.
  destruct (read_wstring _) as [[raw f1]|e]; cbn [or_raise final_directory];
    [|reflexivity].
  destruct (utf8_decode raw) as [name|]; [|reflexivity].
  destruct (path_exists _ name) eqn:Hex; [reflexivity|].
  apply path_exists_false_inv in Hex.
  destruct (read_uint32 f1) as [[filesize f2]|e];
    cbn [or_raise final_directory]; [|reflexivity].
  unfold read. cbn [or_raise].
  destruct (decode _) as [ess|e]; cbn [or_raise final_directory negb];
    [|reflexivity].
  destruct (encodeCompressed ess) as [data|e];
    cbn [or_raise final_directory].
  - unfold utime, write_file, open_wb. rewrite lookup_insert_eq.
    cbn [or_raise final_directory directory content].
    rewrite insert_insert_eq. now apply insert_twice_subseteq.
  - unfold open_wb. now apply insert_subseteq.
Qed.

Lemma restore_skse_keeps (st : restore_state) :
  directory st ⊆ final_directory (restore_skse utf8_decode path_stem st).
Proof.
  unfold restore_skse.
  destruct (read_wstring _) as [[raw f1]|e]; cbn [or_raise final_directory];
    [|reflexivity].
  destruct (utf8_decode raw) as [name|]; [|reflexivity].
  destruct (path_exists _ name) eqn:Hex; [reflexivity|].
  apply path_exists_false_inv in Hex.
  destruct (read_uint32 f1) as [[filesize f2]|e];
    cbn [or_raise final_directory negb]; [|reflexivity].
  unfold read. cbn [or_raise].
  destruct (stem_to_posix_timestamp st !! path_stem name) as [ts|];
    cbn [final_directory].
  - unfold utime, write_file, open_wb. rewrite lookup_insert_eq.
    cbn [or_raise final_directory directory content].
    rewrite insert_insert_eq. now apply insert_twice_subseteq.
  - unfold write_file, open_wb. now apply insert_twice_subseteq.
Qed.

Lemma repeat_body_keeps (body : restore_state -> outcome) (n : nat)
    (st : restore_state) :
  (forall st0, directory st0 ⊆ final_directory (body st0)) ->
  directory st ⊆ final_directory (repeat_body n body st).
Proof.
  intros Hbody. revert st. induction n as [|n IH]; intros st;
    cbn [repeat_body]; [reflexivity|].
  pose proof (Hbody st) as H.
  destruct (body st) as [st'|e d]; cbn [final_directory] in *.
  - etransitivity; [exact H|apply IH].
  - exact H.
Qed.

Lemma decompress_files_keeps (archive : list byte)
    (output_directory : gmap string file) :
  output_directory
  ⊆ final_directory
      (decompress_files lz4_block_compress lz4_block_decompress
         zstd_stream_reader utf8_decode path_stem archive output_directory).
Proof.
  unfold decompress_files.
  destruct (read_uint32 _) as [[n1 f1]|e]; cbn [or_raise final_directory];
    [|reflexivity].
  destruct (read_uint32 f1) as [[n2 f2]|e]; cbn [or_raise final_directory];
    [|reflexivity].
  match goal with
  | |- _ ⊆ final_directory
             match repeat_body ?n ?body ?st with _ => _ end =>
      pose proof (repeat_body_keeps body n st restore_ess_keeps) as H1;
      destruct (repeat_body n body st) as [st'|e d]
  end; cbn [final_directory directory] in *; [|exact H1].
  etransitivity; [exact H1|].
  apply repeat_body_keeps, restore_skse_keeps.
Qed.


Lemma repeat_body_raise (body : restore_state -> outcome) (k m : nat)
    (st st_k : restore_state) (e : error) (d : gmap string file) :
  repeat_body k body st = Done st_k -> body st_k = Raised e d ->
  repeat_body (k + S m) body st = Raised e d.
Proof.
  revert st. induction k as [|k IH]; intros st; cbn [repeat_body plus].
  - intros [= ->] ->. reflexivity.
  - destruct (body st) as [st'|e' d']; [|discriminate]. apply IH.
Qed.

(** C7. An entry, save or sidecar, whose name exists in the output
    directory ends the run with an already-exists error and leaves the
    directory as it was when the entry was reached; the run ends there;
    every file that is in the directory at some point of either loop, among
    them the entries restored so far, is there with its contents and its
    time when the loop ends; and so is, when the run ends, every file that
    was in the directory before it. *)
Theorem C7_no_overwrite :
  (forall st raw rest name f,
     decompressor st = wstring_bytes raw ++ rest -> len raw < 2 ^ 16 ->
     utf8_decode raw = Some name -> directory st !! name = Some f ->
     restore_ess lz4_block_compress lz4_block_decompress utf8_decode
       path_stem st = Raised DestinationExists (directory st)
     /\ restore_skse utf8_decode path_stem st
        = Raised DestinationExists (directory st)
     /\ kind_of DestinationExists = AlreadyExists)
  /\ (forall body k m st st_k e d,
        repeat_body k body st = Done st_k -> body st_k = Raised e d ->
        repeat_body (k + S m) body st = Raised e d)
  /\ (forall n st name f,
        directory st !! name = Some f ->
        final_directory
          (repeat_body n
             (restore_ess lz4_block_compress lz4_block_decompress
                utf8_decode path_stem) st) !! name = Some f
        /\ final_directory
             (repeat_body n (restore_skse utf8_decode path_stem) st)
           !! name = Some f)
  /\ (forall archive output_directory name f,
        output_directory !! name = Some f ->
        final_directory
          (decompress_files lz4_block_compress lz4_block_decompress
             zstd_stream_reader utf8_decode path_stem archive
             output_directory) !! name = Some f).
Proof.
  split; [|split; [|split]].
  - intros st raw rest name f Hin Hraw Hname Hf.
    split; [now apply (restore_ess_exists st raw rest name f)|].
    split; [now apply (restore_skse_exists st raw rest name f)|reflexivity].
  - intros body k m st st_k e d. apply repeat_body_raise.
  - intros n st name f Hf. split.
    + eapply lookup_weaken; [exact Hf|].
      apply repeat_body_keeps, restore_ess_keeps.
    + eapply lookup_weaken; [exact Hf|].
      apply repeat_body_keeps, restore_skse_keeps.
  - intros archive output_directory name f Hf.
    eapply lookup_weaken; [exact Hf|apply decompress_files_keeps].
Qed.

(** ** Packing, then restoring *)

Lemma foldl_insert_notin {A V} (key : A -> string) (val : A -> V)
    (l : list A) (d : gmap string V) (n : string) :
  n ∉ map key l ->
  foldl (fun d x => <[key x := val x]> d) d l !! n = d !! n.
Proof.
  revert d. induction l as [|x l IH]; intros d Hn; cbn [foldl];
    [reflexivity|].
  cbn [map] in Hn. apply not_elem_of_cons in Hn as [Hx Hl].
  rewrite IH by assumption. now rewrite lookup_insert_ne.
Qed.

Lemma foldl_insert_in {A V} (key : A -> string) (val : A -> V)
    (l : list A) (d : gmap string V) (x : A) :
  NoDup (map key l) -> x ∈ l ->
  foldl (fun d x => <[key x := val x]> d) d l !! key x = Some (val x).
Proof.
  revert d. induction l as [|y l IH]; intros d Hnd Hx; cbn [foldl].
  - now apply elem_of_nil in Hx.
  - cbn [map] in Hnd. apply NoDup_cons in Hnd as [Hy Hnd].
    apply elem_of_cons in Hx as [->|Hx].
    + rewrite foldl_insert_notin by assumption. apply lookup_insert_eq.
    + now apply IH.
Qed.

(** The last insertion under a key wins; some element of the list put
    the value there. *)
Lemma foldl_insert_some {A V} (key : A -> string) (val : A -> V)
    (l : list A) (d : gmap string V) (k : string) :
  k ∈ map key l ->
  exists y, y ∈ l /\ key y = k
            /\ foldl (fun d x => <[key x := val x]> d) d l !! k
               = Some (val y).
Proof.
  revert d. induction l as [|z l IH]; intros d Hk; cbn [foldl].
  - now apply elem_of_nil in Hk.
  - destruct (decide (k ∈ map key l)) as [Hin|Hout].
    + destruct (IH (<[key z := val z]> d) Hin) as (y & Hy & Hky & Hl).
      exists y. split; [now right|]. now split.
    + cbn [map] in Hk. apply elem_of_cons in Hk as [->|Hk];
        [|contradiction].
      exists z. split; [now left|]. split; [reflexivity|].
      rewrite foldl_insert_notin by assumption. apply lookup_insert_eq.
Qed.

Hypothesis utf8_roundtrip :
  forall name, utf8_decode (utf8_encode name) = Some name.

Lemma restore_state_eta (st : restore_state) :
  st = {| decompressor := decompressor st; directory := directory st;
          stem_to_posix_timestamp := stem_to_posix_timestamp st |}.
Proof. now destruct st. Qed.

(** The first loop, over the entries that packing wrote for the save files
    and their records. *)
Lemma restore_ess_loop (entries : list ((string * list byte) * ESS))
    (st : restore_state) (rest : list byte) :
  Forall (fun e => packed_ok (fst e) (snd e)
                   /\ exists data, encodeCompressed (snd e) = Ok data)
         entries ->
  decompressor st
  = concat (map (fun e => ess_entry (fst e) (snd e)) entries) ++ rest ->
  NoDup (map (fun e => fst (fst e)) entries) ->
  (forall e, e ∈ entries -> directory st !! fst (fst e) = None) ->
  repeat_body (length entries)
    (restore_ess lz4_block_compress lz4_block_decompress utf8_decode
       path_stem) st
  = Done {| decompressor := rest;
            directory :=
              foldl (fun d e =>
                       <[fst (fst e) := restored_file lz4_block_compress (snd e)]> d)
                    (directory st) entries;
            stem_to_posix_timestamp :=
              foldl (fun t e =>
                       <[path_stem (fst (fst e))
                         := get_filetime_as_posix_seconds (snd e)]> t)
                    (stem_to_posix_timestamp st) entries |}.
Proof.
  revert st. induction entries as [|[[name data0] r] es IH];
    intros st Hall Hin Hnd Hfree.
  - cbn in *. rewrite (restore_state_eta st) at 1. now rewrite Hin.
  - apply Forall_cons in Hall as [[(Hd & Hn & Hs) [data Hc]] Hall].
    cbn [fst snd] in Hd, Hn, Hs, Hc.
    cbn [map] in Hnd. apply NoDup_cons in Hnd as [Hname Hnd].
    cbn [fst] in Hname.
    destruct (decode_stored_bytes lz4_block_decompress _ _ Hd)
      as (_ & _ & Hds).
    cbn [map concat fst snd] in Hin. rewrite <- app_assoc in Hin.
    cbn [length repeat_body].
    rewrite (restore_ess_step st (utf8_encode name) (stored_bytes r) _ name
               (with_payload r 0 (screenshotData r) None (uncompressedBlob r))
               data Hin Hn Hs (utf8_roundtrip name)
               (Hfree _ (list_elem_of_here _ _)) Hds Hc).
    rewrite IH; cbn [decompressor directory stem_to_posix_timestamp].
    + assert (restored_file lz4_block_compress r
              = {| content := data;
                   mtime := Some (get_filetime_as_posix_seconds r) |}) as Hrf
        by (unfold restored_file; now rewrite Hc).
      cbn [foldl fst snd]. now rewrite Hrf.
    + exact Hall.
    + reflexivity.
    + exact Hnd.
    + intros e He. rewrite lookup_insert_ne.
      * apply Hfree. now right.
      * intros ->. apply Hname. apply list_elem_of_fmap. now exists e.
Qed.

(** The second loop, over the entries of the sidecar files. *)
Lemma restore_skse_loop (files : list (string * list byte))
    (st : restore_state) (rest : list byte) :
  Forall (fun file => len (utf8_encode (fst file)) < 2 ^ 16
                      /\ len (snd file) < 2 ^ 32) files ->
  decompressor st = concat (map skse_entry files) ++ rest ->
  NoDup (map fst files) ->
  (forall file, file ∈ files -> directory st !! fst file = None) ->
  (forall file, file ∈ files ->
     is_Some (stem_to_posix_timestamp st !! path_stem (fst file))) ->
  repeat_body (length files) (restore_skse utf8_decode path_stem) st
  = Done {| decompressor := rest;
            directory :=
              foldl (fun d file =>
                       <[fst file
                         := {| content := snd file;
                               mtime := stem_to_posix_timestamp st
                                          !! path_stem (fst file) |}]> d)
                    (directory st) files;
            stem_to_posix_timestamp := stem_to_posix_timestamp st |}.
Proof.
  revert st. induction files as [|[name data] files IH];
    intros st Hall Hin Hnd Hfree Hts.
  - cbn in *. rewrite (restore_state_eta st) at 1. now rewrite Hin.
  - apply Forall_cons in Hall as [[Hn Hs] Hall]. cbn [fst snd] in Hn, Hs.
    cbn [map] in Hnd. apply NoDup_cons in Hnd as [Hname Hnd].
    cbn [fst] in Hname.
    destruct (Hts _ (list_elem_of_here _ _)) as [ts Hlook].
    cbn [fst] in Hlook.
    cbn [map concat fst snd] in Hin. rewrite <- app_assoc in Hin.
    cbn [length repeat_body].
    rewrite (restore_skse_step st (utf8_encode name) data _ name ts
               Hin Hn Hs (utf8_roundtrip name)
               (Hfree _ (list_elem_of_here _ _)) Hlook).
    rewrite IH; cbn [decompressor directory stem_to_posix_timestamp].
    + cbn [foldl fst snd]. now rewrite Hlook.
    + exact Hall.
    + reflexivity.
    + exact Hnd.
    + intros file Hf. rewrite lookup_insert_ne.
      * apply Hfree. now right.
      * intros ->. apply Hname. apply list_elem_of_fmap. now exists file.
    + intros file Hf. apply Hts. now right.
Qed.

Hypothesis zstd_roundtrip :
  forall compression_level threads written,
    zstd_stream_reader (zstd_stream_writer compression_level threads written)
    = written.

(** The whole restore pass on an archive that holds the given entries. *)
Lemma decompress_packed (entries : list ((string * list byte) * ESS))
    (skse_files : list (string * list byte)) (compression_level threads : Z)
    (output_directory : gmap string file) :
  Forall (fun e => packed_ok (fst e) (snd e)
                   /\ exists data, encodeCompressed (snd e) = Ok data)
         entries ->
  Forall (fun file => len (utf8_encode (fst file)) < 2 ^ 16
                      /\ len (snd file) < 2 ^ 32) skse_files ->
  Z.of_nat (length entries) < 2 ^ 32 ->
  Z.of_nat (length skse_files) < 2 ^ 32 ->
  NoDup (map (fun e => fst (fst e)) entries ++ map fst skse_files) ->
  (forall name,
     name ∈ map (fun e => fst (fst e)) entries ++ map fst skse_files ->
     output_directory !! name = None) ->
  (forall name, name ∈ map fst skse_files ->
     path_stem name ∈ map (fun e => path_stem (fst (fst e))) entries) ->
  decompress_files lz4_block_compress lz4_block_decompress
    zstd_stream_reader utf8_decode path_stem
    (zstd_stream_writer compression_level threads
       (le_bytes 4 (Z.of_nat (length entries))
          ++ le_bytes 4 (Z.of_nat (length skse_files))
          ++ concat (map (fun e => ess_entry (fst e) (snd e)) entries)
          ++ concat (map skse_entry skse_files)))
    output_directory
  = Done
      {| decompressor := [];
         directory :=
           foldl (fun d file =>
                    <[fst file
                      := {| content := snd file;
                            mtime :=
                              foldl (fun t e =>
                                       <[path_stem (fst (fst e))
                                         := get_filetime_as_posix_seconds
                                              (snd e)]> t)
                                    (∅ : gmap string Z) entries
                                !! path_stem (fst file) |}]> d)
                 (foldl (fun d e =>
                           <[fst (fst e)
                             := restored_file lz4_block_compress (snd e)]> d)
                        output_directory entries)
                 skse_files;
         stem_to_posix_timestamp :=
           foldl (fun t e =>
                    <[path_stem (fst (fst e))
                      := get_filetime_as_posix_seconds (snd e)]> t)
                 (∅ : gmap string Z) entries |}.
Proof.
  intros Hes Hss Hn1 Hn2 Hnd Hfree Hstems.
  apply NoDup_app in Hnd as (Hnd1 & Hdisj & Hnd2).
  unfold decompress_files. rewrite zstd_roundtrip.
  rewrite read_uint32_app by lia. cbn [or_raise].
  rewrite read_uint32_app by lia. cbn [or_raise].
  rewrite !Nat2Z.id.
  rewrite (restore_ess_loop entries _ (concat (map skse_entry skse_files)));
    cbn [decompressor directory stem_to_posix_timestamp];
    [|exact Hes|reflexivity|exact Hnd1|].
  2:{ intros e He. apply Hfree, elem_of_app. left.
      apply list_elem_of_fmap. now exists e. }
  rewrite (restore_skse_loop skse_files _ []);
    cbn [decompressor directory stem_to_posix_timestamp];
    [reflexivity|exact Hss|now rewrite app_nil_r|exact Hnd2| |].
  - intros file Hf.
    assert (fst file ∈ map fst skse_files) as Hin
      by (apply list_elem_of_fmap; now exists file).
    rewrite foldl_insert_notin.
    + apply Hfree, elem_of_app. now right.
    + intros Hin'. exact (Hdisj _ Hin' Hin).
  - intros file Hf.
    assert (fst file ∈ map fst skse_files) as Hin
      by (apply list_elem_of_fmap; now exists file).
    destruct (foldl_insert_some
                (fun e : (string * list byte) * ESS => path_stem (fst (fst e)))
                (fun e => get_filetime_as_posix_seconds (snd e))
                entries (∅ : gmap string Z) _ (Hstems _ Hin)) as (y & _ & _ & Hl).
    rewrite Hl. eauto.
Qed.

Lemma Forall2_zip {A B} (P : A -> B -> Prop) (l : list A) (k : list B) :
  Forall2 P l k -> Forall (fun e => P (fst e) (snd e)) (zip l k).
Proof. induction 1; cbn; constructor; assumption. Qed.

Lemma zip_with_as_map {A B C} (P : A -> B -> Prop) (f : A -> B -> C)
    (l : list A) (k : list B) :
  Forall2 P l k -> zip_with f l k = map (fun e => f (fst e) (snd e)) (zip l k).
Proof. induction 1; cbn; [reflexivity|]. now f_equal. Qed.

Lemma zip_firsts {A B C} (P : A -> B -> Prop) (f : A -> C)
    (l : list A) (k : list B) :
  Forall2 P l k -> map (fun e => f (fst e)) (zip l k) = map f l.
Proof. induction 1; cbn; [reflexivity|]. now f_equal. Qed.

(** C2. Packing save files that decode and sidecar files, under distinct
    names that the output directory does not have, each sidecar sharing its
    stem with a save, and restoring the archive: the decompressed stream is
    the two counts followed by one entry per file, in order, each entry the
    length-prefixed name, the length of the payload and the payload, the
    payload of a save being its stored serialisation; the run completes and
    consumes the stream; every sidecar comes back under its name with its
    bytes; every save comes back under its name as the compressed
    serialisation of its record; no other name is touched. *)
Theorem C2_pack_then_restore (ess_files skse_files : list (string * list byte))
    (compression_level threads : Z) (archive : list byte)
    (output_directory : gmap string file) :
  compress_files lz4_block_decompress zstd_stream_writer utf8_encode
    ess_files skse_files compression_level threads = Ok archive ->
  NoDup (map fst ess_files ++ map fst skse_files) ->
  (forall name, name ∈ map fst ess_files ++ map fst skse_files ->
     output_directory !! name = None) ->
  (forall name, name ∈ map fst skse_files ->
     path_stem name ∈ map (fun file => path_stem (fst file)) ess_files) ->
  (forall file r, file ∈ ess_files -> decode (snd file) = Ok r ->
     exists data, encodeCompressed r = Ok data) ->
  exists records st,
    Forall2 (fun file r => decode (snd file) = Ok r) ess_files records
    /\ archive
       = zstd_stream_writer compression_level threads
           (le_bytes 4 (Z.of_nat (length ess_files))
              ++ le_bytes 4 (Z.of_nat (length skse_files))
              ++ concat (zip_with ess_entry ess_files records)
              ++ concat (map skse_entry skse_files))
    /\ decompress_files lz4_block_compress lz4_block_decompress
         zstd_stream_reader utf8_decode path_stem archive output_directory
       = Done st
    /\ decompressor st = []
    /\ (forall i file r,
          ess_files !! i = Some file -> records !! i = Some r ->
          exists data,
            encodeCompressed r = Ok data
            /\ directory st !! fst file
               = Some {| content := data;
                         mtime := Some (get_filetime_as_posix_seconds r) |})
    /\ (forall file, file ∈ skse_files ->
          exists i file' r',
            ess_files !! i = Some file' /\ records !! i = Some r'
            /\ path_stem (fst file') = path_stem (fst file)
            /\ directory st !! fst file
               = Some {| content := snd file;
                         mtime := Some (get_filetime_as_posix_seconds r') |})
    /\ (forall name, name ∉ map fst ess_files ++ map fst skse_files ->
          directory st !! name = output_directory !! name).
Proof.
  intros Hc Hnd Hfree Hstems Hcomp.
  unfold compress_files in Hc.
  destruct (compress_stream _ _ _ _) as [stream|] eqn:Hs; [|discriminate].
  cbn [res_map] in Hc. apply Ok_inj in Hc. subst archive.
  apply compress_stream_inv in Hs as (Hn1 & Hn2 & Hss & records & Hrs & ->).
  set (entries := zip ess_files records).
  assert (Forall (fun e => packed_ok (fst e) (snd e)
                           /\ exists data, encodeCompressed (snd e) = Ok data)
                 entries) as Hes.
  { apply Forall_forall. intros [file r] He.
    pose proof (Forall2_zip _ _ _ Hrs) as Hz.
    rewrite Forall_forall in Hz. specialize (Hz _ He). cbn [fst snd] in *.
    split; [exact Hz|]. apply (Hcomp file); [|apply Hz].
    apply elem_of_zip_l in He. exact He. }
  assert (map (fun e : (string * list byte) * ESS => fst (fst e)) entries
          = map fst ess_files) as Hnames
    by apply (zip_firsts _ fst _ _ Hrs).
  assert (length entries = length ess_files) as Hlen.
  { unfold entries. rewrite length_zip.
    apply Forall2_length in Hrs. lia. }
  pose proof Hnd as Hnd'. apply NoDup_app in Hnd' as (Hnd1 & Hdisj & Hnd2).
  exists records. eexists. split.
  { eapply Forall2_impl; [exact Hrs|]. now intros file r (Hd & _). }
  split; [reflexivity|].
  rewrite (zip_with_as_map _ _ _ _ Hrs). fold entries.
  rewrite <- Hlen.
  rewrite (decompress_packed entries skse_files compression_level threads
             output_directory Hes Hss).
  2:{ lia. }
  2:{ exact Hn2. }
  2:{ now rewrite Hnames. }
  2:{ now rewrite Hnames. }
  2:{ intros name Hn. unfold entries.
      rewrite (zip_firsts _ (fun file => path_stem (fst file)) _ _ Hrs).
      now apply Hstems. }
  split; [reflexivity|]. cbn [decompressor directory]. split; [reflexivity|].
  split; [|split].
  - intros i file r Hi Hr.
    assert ((file, r) ∈ entries) as He.
    { apply list_elem_of_lookup. exists i. unfold entries.
      rewrite lookup_zip_with, Hi, Hr. reflexivity. }
    rewrite Forall_forall in Hes.
    destruct (Hes _ He) as (_ & data & Hdata). cbn [snd] in Hdata.
    exists data. split; [exact Hdata|].
    rewrite foldl_insert_notin.
    + pose proof (foldl_insert_in
                    (fun e : (string * list byte) * ESS => fst (fst e))
                    (fun e => restored_file lz4_block_compress (snd e))
                    entries output_directory (file, r)) as Hl.
      cbn [fst snd] in Hl. rewrite Hl; [| |exact He].
      * unfold restored_file. now rewrite Hdata.
      * now rewrite Hnames.
    + apply Hdisj. apply list_elem_of_fmap. exists file.
      split; [reflexivity|]. now apply list_elem_of_lookup_2 in Hi.
  - intros file Hf.
    assert (fst file ∈ map fst skse_files) as Hin
      by (apply list_elem_of_fmap; now exists file).
    assert (path_stem (fst file)
            ∈ map (fun e : (string * list byte) * ESS =>
                     path_stem (fst (fst e))) entries) as Hst.
    { unfold entries.
      rewrite (zip_firsts _ (fun file => path_stem (fst file)) _ _ Hrs).
      now apply Hstems. }
    destruct (foldl_insert_some
                (fun e : (string * list byte) * ESS => path_stem (fst (fst e)))
                (fun e => get_filetime_as_posix_seconds (snd e))
                entries (∅ : gmap string Z) _ Hst)
      as ([file' r'] & Hy & Hk & Hl).
    apply list_elem_of_lookup in Hy as [i Hi]. unfold entries in Hi.
    rewrite lookup_zip_with in Hi.
    destruct (ess_files !! i) as [file0|] eqn:H1; [|discriminate].
    destruct (records !! i) as [r0|] eqn:H2; [|discriminate].
    cbn in Hi. injection Hi as -> ->.
    exists i, file', r'. split; [exact H1|]. split; [exact H2|].
    split; [exact Hk|].
    rewrite (foldl_insert_in fst
               (fun file : string * list byte =>
                  {| content := snd file;
                     mtime := foldl (fun t e =>
                                       <[path_stem (fst (fst e))
                                         := get_filetime_as_posix_seconds
                                              (snd e)]> t)
                                    (∅ : gmap string Z) entries
                                !! path_stem (fst file) |})
               skse_files _ file Hnd2 Hf).
    now rewrite Hl.
  - intros name Hn. apply not_elem_of_app in Hn as [Hn1' Hn2'].
    rewrite foldl_insert_notin by assumption.
    apply foldl_insert_notin. now rewrite Hnames.
Qed.

End Pack.

(** ** The archive theorems on the sample files *)

Lemma ascii_roundtrip (name : string) :
  ascii_decode (ascii_encode name) = Some name.
Proof.
  unfold ascii_decode, ascii_encode.
  now rewrite String.string_of_list_byte_of_string.
Qed.

Lemma plain_roundtrip (compression_level threads : Z) (written : list byte) :
  plain_reader (plain_writer compression_level threads written) = written.
Proof. reflexivity. Qed.

Lemma sample_archive_packed :
  compress_files stored_decompress plain_writer ascii_encode
    sample_ess_files sample_skse_files 3 1 = Ok sample_archive.
Proof. vm_compute. reflexivity. Qed.

(** Restoring the sample archive into an empty directory. *)
Example sample_restored :
  match decompress_files stored_compress stored_decompress plain_reader
          ascii_decode simple_stem sample_archive ∅ with
  | Done st =>
      decompressor st = []
      /\ directory st !! "Save1_Hero.ess"%string
         = Some {| content := sample_compressed; mtime := Some 1655526400 |}
      /\ directory st !! "Save1_Hero.skse"%string
         = Some {| content := [x07; x08]; mtime := Some 1655526400 |}
  | Raised _ _ => False
  end.
Proof. vm_compute. repeat split. Qed.

(** The save comes back in the compressed representation: its bytes are
    not those of the file that was packed. *)
Lemma C2_restored_save_differs :
  compress_files stored_decompress plain_writer ascii_encode
    sample_ess_files sample_skse_files 3 1 = Ok sample_archive
  /\ final_directory
       (decompress_files stored_compress stored_decompress plain_reader
          ascii_decode simple_stem sample_archive ∅)
     !! "Save1_Hero.ess"%string
     = Some {| content := sample_compressed; mtime := Some 1655526400 |}
  /\ sample_compressed <> sample_stored
  /\ nth 63 sample_stored x00 = x00
  /\ nth 63 sample_compressed x00 = x02.
Proof.
  split; [exact sample_archive_packed|].
  split; [vm_compute; reflexivity|].
  split; [vm_compute; discriminate|].
  split; reflexivity.
Qed.

(** The sample save and its sidecar, packed and restored. *)
Lemma C2_pack_then_restore_witness :
  exists st,
    decompress_files stored_compress stored_decompress plain_reader
      ascii_decode simple_stem sample_archive ∅ = Done st
    /\ decompressor st = []
    /\ (exists data,
          get_compressed stored_compress sample_ess = Ok data
          /\ directory st !! "Save1_Hero.ess"%string
             = Some {| content := data;
                       mtime := Some (get_filetime_as_posix_seconds
                                        sample_ess) |})
    /\ exists ts,
         directory st !! "Save1_Hero.skse"%string
         = Some {| content := [x07; x08]; mtime := Some ts |}.
Proof.
  destruct (C2_pack_then_restore stored_compress stored_decompress
              plain_writer plain_reader ascii_encode ascii_decode simple_stem
              ascii_roundtrip plain_roundtrip
              sample_ess_files sample_skse_files 3 1 sample_archive ∅
              sample_archive_packed)
    as (records & st & Hrs & _ & Hrun & Hend & Hess & Hskse & _).
  - apply (bool_decide_unpack _). vm_compute. exact I.
  - intros name _. apply lookup_empty.
  - intros name Hn. apply list_elem_of_singleton in Hn as ->.
    apply list_elem_of_singleton. reflexivity.
  - intros file r Hf Hd. apply list_elem_of_singleton in Hf as ->.
    cbn [snd] in Hd.
    assert (r = sample_ess) as ->
      by (vm_compute in Hd; injection Hd as <-; reflexivity).
    eexists. vm_compute. reflexivity.
  - exists st. split; [exact Hrun|]. split; [exact Hend|]. split.
    + apply Forall2_cons_inv_l in Hrs as (r & rs & Hd & _ & ->).
      cbn [snd] in Hd.
      assert (r = sample_ess) as ->
      by (vm_compute in Hd; injection Hd as <-; reflexivity).
      exact (Hess 0%nat _ _ eq_refl eq_refl).
    + destruct (Hskse ("Save1_Hero.skse"%string, [x07; x08]))
        as (i & file' & r' & _ & _ & _ & Hl);
        [apply list_elem_of_here|].
      eexists. exact Hl.
Defined.

(** Restoring over a sidecar that is already there. *)
Lemma C7_no_overwrite_witness :
  decompress_files stored_compress stored_decompress plain_reader
    ascii_decode simple_stem sample_archive
    {[ "Save1_Hero.skse"%string := {| content := [x09]; mtime := None |} ]}
  = Raised DestinationExists
      (final_directory
         (decompress_files stored_compress stored_decompress plain_reader
            ascii_decode simple_stem sample_archive
            {[ "Save1_Hero.skse"%string
               := {| content := [x09]; mtime := None |} ]}))
  /\ final_directory
       (decompress_files stored_compress stored_decompress plain_reader
          ascii_decode simple_stem sample_archive
          {[ "Save1_Hero.skse"%string
             := {| content := [x09]; mtime := None |} ]})
     !! "Save1_Hero.skse"%string
     = Some {| content := [x09]; mtime := None |}.
Proof.
  split.
  - vm_compute. reflexivity.
  - apply (proj2 (proj2 (proj2 (C7_no_overwrite stored_compress
                                  stored_decompress plain_reader
                                  ascii_decode simple_stem)))).
    apply lookup_singleton_eq.
Defined.

(** A sidecar whose stem no save of the archive has is written, and the
    run then ends on the stem table. *)
Example sidecar_without_save :
  match compress_files stored_decompress plain_writer ascii_encode
          [] [("Save2_Hero.skse"%string, [x07])] 3 1 with
  | Ok archive =>
      decompress_files stored_compress stored_decompress plain_reader
        ascii_decode simple_stem archive ∅
      = Raised (KeyError "Save2_Hero")
          {[ "Save2_Hero.skse"%string
             := {| content := [x07]; mtime := None |} ]}
  | Err _ => False
  end.
Proof. vm_compute. reflexivity. Qed.

(** With no save and an empty sidecar, the ratio that the progress bar
    shows divides by zero. *)
Example empty_sidecar_alone :
  compress_files stored_decompress plain_writer ascii_encode
    [] [("Save2_Hero.skse"%string, [])] 3 1 = Err ZeroDivisionError.
Proof. vm_compute. reflexivity. Qed.

(** No file at all: the archive holds the two counts, and restoring it
    leaves the directory as it is. *)
Example empty_archive :
  compress_stream stored_decompress ascii_encode [] []
  = Ok (le_bytes 4 0 ++ le_bytes 4 0)
  /\ match compress_files stored_decompress plain_writer ascii_encode
             [] [] 3 1 with
     | Ok archive =>
         decompress_files stored_compress stored_decompress plain_reader
           ascii_decode simple_stem archive ∅
         = Done {| decompressor := []; directory := ∅;
                   stem_to_posix_timestamp := ∅ |}
     | Err _ => False
     end.
Proof. split; vm_compute; reflexivity. Qed.

(** With the stand-in codec, the compressed serialisation of the record
    read from the save cut before its screenshot does not decode. *)
Example cut_before_shot_reencoded :
  res_bind (get_compressed stored_compress one_pixel_ess)
           (ESS_init stored_decompress)
  = Err (NotEnoughData U32).
Proof. vm_compute. reflexivity. Qed.

(** The sample save cut inside its first experience blob. *)
Lemma decode_cut_in_exp_witness :
  ESS_init stored_decompress cut_in_exp = Err (NotEnoughData U64).
Proof.
  apply (decode_cut_in_exp stored_decompress sample_ess [x00; x00]
           sample_header_ok).
  reflexivity.
Defined.

(** * Further properties *)

(** ** Packing and reading integers *)

Lemma pack_uint8_ok (v : Z) :
  0 <= v < 2 ^ 8 -> pack_uint8 v = Ok (le_bytes 1 v).
Proof.
  intros H. unfold pack_uint8.
  destruct (Z.leb_spec 0 v); [|lia]. destruct (Z.ltb_spec v (2 ^ 8)); [|lia].
  reflexivity.
Qed.

Lemma pack_out_of_range (v bound : Z) :
  ~ 0 <= v < bound -> (0 <=? v) && (v <? bound) = false.
Proof.
  intros H. destruct (Z.leb_spec 0 v); [|reflexivity].
  destruct (Z.ltb_spec v bound); [lia|reflexivity].
Qed.

(** X3. Each packer accepts exactly the values of its width and writes
    that many bytes, which the reader of the same width reads back as the
    value, leaving the rest of the stream; any other value is a
    [struct.error]. *)
Theorem pack_then_read (v : Z) (rest : list byte) :
  (0 <= v < 2 ^ 8 ->
     exists bs, pack_uint8 v = Ok bs /\ len bs = 1
                /\ read_uint8 (bs ++ rest) = Ok (v, rest))
  /\ (0 <= v < 2 ^ 16 ->
        exists bs, pack_uint16 v = Ok bs /\ len bs = 2
                   /\ read_uint16 (bs ++ rest) = Ok (v, rest))
  /\ (0 <= v < 2 ^ 32 ->
        exists bs, pack_uint32 v = Ok bs /\ len bs = 4
                   /\ read_uint32 (bs ++ rest) = Ok (v, rest))
  /\ (0 <= v < 2 ^ 64 ->
        exists bs, pack_uint64 v = Ok bs /\ len bs = 8
                   /\ read_uint64 (bs ++ rest) = Ok (v, rest))
  /\ (~ 0 <= v < 2 ^ 8 -> pack_uint8 v = Err StructError)
  /\ (~ 0 <= v < 2 ^ 16 -> pack_uint16 v = Err StructError)
  /\ (~ 0 <= v < 2 ^ 32 -> pack_uint32 v = Err StructError)
  /\ (~ 0 <= v < 2 ^ 64 -> pack_uint64 v = Err StructError).
Proof.
  repeat split.
  - intros H. exists (le_bytes 1 v). split; [now apply pack_uint8_ok|].
    split; [reflexivity|]. exact (fixed_read_app 1 U8 v rest H).
  - intros H. exists (le_bytes 2 v). split; [now apply pack_uint16_ok|].
    split; [reflexivity|]. now apply read_uint16_app.
  - intros H. exists (le_bytes 4 v). split; [now apply pack_uint32_ok|].
    split; [reflexivity|]. now apply read_uint32_app.
  - intros H. exists (le_bytes 8 v). split; [now apply pack_uint64_ok|].
    split; [reflexivity|]. now apply read_uint64_app.
  - intros H. unfold pack_uint8. now rewrite pack_out_of_range.
  - intros H. unfold pack_uint16. now rewrite pack_out_of_range.
  - intros H. unfold pack_uint32. now rewrite pack_out_of_range.
  - intros H. unfold pack_uint64. now rewrite pack_out_of_range.
Qed.

(** X4. What a reader returns packs back to the bytes that it consumed:
    a successful read splits the stream into the packed value and the
    stream that it leaves. *)
Theorem read_then_pack (f : list byte) (v : Z) (f' : list byte) :
  (read_uint8 f = Ok (v, f') ->
     exists bs, pack_uint8 v = Ok bs /\ f = bs ++ f')
  /\ (read_uint16 f = Ok (v, f') ->
        exists bs, pack_uint16 v = Ok bs /\ f = bs ++ f')
  /\ (read_uint32 f = Ok (v, f') ->
        exists bs, pack_uint32 v = Ok bs /\ f = bs ++ f')
  /\ (read_uint64 f = Ok (v, f') ->
        exists bs, pack_uint64 v = Ok bs /\ f = bs ++ f').
Proof.
  repeat split.
  - intros H. apply (fixed_read_ok 1 U8) in H as [-> Hv].
    exists (le_bytes 1 v). split; [now apply pack_uint8_ok|reflexivity].
  - intros H. apply read_uint16_ok in H as [-> Hv].
    exists (le_bytes 2 v). split; [now apply pack_uint16_ok|reflexivity].
  - intros H. apply read_uint32_ok in H as [-> Hv].
    exists (le_bytes 4 v). split; [now apply pack_uint32_ok|reflexivity].
  - intros H. apply read_uint64_ok in H as [-> Hv].
    exists (le_bytes 8 v). split; [now apply pack_uint64_ok|reflexivity].
Qed.

Lemma fixed_read_short (n : nat) (w : width) (f : list byte) :
  len f < Z.of_nat n ->
  (let! data := read (Z.of_nat n) in
   if len data =? Z.of_nat n then ret (le_value data)
   else raise (NotEnoughData w)) f = Err (NotEnoughData w).
Proof.
  intros H. unfold bind, read, ret, raise. rewrite Nat2Z.id.
  destruct (Z.eqb_spec (len (take n f)) (Z.of_nat n)) as [E|E];
    [|reflexivity].
  unfold len in *. rewrite length_take in E. lia.
Qed.

(** X5. A reader raises exactly when the stream has fewer bytes than its
    width, and then with its own 'Not enough data' error: it never returns
    a value built from a short read. *)
Theorem read_fails_iff_short (f : list byte) (e : error) :
  (read_uint8 f = Err e <-> e = NotEnoughData U8 /\ len f < 1)
  /\ (read_uint16 f = Err e <-> e = NotEnoughData U16 /\ len f < 2)
  /\ (read_uint32 f = Err e <-> e = NotEnoughData U32 /\ len f < 4)
  /\ (read_uint64 f = Err e <-> e = NotEnoughData U64 /\ len f < 8).
Proof.
  repeat split.
  - apply (fixed_read_err 1 U8 f e H).
  - apply (fixed_read_err 1 U8 f e H).
  - intros [-> H]. exact (fixed_read_short 1 U8 f H).
  - apply (fixed_read_err 2 U16 f e H).
  - apply (fixed_read_err 2 U16 f e H).
  - intros [-> H]. exact (fixed_read_short 2 U16 f H).
  - apply (fixed_read_err 4 U32 f e H).
  - apply (fixed_read_err 4 U32 f e H).
  - intros [-> H]. exact (fixed_read_short 4 U32 f H).
  - apply (fixed_read_err 8 U64 f e H).
  - apply (fixed_read_err 8 U64 f e H).
  - intros [-> H]. exact (fixed_read_short 8 U64 f H).
Qed.

(** ** Length-prefixed byte strings *)

(** X6. [pack_wstring] accepts exactly the byte strings of at most 65535
    bytes: it then writes two length bytes and the string, which
    [read_wstring] reads back, leaving the rest of the stream; a longer
    string raises 'too large for wstring', never a [struct.error]. What
    [read_wstring] returns packs back to the bytes that it consumed. *)
Theorem wstring_roundtrip (v rest : list byte) :
  (len v <= 65535 ->
     exists bs, pack_wstring v = Ok bs /\ len bs = 2 + len v
                /\ read_wstring (bs ++ rest) = Ok (v, rest))
  /\ (65535 < len v -> pack_wstring v = Err TooLargeForWstring)
  /\ (forall f, read_wstring f = Ok (v, rest) ->
        exists bs, pack_wstring v = Ok bs /\ f = bs ++ rest).
Proof.
  repeat split.
  - intros H. exists (wstring_bytes v).
    split; [apply pack_wstring_ok; lia|].
    split; [|apply read_wstring_app; lia].
    unfold wstring_bytes, len. rewrite length_app. cbn [le_bytes length]. lia.
  - intros H. unfold pack_wstring.
    destruct (Z.gtb_spec (len v) (2 ^ 16 - 1)); [reflexivity|lia].
  - intros f H. apply read_wstring_ok in H as [-> Hv].
    exists (wstring_bytes v). split; [now apply pack_wstring_ok|reflexivity].
Qed.

(** X7. [read_wstring] raises in two cases only: the stream has fewer
    than two bytes for the length, or it has fewer bytes after the length
    than the length announces; a string is never returned short. *)
Theorem read_wstring_fails_iff (f : list byte) (e : error) :
  read_wstring f = Err e <->
    (e = NotEnoughData U16 /\ len f < 2)
    \/ (e = NotEnoughData WString /\ 2 <= len f
        /\ len f - 2 < le_value (take 2 f)).
Proof.
  unfold read_wstring, bind at 1.
  destruct (read_uint16 f) as [[size f1]|e1] eqn:E.
  - apply read_uint16_ok in E as [-> Hsize].
    assert (len (le_bytes 2 size ++ f1) = 2 + len f1) as Hlen.
    { unfold len. rewrite length_app. cbn [le_bytes length]. lia. }
    assert (take 2 (le_bytes 2 size ++ f1) = le_bytes 2 size) as Htake
      by reflexivity.
    rewrite Hlen, Htake, le_value_bytes
      by (change (256 ^ Z.of_nat 2) with (2 ^ 16); lia).
    pose proof (len_nonneg f1).
    unfold bind, read, ret, raise.
    destruct (Z.eqb_spec (len (take (Z.to_nat size) f1)) size) as [El|El].
    + split; [discriminate|]. intros [[_ ?]|(_ & _ & ?)]; [lia|].
      unfold len in *. rewrite length_take in El. lia.
    + split.
      * intros [= <-]. right. split; [reflexivity|]. split; [lia|].
        unfold len in *. rewrite length_take in El. lia.
      * intros [[_ ?]|(-> & _)]; [lia|reflexivity].
  - apply read_uint16_err in E as [-> Hf]. split.
    + intros [= <-]. now left.
    + intros [[-> _]|(_ & ? & _)]; [reflexivity|lia].
Qed.

(** ** Chunks *)

Lemma range_step_lookup (stop step i : nat) :
  (i < Nat.div (stop + step - 1) step)%nat ->
  range_step stop step !! i = Some (i * step)%nat.
Proof.
  intros H. unfold range_step. rewrite list_lookup_fmap.
  now rewrite lookup_seq_lt.
Qed.

(** X8. With a positive size, [chunks] cuts the array into consecutive
    slices that join back to the array: the slice of index [i] starts at
    [i * size], no slice is empty or longer than the size, and every slice
    but the last has exactly the size. An empty array yields no slice. *)
Theorem chunks_spec (arr : list byte) (size : nat) :
  (0 < size)%nat ->
  concat (chunks arr size) = arr
  /\ length (chunks arr size) = Nat.div (length arr + size - 1) size
  /\ (forall i c, chunks arr size !! i = Some c ->
        c = take size (drop (i * size) arr)
        /\ (0 < length c <= size)%nat
        /\ (S i < length (chunks arr size) -> length c = size)%nat).
Proof.
  intros Hs.
  assert (length (chunks arr size) = Nat.div (length arr + size - 1) size)
    as Hlen.
  { unfold chunks, range_step. now rewrite !length_map, length_seq. }
  split; [now apply chunks_concat|]. split; [exact Hlen|].
  intros i c Hc.
  assert (i < Nat.div (length arr + size - 1) size)%nat as Hi.
  { rewrite <- Hlen. now apply lookup_lt_Some in Hc. }
  unfold chunks in Hc. rewrite list_lookup_fmap, range_step_lookup in Hc
    by assumption.
  cbn [fmap option_fmap option_map] in Hc. injection Hc as <-.
  split; [reflexivity|].
  rewrite Hlen, length_take, length_drop.
  pose proof (Nat.div_mod_eq (length arr + size - 1) size) as Hd.
  pose proof (Nat.mod_upper_bound (length arr + size - 1) size) as Hm.
  split; [|intros Hn]; nia.
Qed.

(** X9. [append_blob] hands the blob to the compressor whole and in
    order, whatever the chunking: two blobs appended one after the other
    leave the compressor as their concatenation appended at once does. *)
Theorem append_blob_whole (compressor a b : list byte) :
  append_blob compressor a = compressor ++ a
  /\ append_blob (append_blob compressor a) b
     = append_blob compressor (a ++ b).
Proof.
  split; [apply append_blob_app|].
  rewrite !append_blob_app. now rewrite app_assoc.
Qed.

(** ** Time stamps *)

(** X10. The conversion inverts the count of 100 ns ticks since 1601 of
    a Unix second, whatever the ticks within the second, before 1970 as
    well; it is monotone; and the filetime of a record, a 64-bit value,
    gives a time stamp between the year 1601 and about the year 60056. *)
Theorem filetime_seconds_inverse :
  (forall s k, 0 <= k < 10000000 ->
     windows_filetime_to_unix_second (EPOCH_AS_FILETIME + 10000000 * s + k)
     = s)
  /\ (forall ft ft', ft <= ft' ->
        windows_filetime_to_unix_second ft
        <= windows_filetime_to_unix_second ft')
  /\ (forall ft, 0 <= ft < 2 ^ 64 ->
        -11644473600 <= windows_filetime_to_unix_second ft
        <= 1833029933770).
Proof.
  unfold windows_filetime_to_unix_second, EPOCH_AS_FILETIME.
  change (10 ^ 9 / 100) with 10000000.
  repeat split.
  - intros s k Hk.
    replace (116444736000000000 + 10000000 * s + k - 116444736000000000)
      with (s * 10000000 + k) by lia.
    rewrite Z.div_add_l by lia. rewrite Z.div_small by lia. lia.
  - intros ft ft' H. apply Z.div_le_mono; lia.
  - apply Z.div_le_lower_bound; lia.
  - apply Z.lt_succ_r, Z.div_lt_upper_bound; [lia|].
    change (2 ^ 64) with 18446744073709551616 in *. lia.
Qed.

Lemma chunks_spec_witness :
  concat (chunks [x01; x02; x03] 2) = [x01; x02; x03]
  /\ length (chunks [x01; x02; x03] 2) = 2%nat.
Proof.
  destruct (chunks_spec [x01; x02; x03] 2 ltac:(lia)) as (H1 & H2 & _).
  split; [exact H1|exact H2].
Defined.

(** ** The save record, once more *)

Section Codec.

Variable lz4_block_compress : list byte -> option (list byte).
Variable lz4_block_decompress : list byte -> Z -> option (list byte).

Local Abbreviation decode := (ESS_init lz4_block_decompress).
Local Abbreviation encodeStored := get_uncompressed.
Local Abbreviation encodeCompressed := (get_compressed lz4_block_compress).

Lemma len_app (a b : list byte) : len (a ++ b) = len a + len b.
Proof. unfold len. rewrite length_app. lia. Qed.

Lemma len_header_bytes (r : ESS) (tag : Z) :
  len (playerCurExp r) = 4 -> len (playerLvlUpExp r) = 4 ->
  len (header_bytes r tag)
  = 65 + len (playerName r) + len (playerLocation r) + len (gameDate r)
      + len (playerRaceEditorId r).
Proof.
  intros Hc Hl.
  unfold header_bytes, header_before_exp, header_after_exp, wstring_bytes.
  rewrite !len_app, !len_le_bytes, Hc, Hl.
  change (len MAGIC) with 13. lia.
Qed.

(** No save is shorter than the 65 bytes of the fixed fields. *)
Lemma decode_min_length (b : list byte) (r : ESS) :
  decode b = Ok r -> 65 <= len b.
Proof.
  intros Hd.
  destruct (decode_inv lz4_block_decompress b r Hd) as (Hr & tail & -> & _).
  destruct Hr as (_ & _ & _ & _ & _ & _ & _ & _ & _ & Hc & Hl & _).
  rewrite len_app, len_header_bytes by assumption.
  pose proof (len_nonneg (playerName r)).
  pose proof (len_nonneg (playerLocation r)).
  pose proof (len_nonneg (gameDate r)).
  pose proof (len_nonneg (playerRaceEditorId r)).
  pose proof (len_nonneg tail). lia.
Qed.

(** X11. The stored serialisation is canonical. It never fails on a
    decoded record; for a record read from a stored save it is the very
    bytes that were read, cut short or not; and decoding it and
    serialising again gives the same bytes. *)
Theorem stored_form_canonical (b : list byte) (r : ESS) :
  decode b = Ok r ->
  exists s,
    encodeStored r = Ok s
    /\ (compressionType r = 0 -> s = b)
    /\ exists r', decode s = Ok r' /\ encodeStored r' = Ok s.
Proof.
  intros Hd.
  destruct (decode_stored_bytes lz4_block_decompress b r Hd)
    as (Hr & He & Hds).
  exists (stored_bytes r). split; [exact He|]. split.
  - intros Ht.
    destruct (decode_inv lz4_block_decompress b r Hd)
      as (_ & tail & -> & [(_ & Hs & Hb & _)|(Ht2 & _)]); [|lia].
    unfold stored_bytes. rewrite Ht, Hs, Hb, take_drop. reflexivity.
  - eexists. split; [exact Hds|].
    destruct (decode_stored_bytes lz4_block_decompress _ _ Hds)
      as (_ & He' & _).
    rewrite He'. reflexivity.
Qed.

(** X12. The two serialisers read neither the compression type of the
    record nor its two declared sizes: records that agree on the other
    fields serialise alike, error included. *)
Theorem encoders_ignore_representation (r r' : ESS) :
  agree_except_repr r r' ->
  encodeStored r = encodeStored r'
  /\ encodeCompressed r = encodeCompressed r'.
Proof.
  intros (H1 & H2 & H3 & H4 & H5 & H6 & H7 & H8 & H9 & H10 & H11 & H12
          & H13 & H14 & H15 & H16).
  unfold get_uncompressed, get_compressed, header_chunks.
  rewrite H1, H2, H3, H4, H5, H6, H7, H8, H9, H10, H11, H12, H13, H14,
    H15, H16.
  split; reflexivity.
Qed.

Lemma get_compressed_err (r : ESS) (e : error) :
  header_ok r -> encodeCompressed r = Err e ->
  (e = LZ4BlockError /\ len (uncompressedBlob r) < 2 ^ 32
   /\ lz4_block_compress (uncompressedBlob r) = None)
  \/ (e = StructError
      /\ (2 ^ 32 <= len (uncompressedBlob r)
          \/ exists block,
               lz4_block_compress (uncompressedBlob r) = Some block
               /\ 2 ^ 32 <= len block)).
Proof.
  intros Hr. unfold get_compressed.
  destruct (header_chunks_ok r 2 [] Hr) as (chunks & -> & _); [lia|].
  cbn [res_bind]. change (pack_uint16 2) with (Ok (le_bytes 2 2)).
  cbn [res_bind].
  pose proof (len_nonneg (uncompressedBlob r)).
  destruct (Z.lt_ge_cases (len (uncompressedBlob r)) (2 ^ 32)) as [Hb|Hb].
  2:{ unfold pack_uint32 at 1. rewrite pack_out_of_range by lia.
      cbn [res_bind]. intros [= <-]. right. split; [reflexivity|now left]. }
  rewrite pack_uint32_ok by lia. cbn [res_bind].
  destruct (lz4_block_compress (uncompressedBlob r)) as [block|].
  2:{ intros [= <-]. now left. }
  pose proof (len_nonneg block).
  destruct (Z.lt_ge_cases (len block) (2 ^ 32)) as [Hc|Hc].
  { rewrite pack_uint32_ok by lia. discriminate. }
  unfold pack_uint32. rewrite pack_out_of_range by lia.
  cbn [res_bind]. intros [= <-]. right. split; [reflexivity|].
  right. now exists block.
Qed.

(** X13. On a decoded record the compressed serialisation fails in
    three cases only: the payload has 2^32 bytes or more, lz4 refuses it,
    or its block has 2^32 bytes or more; the first and the last are a
    [struct.error] of the length field. *)
Theorem encode_compressed_failures (b : list byte) (r : ESS) (e : error) :
  decode b = Ok r -> encodeCompressed r = Err e ->
  (e = LZ4BlockError /\ len (uncompressedBlob r) < 2 ^ 32
   /\ lz4_block_compress (uncompressedBlob r) = None)
  \/ (e = StructError
      /\ (2 ^ 32 <= len (uncompressedBlob r)
          \/ exists block,
               lz4_block_compress (uncompressedBlob r) = Some block
               /\ 2 ^ 32 <= len block)).
Proof.
  intros Hd. apply get_compressed_err.
  now destruct (decode_inv lz4_block_decompress b r Hd).
Qed.

Lemma ESS_read_payload_err (r : ESS) (tag : Z) (tail : list byte)
    (e : error) :
  ESS_read_payload lz4_block_decompress r tag tail = Err e ->
  (exists w, e = NotEnoughData w)
  \/ (e = InvalidCompressionType tag /\ tag <> 0 /\ tag <> 2)
  \/ e = LZ4BlockError
  \/ (exists expected got,
        e = WrongUncompressedSize expected got /\ got <> expected).
Proof.
  unfold ESS_read_payload. unfold bind at 1, read at 1. cbv beta iota.
  destruct (Z.eqb_spec tag 0) as [->|H0]; [discriminate|].
  destruct (Z.eqb_spec tag 2) as [->|H2].
  2:{ intros [= <-]. right. left. now split. }
  unfold bind at 1.
  destruct (read_uint32 _) as [[ulen f1]|e1] eqn:E1; cbv beta iota.
  2:{ apply read_uint32_err in E1 as [-> _]. intros [= <-]. left.
      now exists U32. }
  unfold bind at 1.
  destruct (read_uint32 f1) as [[clen f2]|e2] eqn:E2; cbv beta iota.
  2:{ apply read_uint32_err in E2 as [-> _]. intros [= <-]. left.
      now exists U32. }
  unfold bind at 1, read_all at 1. cbv beta iota.
  destruct (lz4_block_decompress f2 ulen) as [blob|].
  2:{ intros [= <-]. right. right. now left. }
  destruct (Z.eqb_spec (len blob) ulen); cbn [negb]; [discriminate|].
  intros [= <-]. right. right. right. now exists ulen, (len blob).
Qed.

Lemma decode_err (f : list byte) (e : error) :
  decode f = Err e ->
  (exists w, e = NotEnoughData w /\ take 13 f = MAGIC)
  \/ (e = InvalidMagic (take 13 f) /\ take 13 f <> MAGIC)
  \/ (exists v, e = UnsupportedVersion v /\ v <> 12)
  \/ (exists tag, e = InvalidCompressionType tag /\ tag <> 0 /\ tag <> 2)
  \/ e = LZ4BlockError
  \/ (exists expected got,
        e = WrongUncompressedSize expected got /\ got <> expected).
Proof.
  intros He.
  destruct (decide (take 13 f = MAGIC)) as [Hm|Hm].
  2:{ rewrite decode_bad_magic in He by assumption. injection He as <-.
      right. left. now split. }
  destruct (ESS_read_cases lz4_block_decompress f)
    as [(r & tag & tail & Hr & Ht & ->)
       |[[Hm' _]|[(hs & v & rest & -> & Hhs & Hv & Hne & Hf)|[w Hf]]]].
  - rewrite ESS_init_header in He by assumption.
    destruct (ESS_read_payload _ _ _ _) as [[r0 f']|e0] eqn:HP;
      [discriminate|].
    injection He as <-.
    apply ESS_read_payload_err in HP
      as [[w ->]|[(-> & H0 & H2)|[->|(x & g & -> & Hg)]]].
    + left. now exists w.
    + right. right. right. left. now exists tag.
    + right. right. right. right. now left.
    + right. right. right. right. right. now exists x, g.
  - contradiction.
  - unfold ESS_init in He. rewrite Hf in He. injection He as <-.
    right. right. left. now exists v.
  - unfold ESS_init in He. rewrite Hf in He. injection He as <-.
    left. now exists w.
Qed.

End Codec.

Lemma stored_form_canonical_witness :
  exists s,
    get_uncompressed sample_ess = Ok s
    /\ (compressionType sample_ess = 0 -> s = sample_stored)
    /\ exists r', ESS_init stored_decompress s = Ok r'
                  /\ get_uncompressed r' = Ok s.
Proof.
  apply (stored_form_canonical stored_decompress sample_stored sample_ess).
  reflexivity.
Defined.

Lemma encoders_ignore_representation_witness :
  get_uncompressed sample_ess
  = get_uncompressed (with_payload sample_ess 2 [] (Some (3, 7))
                        [x01; x02; x03])
  /\ get_compressed stored_compress sample_ess
     = get_compressed stored_compress
         (with_payload sample_ess 2 [] (Some (3, 7)) [x01; x02; x03]).
Proof.
  apply (encoders_ignore_representation stored_compress sample_ess
           (with_payload sample_ess 2 [] (Some (3, 7)) [x01; x02; x03])).
  repeat split.
Defined.

Lemma encode_compressed_failures_witness :
  (LZ4BlockError = LZ4BlockError
   /\ len (uncompressedBlob sample_ess) < 2 ^ 32
   /\ (fun _ : list byte => @None (list byte)) (uncompressedBlob sample_ess)
      = None)
  \/ (LZ4BlockError = StructError
      /\ (2 ^ 32 <= len (uncompressedBlob sample_ess)
          \/ exists block,
               (fun _ : list byte => @None (list byte))
                 (uncompressedBlob sample_ess) = Some block
               /\ 2 ^ 32 <= len block)).
Proof.
  apply (encode_compressed_failures (fun _ => None) stored_decompress
           sample_stored sample_ess LZ4BlockError); reflexivity.
Defined.

(** ** Creating an archive *)

Section Create.

Variable lz4_block_decompress : list byte -> Z -> option (list byte).
Variable utf8_encode : string -> list byte.

Local Abbreviation decode := (ESS_init lz4_block_decompress).
Local Abbreviation ess_entry :=
  (fun (file : string * list byte) (r : ESS) =>
     entry_bytes (utf8_encode (fst file)) (stored_bytes r)).
Local Abbreviation skse_entry :=
  (fun file : string * list byte =>
     entry_bytes (utf8_encode (fst file)) (snd file)).
Local Abbreviation packed_ok :=
  (fun (file : string * list byte) (r : ESS) =>
     decode (snd file) = Ok r
     /\ len (utf8_encode (fst file)) < 2 ^ 16
     /\ len (stored_bytes r) < 2 ^ 32).
Local Abbreviation skse_ok :=
  (fun file : string * list byte =>
     len (utf8_encode (fst file)) < 2 ^ 16 /\ len (snd file) < 2 ^ 32).
Local Abbreviation compress_ess' :=
  (compress_ess lz4_block_decompress utf8_encode).
Local Abbreviation compress_skse' := (compress_skse utf8_encode).

Lemma compress_ess_ok (compressor : list byte) (total_read : Z)
    (file : string * list byte) (r : ESS) :
  packed_ok file r -> 0 <= total_read ->
  compress_ess' (compressor, total_read) file
  = Ok (compressor ++ ess_entry file r, total_read + len (snd file)).
Proof.
  intros (Hd & Hn & Hs) Ht. unfold compress_ess.
  destruct (decode_stored_bytes lz4_block_decompress _ _ Hd) as (_ & He & _).
  pose proof (decode_min_length lz4_block_decompress _ _ Hd) as Hmin.
  pose proof (len_nonneg (stored_bytes r)).
  rewrite Hd. cbn [res_bind]. rewrite He. cbn [res_bind].
  rewrite pack_wstring_ok by assumption. cbn [res_bind].
  rewrite pack_uint32_ok by lia. cbn [res_bind].
  destruct (Z.eqb_spec (total_read + len (snd file)) 0); [lia|].
  rewrite !append_blob_app. unfold entry_bytes.
  now repeat rewrite <- app_assoc.
Qed.

Lemma compress_skse_ok (compressor : list byte) (total_read : Z)
    (file : string * list byte) :
  skse_ok file -> total_read + len (snd file) <> 0 ->
  compress_skse' (compressor, total_read) file
  = Ok (compressor ++ skse_entry file, total_read + len (snd file)).
Proof.
  intros (Hn & Hs) Ht. unfold compress_skse.
  pose proof (len_nonneg (snd file)).
  rewrite pack_wstring_ok by assumption. cbn [res_bind].
  rewrite pack_uint32_ok by lia. cbn [res_bind].
  destruct (Z.eqb_spec (total_read + len (snd file)) 0); [lia|].
  rewrite !append_blob_app. unfold entry_bytes.
  now repeat rewrite <- app_assoc.
Qed.

Lemma for_each_ess_ok (ess_files : list (string * list byte))
    (records : list ESS) (compressor : list byte) (total_read : Z) :
  Forall2 packed_ok ess_files records -> 0 <= total_read ->
  exists total_read',
    for_each compress_ess' (compressor, total_read) ess_files
    = Ok (compressor ++ concat (zip_with ess_entry ess_files records),
          total_read')
    /\ total_read <= total_read'
    /\ (ess_files <> [] -> 0 < total_read').
Proof.
  intros Hall. revert compressor total_read.
  induction Hall as [|file r files rs Hp Hall IH]; intros w t Ht.
  - exists t. cbn. rewrite app_nil_r. repeat split; [lia|congruence].
  - cbn [for_each]. rewrite (compress_ess_ok w t file r Hp Ht).
    cbn [res_bind].
    pose proof (decode_min_length lz4_block_decompress _ _ (proj1 Hp)).
    destruct (IH (w ++ ess_entry file r) (t + len (snd file)))
      as (t' & -> & Hle & _); [lia|].
    exists t'. cbn [zip_with concat]. rewrite <- app_assoc.
    repeat split; lia.
Qed.

Lemma len_zero_nil (data : list byte) : len data = 0 -> data = [].
Proof. destruct data; [reflexivity|]. unfold len. cbn [length]. lia. Qed.

Lemma for_each_skse_ok (skse_files : list (string * list byte))
    (compressor : list byte) (total_read : Z) :
  Forall skse_ok skse_files -> 0 <= total_read ->
  (total_read = 0 ->
   forall file rest, skse_files = file :: rest -> snd file <> []) ->
  exists total_read',
    for_each compress_skse' (compressor, total_read) skse_files
    = Ok (compressor ++ concat (map skse_entry skse_files), total_read').
Proof.
  intros Hall. revert compressor total_read.
  induction Hall as [|file files Hp Hall IH]; intros w t Ht Hfirst.
  - exists t. cbn. now rewrite app_nil_r.
  - pose proof (len_nonneg (snd file)).
    assert (t + len (snd file) <> 0) as Hne.
    { intros Hz. assert (t = 0) as -> by lia.
      apply (Hfirst eq_refl file files eq_refl), len_zero_nil. lia. }
    cbn [for_each]. rewrite (compress_skse_ok w t file Hp Hne).
    cbn [res_bind].
    destruct (IH (w ++ skse_entry file) (t + len (snd file)))
      as (t' & ->); [lia|intros; lia|].
    exists t'. cbn [map concat]. now rewrite <- app_assoc.
Qed.

(** X15. When [compress_files] completes, and what it writes then. The
    two counts fit 32 bits, every save decodes, every name fits a wstring
    and every payload a 32-bit length, and with no save the first sidecar
    is not empty; the stream is the two counts, then one entry for each
    save with its stored serialisation, then one for each sidecar. *)
Theorem compress_stream_iff (ess_files skse_files : list (string * list byte))
    (stream : list byte) :
  compress_stream lz4_block_decompress utf8_encode ess_files skse_files
  = Ok stream
  <-> Z.of_nat (length ess_files) < 2 ^ 32
      /\ Z.of_nat (length skse_files) < 2 ^ 32
      /\ Forall skse_ok skse_files
      /\ (ess_files = [] ->
          forall file rest, skse_files = file :: rest -> snd file <> [])
      /\ exists records,
          Forall2 packed_ok ess_files records
          /\ stream
             = le_bytes 4 (Z.of_nat (length ess_files))
                 ++ le_bytes 4 (Z.of_nat (length skse_files))
                 ++ concat (zip_with ess_entry ess_files records)
                 ++ concat (map skse_entry skse_files).
Proof.
  split.
  - intros Hc.
    destruct (compress_stream_inv _ _ _ _ _ Hc)
      as (Hn1 & Hn2 & Hskse & records & Hall & ->).
    repeat split; try assumption; [|now exists records].
    intros -> [name data] rest -> Hdata. cbn [snd] in Hdata. subst data.
    revert Hc. unfold compress_stream.
    rewrite !pack_uint32_ok by (cbn [length] in *; lia).
    cbn [res_bind for_each]. unfold compress_skse. cbn [fst snd].
    destruct (pack_wstring _); [|discriminate]. cbn [res_bind].
    discriminate.
  - intros (Hn1 & Hn2 & Hskse & Hfirst & records & Hall & ->).
    unfold compress_stream.
    rewrite !pack_uint32_ok by lia. cbn [res_bind].
    rewrite append_blob_app. cbn [app].
    destruct (for_each_ess_ok ess_files records
                (le_bytes 4 (Z.of_nat (length ess_files))
                   ++ le_bytes 4 (Z.of_nat (length skse_files))) 0 Hall)
      as (t & -> & Ht & Hpos); [lia|].
    cbn [res_bind].
    destruct (for_each_skse_ok skse_files
                ((le_bytes 4 (Z.of_nat (length ess_files))
                    ++ le_bytes 4 (Z.of_nat (length skse_files)))
                   ++ concat (zip_with ess_entry ess_files records)) t Hskse)
      as (t' & ->); [lia| |].
    + intros -> file rest ->. apply (fun H => Hfirst H file rest eq_refl).
      destruct ess_files; [reflexivity|]. specialize (Hpos ltac:(congruence)).
      lia.
    + cbn [res_bind fst]. now repeat rewrite <- app_assoc.
Qed.

Lemma pack_wstring_err (v : list byte) (e : error) :
  pack_wstring v = Err e -> e = TooLargeForWstring.
Proof.
  unfold pack_wstring. pose proof (len_nonneg v).
  destruct (Z.gtb_spec (len v) (2 ^ 16 - 1)); [congruence|].
  now rewrite pack_uint16_ok by lia.
Qed.

Lemma pack_uint32_err (v : Z) (e : error) :
  pack_uint32 v = Err e -> e = StructError.
Proof.
  unfold pack_uint32. destruct (_ && _); [discriminate|congruence].
Qed.

Lemma compress_ess_no_zero_division (compressor : list byte)
    (total_read : Z) (file : string * list byte) :
  0 <= total_read ->
  compress_ess' (compressor, total_read) file <> Err ZeroDivisionError.
Proof.
  intros Ht. unfold compress_ess.
  destruct (decode (snd file)) as [r|e] eqn:Hd; cbn [res_bind].
  2:{ intros [= ->].
      destruct (decode_err lz4_block_decompress _ _ Hd)
        as [(? & ? & _)|[(? & _)|[(? & ? & _)|[(? & ? & _)|[?|(? & ? & ? & _)]]]]];
        discriminate. }
  destruct (decode_stored_bytes lz4_block_decompress _ _ Hd) as (_ & -> & _).
  pose proof (decode_min_length lz4_block_decompress _ _ Hd).
  cbn [res_bind].
  destruct (pack_wstring _) as [name|e] eqn:Hn; cbn [res_bind].
  2:{ apply pack_wstring_err in Hn as ->. discriminate. }
  destruct (pack_uint32 _) as [size|e] eqn:Hs; cbn [res_bind].
  2:{ apply pack_uint32_err in Hs as ->. discriminate. }
  destruct (Z.eqb_spec (total_read + len (snd file)) 0); [lia|discriminate].
Qed.

Lemma for_each_ess_total (ess_files : list (string * list byte))
    (st st' : list byte * Z) :
  for_each compress_ess' st ess_files = Ok st' -> 0 <= snd st ->
  snd st <= snd st' /\ (ess_files <> [] -> 0 < snd st').
Proof.
  revert st. induction ess_files as [|file files IH]; intros [w t];
    cbn [for_each snd].
  - intros [= <-] Ht. cbn [snd]. split; [lia|congruence].
  - destruct (compress_ess' (w, t) file) as [st1|e] eqn:E; cbn [res_bind];
      [|discriminate].
    intros Hf Ht.
    destruct (compress_ess_inv lz4_block_decompress utf8_encode _ _ _ _ E)
      as (r & (Hd & _) & ->).
    pose proof (decode_min_length lz4_block_decompress _ _ Hd).
    destruct (IH _ Hf) as [Hle _]; cbn [snd] in *; [lia|].
    split; intros; lia.
Qed.

Lemma for_each_ess_no_zero_division (ess_files : list (string * list byte))
    (st : list byte * Z) :
  0 <= snd st ->
  for_each compress_ess' st ess_files <> Err ZeroDivisionError.
Proof.
  revert st. induction ess_files as [|file files IH]; intros [w t];
    cbn [for_each snd]; [discriminate|].
  intros Ht.
  destruct (compress_ess' (w, t) file) as [st1|e] eqn:E; cbn [res_bind].
  - destruct (compress_ess_inv lz4_block_decompress utf8_encode _ _ _ _ E)
      as (r & (Hd & _) & ->).
    pose proof (len_nonneg (snd file)). apply IH. cbn [snd]. lia.
  - intros [= ->]. now apply (compress_ess_no_zero_division w t file).
Qed.

Lemma for_each_skse_zero_division (skse_files : list (string * list byte))
    (st : list byte * Z) :
  0 <= snd st ->
  for_each compress_skse' st skse_files = Err ZeroDivisionError ->
  snd st = 0
  /\ exists name rest,
       skse_files = (name, []) :: rest /\ len (utf8_encode name) < 2 ^ 16.
Proof.
  revert st. induction skse_files as [|[name data] files IH]; intros [w t];
    cbn [for_each snd]; [discriminate|].
  intros Ht. pose proof (len_nonneg data).
  destruct (compress_skse' (w, t) (name, data)) as [st1|e] eqn:E;
    cbn [res_bind].
  - intros Hf. exfalso.
    destruct (compress_skse_inv utf8_encode _ _ _ _ E) as (_ & _ & ->).
    cbn [snd] in *.
    apply IH in Hf as [Hz _]; [|cbn [snd]; lia]. cbn [snd] in Hz.
    revert E. unfold compress_skse. cbn [fst snd].
    destruct (pack_wstring _); cbn [res_bind]; [|discriminate].
    destruct (pack_uint32 _); cbn [res_bind]; [|discriminate].
    rewrite Hz. discriminate.
  - intros [= ->]. revert E. unfold compress_skse. cbn [fst snd].
    destruct (pack_wstring _) as [nm|e] eqn:Hn; cbn [res_bind].
    2:{ apply pack_wstring_err in Hn as ->. discriminate. }
    apply pack_wstring_inv in Hn as [Hn _].
    destruct (pack_uint32 _) as [size|e] eqn:Hs; cbn [res_bind].
    2:{ apply pack_uint32_err in Hs as ->. discriminate. }
    destruct (Z.eqb_spec (t + len data) 0) as [Hz|]; [|discriminate].
    intros _. split; [lia|].
    exists name, files. split; [|exact Hn].
    f_equal. f_equal. apply len_zero_nil. lia.
Qed.

(** X16. The ratio that the progress bar shows divides the bytes
    written by the bytes read, and [compress_files] ends with a
    [ZeroDivisionError] in one case exactly: there is no save, and the
    first sidecar is an empty file. *)
Theorem zero_division_iff (ess_files skse_files : list (string * list byte)) :
  compress_stream lz4_block_decompress utf8_encode ess_files skse_files
  = Err ZeroDivisionError
  <-> ess_files = []
      /\ Z.of_nat (length skse_files) < 2 ^ 32
      /\ exists name rest,
           skse_files = (name, []) :: rest
           /\ len (utf8_encode name) < 2 ^ 16.
Proof.
  split.
  - unfold compress_stream.
    destruct (pack_uint32 (Z.of_nat (length ess_files))) as [n1|e] eqn:H1;
      cbn [res_bind].
    2:{ apply pack_uint32_err in H1 as ->. discriminate. }
    destruct (pack_uint32 (Z.of_nat (length skse_files))) as [n2|e] eqn:H2;
      cbn [res_bind].
    2:{ apply pack_uint32_err in H2 as ->. discriminate. }
    apply pack_uint32_inv in H2 as [H2 _].
    destruct (for_each compress_ess' _ ess_files) as [st|e] eqn:E1;
      cbn [res_bind].
    2:{ intros [= ->].
        now apply for_each_ess_no_zero_division in E1. }
    destruct (for_each_ess_total _ _ _ E1) as [Hle Hpos];
      [cbn [snd]; lia|]. cbn [snd] in Hle.
    destruct (for_each compress_skse' st skse_files) as [st2|e] eqn:E2;
      cbn [res_bind]; [discriminate|].
    intros [= ->].
    apply for_each_skse_zero_division in E2 as (Hz & name & rest & -> & Hn);
      [|lia].
    split; [|split; [lia|now exists name, rest]].
    destruct ess_files; [reflexivity|].
    specialize (Hpos ltac:(congruence)). lia.
  - intros (-> & Hn2 & name & rest & -> & Hn).
    unfold compress_stream.
    rewrite !pack_uint32_ok by (cbn [length] in *; lia).
    cbn [res_bind for_each]. unfold compress_skse. cbn [fst snd].
    rewrite pack_wstring_ok by assumption. reflexivity.
Qed.

End Create.

(** ** Restoring an archive *)

Section Restore.

Variable lz4_block_compress : list byte -> option (list byte).
Variable lz4_block_decompress : list byte -> Z -> option (list byte).
Variable zstd_stream_reader : list byte -> list byte.
Variable utf8_decode : list byte -> option string.
Variable path_stem : string -> string.

Local Abbreviation decode := (ESS_init lz4_block_decompress).
Local Abbreviation encodeCompressed := (get_compressed lz4_block_compress).
Local Abbreviation restore_ess' :=
  (restore_ess lz4_block_compress lz4_block_decompress utf8_decode path_stem).
Local Abbreviation restore_skse' := (restore_skse utf8_decode path_stem).
Local Abbreviation decompress_files' :=
  (decompress_files lz4_block_compress lz4_block_decompress
     zstd_stream_reader utf8_decode path_stem).

(** An iteration that completes has created one file, under a name that
    was free, and has set its time. *)
Lemma restore_ess_done (st st' : restore_state) :
  restore_ess' st = Done st' ->
  exists name f,
    directory st !! name = None
    /\ directory st' = <[name := f]> (directory st)
    /\ is_Some (mtime f).
Proof.
  unfold restore_ess.
  destruct (read_wstring _) as [[raw f1]|e]; cbn [or_raise]; [|discriminate].
  destruct (utf8_decode raw) as [name|]; [|discriminate].
  destruct (path_exists _ name) eqn:Hex; [discriminate|].
  apply path_exists_false_inv in Hex.
  destruct (read_uint32 f1) as [[filesize f2]|e]; cbn [or_raise];
    [|discriminate].
  unfold read. cbn [or_raise].
  destruct (decode _) as [ess|e]; cbn [or_raise negb]; [|discriminate].
  destruct (encodeCompressed ess) as [data|e]; cbn [or_raise];
    [|discriminate].
  unfold utime, write_file, open_wb. rewrite lookup_insert_eq.
  cbn [or_raise content]. intros [= <-]. cbn [directory].
  eexists name, _. split; [exact Hex|]. rewrite !insert_insert_eq.
  split; [reflexivity|]. cbn [mtime]. eauto.
Qed.

Lemma restore_skse_done (st st' : restore_state) :
  restore_skse' st = Done st' ->
  exists name f,
    directory st !! name = None
    /\ directory st' = <[name := f]> (directory st)
    /\ is_Some (mtime f).
Proof.
  unfold restore_skse.
  destruct (read_wstring _) as [[raw f1]|e]; cbn [or_raise]; [|discriminate].
  destruct (utf8_decode raw) as [name|]; [|discriminate].
  destruct (path_exists _ name) eqn:Hex; [discriminate|].
  apply path_exists_false_inv in Hex.
  destruct (read_uint32 f1) as [[filesize f2]|e]; cbn [or_raise negb];
    [|discriminate].
  unfold read. cbn [or_raise].
  destruct (stem_to_posix_timestamp st !! path_stem name) as [ts|];
    [|discriminate].
  unfold utime, write_file, open_wb. rewrite lookup_insert_eq.
  cbn [or_raise content]. intros [= <-]. cbn [directory].
  eexists name, _. split; [exact Hex|]. rewrite !insert_insert_eq.
  split; [reflexivity|]. cbn [mtime]. eauto.
Qed.

Lemma repeat_body_adds (body : restore_state -> outcome) (n : nat)
    (st st' : restore_state) :
  (forall s s', body s = Done s' ->
     exists name f,
       directory s !! name = None
       /\ directory s' = <[name := f]> (directory s)
       /\ is_Some (mtime f)) ->
  repeat_body n body st = Done st' ->
  size (directory st') = (size (directory st) + n)%nat
  /\ (forall name f, directory st !! name = Some f ->
        directory st' !! name = Some f)
  /\ (forall name f, directory st' !! name = Some f ->
        directory st !! name = None -> is_Some (mtime f)).
Proof.
  intros Hbody. revert st. induction n as [|n IH]; intros st;
    cbn [repeat_body].
  - intros [= <-]. split; [lia|]. split; [auto|]. congruence.
  - destruct (body st) as [s1|e d] eqn:E; [|discriminate]. intros Hn.
    destruct (Hbody _ _ E) as (name & f & Hfree & Hd & Hm).
    destruct (IH _ Hn) as (Hsize & Hkeep & Hnew).
    rewrite Hd in Hsize, Hkeep, Hnew.
    rewrite map_size_insert_None in Hsize by assumption.
    split; [lia|]. split.
    + intros k x Hk. apply Hkeep. rewrite lookup_insert_ne; [exact Hk|].
      congruence.
    + intros k x Hk Hnone.
      destruct (decide (k = name)) as [->|Hne].
      * pose proof (Hkeep name f (lookup_insert_eq _ _ _)) as Hf.
        rewrite Hf in Hk. injection Hk as <-. exact Hm.
      * apply (Hnew k x Hk). now rewrite lookup_insert_ne by congruence.
Qed.

(** X17. A restore that completes and whose files all have plain names
    has created one file for each entry that the two counts of the archive
    announce, each with its time set, and has left the files that the
    directory had as they were. *)
Theorem restore_done_invariants (archive : list byte)
    (output_directory : gmap string file) (st : restore_state) :
  decompress_files' archive output_directory = Done st ->
  (forall name, is_Some (directory st !! name) ->
     output_directory !! name = None -> plain_name name = true) ->
  exists num_ess_files num_skse_files tail,
    zstd_stream_reader archive
    = le_bytes 4 num_ess_files ++ le_bytes 4 num_skse_files ++ tail
    /\ 0 <= num_ess_files < 2 ^ 32 /\ 0 <= num_skse_files < 2 ^ 32
    /\ Z.of_nat (size (directory st))
       = Z.of_nat (size output_directory) + num_ess_files + num_skse_files
    /\ (forall name f, output_directory !! name = Some f ->
          directory st !! name = Some f)
    /\ (forall name f, directory st !! name = Some f ->
          output_directory !! name = None -> is_Some (mtime f)).
Proof.
  intros Hrun _. revert Hrun. unfold decompress_files.
  destruct (read_uint32 _) as [[n1 f1]|e] eqn:E1; cbn [or_raise];
    [|discriminate].
  destruct (read_uint32 f1) as [[n2 f2]|e] eqn:E2; cbn [or_raise];
    [|discriminate].
  apply read_uint32_ok in E1 as [E1 Hn1].
  apply read_uint32_ok in E2 as [-> Hn2].
  destruct (repeat_body (Z.to_nat n1) _ _) as [st1|e d] eqn:L1;
    [|discriminate].
  intros L2.
  destruct (repeat_body_adds _ _ _ _ restore_ess_done L1)
    as (S1 & K1 & N1).
  destruct (repeat_body_adds _ _ _ _ restore_skse_done L2)
    as (S2 & K2 & N2).
  cbn [directory] in S1, K1, N1.
  exists n1, n2, f2. split; [exact E1|]. split; [exact Hn1|].
  split; [exact Hn2|]. split; [lia|]. split.
  - intros name f Hf. apply K2, K1, Hf.
  - intros name f Hf Hnone.
    destruct (directory st1 !! name) as [f1|] eqn:H1.
    + pose proof (K2 _ _ H1) as Hf1. rewrite Hf1 in Hf. injection Hf as <-.
      now apply (N1 name f1).
    + now apply (N2 name f).
Qed.

(** X19. A sidecar entry under a plain name that is free. The file
    receives what the stream still holds, up to the declared size, and the
    length of what was read is not checked: a stream that ends inside the
    payload gives a short file and no error. The file is written before
    its stem is looked up: when no save had the stem, the run ends with a
    [KeyError] and leaves the file, its time not set. *)
Theorem restore_skse_entry (st : restore_state) (raw tail : list byte)
    (filesize : Z) (name : string) :
  decompressor st = wstring_bytes raw ++ le_bytes 4 filesize ++ tail ->
  len raw < 2 ^ 16 -> 0 <= filesize < 2 ^ 32 ->
  utf8_decode raw = Some name ->
  plain_name name = true ->
  directory st !! name = None ->
  restore_skse' st
  = match stem_to_posix_timestamp st !! path_stem name with
    | Some ts =>
        Done {| decompressor := drop (Z.to_nat filesize) tail;
                directory :=
                  <[name := {| content := take (Z.to_nat filesize) tail;
                               mtime := Some ts |}]> (directory st);
                stem_to_posix_timestamp := stem_to_posix_timestamp st |}
    | None =>
        Raised (KeyError (path_stem name))
          (<[name := {| content := take (Z.to_nat filesize) tail;
                        mtime := None |}]> (directory st))
    end.
Proof.
  intros Hin Hraw Hsize Hname _ Hfree. unfold restore_skse.
  rewrite Hin, read_wstring_app by assumption. cbn [or_raise].
  rewrite Hname, (path_exists_false _ _ Hfree).
  rewrite read_uint32_app by assumption. cbn [or_raise negb].
  unfold read. cbn [or_raise].
  destruct (stem_to_posix_timestamp st !! path_stem name) as [ts|].
  - unfold utime, write_file, open_wb. rewrite lookup_insert_eq.
    cbn [or_raise content]. now rewrite !insert_insert_eq.
  - unfold write_file, open_wb. now rewrite insert_insert_eq.
Qed.

(** X20. An archive that announces no save and at least one sidecar
    does not restore: the stem table is empty, so the first sidecar, when
    its name is plain and free, is written and the run ends with a
    [KeyError]. *)
Theorem sidecars_without_saves (archive raw tail : list byte)
    (num_skse_files filesize : Z) (name : string)
    (output_directory : gmap string file) :
  zstd_stream_reader archive
  = le_bytes 4 0 ++ le_bytes 4 num_skse_files
      ++ wstring_bytes raw ++ le_bytes 4 filesize ++ tail ->
  0 < num_skse_files < 2 ^ 32 ->
  len raw < 2 ^ 16 -> 0 <= filesize < 2 ^ 32 ->
  utf8_decode raw = Some name ->
  plain_name name = true ->
  output_directory !! name = None ->
  decompress_files' archive output_directory
  = Raised (KeyError (path_stem name))
      (<[name := {| content := take (Z.to_nat filesize) tail;
                    mtime := None |}]> output_directory).
Proof.
  intros Hin Hn Hraw Hsize Hname _ Hfree. unfold decompress_files.
  rewrite Hin, read_uint32_app by lia. cbn [or_raise].
  rewrite read_uint32_app by lia. cbn [or_raise].
  change (Z.to_nat 0) with 0%nat. cbn [repeat_body].
  destruct (Z.to_nat num_skse_files) as [|m] eqn:Hm; [lia|].
  cbn [repeat_body]. unfold restore_skse.
  cbn [decompressor directory stem_to_posix_timestamp].
  rewrite read_wstring_app by assumption. cbn [or_raise].
  rewrite Hname, (path_exists_false _ _ Hfree).
  rewrite read_uint32_app by assumption. cbn [or_raise negb].
  unfold read. cbn [or_raise]. rewrite lookup_empty.
  unfold write_file, open_wb. now rewrite insert_insert_eq.
Qed.

End Restore.

Lemma sample_restored_names (st : restore_state) (name : string) :
  decompress_files stored_compress stored_decompress plain_reader
    ascii_decode simple_stem sample_archive ∅ = Done st ->
  is_Some (directory st !! name) -> plain_name name = true.
Proof.
  intros E [f Hf].
  assert (map_Forall (fun k _ => plain_name k = true) (directory st)) as H.
  { vm_compute in E. injection E as <-.
    apply (bool_decide_unpack _). vm_compute. exact I. }
  exact (H name f Hf).
Qed.

Lemma restore_done_invariants_witness :
  match decompress_files stored_compress stored_decompress plain_reader
          ascii_decode simple_stem sample_archive ∅ with
  | Done st =>
      exists num_ess_files num_skse_files tail,
        plain_reader sample_archive
        = le_bytes 4 num_ess_files ++ le_bytes 4 num_skse_files ++ tail
        /\ 0 <= num_ess_files < 2 ^ 32 /\ 0 <= num_skse_files < 2 ^ 32
        /\ Z.of_nat (size (directory st))
           = Z.of_nat (size (∅ : gmap string file))
             + num_ess_files + num_skse_files
        /\ (forall name f, (∅ : gmap string file) !! name = Some f ->
              directory st !! name = Some f)
        /\ (forall name f, directory st !! name = Some f ->
              (∅ : gmap string file) !! name = None -> is_Some (mtime f))
  | Raised _ _ => False
  end.
Proof.
  destruct (decompress_files stored_compress stored_decompress plain_reader
              ascii_decode simple_stem sample_archive ∅) as [st|e d] eqn:E.
  - exact (restore_done_invariants stored_compress stored_decompress
             plain_reader ascii_decode simple_stem sample_archive ∅ st E
             (fun name Hn _ => sample_restored_names st name E Hn)).
  - vm_compute in E. discriminate.
Defined.

Lemma restore_skse_entry_witness :
  restore_skse ascii_decode simple_stem
    {| decompressor :=
         wstring_bytes (ascii_encode "Save1_Hero.skse") ++ le_bytes 4 5
           ++ [x07; x08];
       directory := ∅;
       stem_to_posix_timestamp := {[ "Save1_Hero"%string := 1655526400 ]} |}
  = Done {| decompressor := [];
            directory :=
              {[ "Save1_Hero.skse"%string
                 := {| content := [x07; x08]; mtime := Some 1655526400 |} ]};
            stem_to_posix_timestamp :=
              {[ "Save1_Hero"%string := 1655526400 ]} |}.
Proof.
  rewrite (restore_skse_entry ascii_decode simple_stem _
             (ascii_encode "Save1_Hero.skse") [x07; x08] 5
             "Save1_Hero.skse"%string);
    [reflexivity|reflexivity|vm_compute; reflexivity|lia|reflexivity
    |reflexivity|reflexivity].
Defined.

Lemma sidecars_without_saves_witness :
  decompress_files stored_compress stored_decompress plain_reader
    ascii_decode simple_stem
    (le_bytes 4 0 ++ le_bytes 4 1
       ++ wstring_bytes (ascii_encode "Save2_Hero.skse") ++ le_bytes 4 1
       ++ [x07]) ∅
  = Raised (KeyError (simple_stem "Save2_Hero.skse"))
      (<[ "Save2_Hero.skse"%string
          := {| content := take (Z.to_nat 1) [x07]; mtime := None |} ]> ∅).
Proof.
  apply (sidecars_without_saves stored_compress stored_decompress
           plain_reader ascii_decode simple_stem _
           (ascii_encode "Save2_Hero.skse") [x07] 1 1
           "Save2_Hero.skse"%string ∅);
    [reflexivity|lia|vm_compute; reflexivity|lia|reflexivity|reflexivity
    |reflexivity].
Defined.

(** ** The command line *)

Lemma sort_keys_inv {A E} (key : A -> E + Z) (xs : list A)
    (keyed : list (Z * A)) :
  sort_keys key xs = inr keyed ->
  map snd keyed = xs /\ Forall (fun p => key (snd p) = inr (fst p)) keyed.
Proof.
  revert keyed. induction xs as [|x xs IH]; intros keyed; cbn [sort_keys].
  - intros [= <-]. split; [reflexivity|constructor].
  - destruct (key x) as [e|k] eqn:Hk; [discriminate|].
    destruct (sort_keys key xs) as [e|keyed'] eqn:Hs; [discriminate|].
    intros [= <-]. destruct (IH _ eq_refl) as [Hm Hf].
    split; [cbn [map snd]; now rewrite Hm|].
    constructor; [exact Hk|exact Hf].
Qed.

Lemma sort_keys_ok {A E} (key : A -> E + Z) (k : A -> Z) (xs : list A) :
  Forall (fun x => key x = inr (k x)) xs ->
  sort_keys key xs = inr (map (fun x => (k x, x)) xs).
Proof.
  induction 1 as [|x xs Hx Hxs IH]; cbn [sort_keys map]; [reflexivity|].
  now rewrite Hx, IH.
Qed.

Lemma insert_by_key_perm {A} (x : Z * A) (l : list (Z * A)) :
  insert_by_key x l ≡ₚ x :: l.
Proof.
  induction l as [|y l IH]; cbn [insert_by_key]; [reflexivity|].
  destruct (fst x <=? fst y); [reflexivity|].
  rewrite IH. apply Permutation_swap.
Qed.

Lemma stable_sort_perm {A} (l : list (Z * A)) : stable_sort l ≡ₚ l.
Proof.
  induction l as [|x l IH]; [reflexivity|].
  unfold stable_sort in *. cbn [foldr]. rewrite insert_by_key_perm.
  now rewrite IH.
Qed.

Lemma insert_by_key_sorted {A} (x : Z * A) (l : list (Z * A)) :
  StronglySorted (fun a b => fst a <= fst b) l ->
  StronglySorted (fun a b => fst a <= fst b) (insert_by_key x l).
Proof.
  induction 1 as [|y l Hs IH Hy]; cbn [insert_by_key].
  - repeat constructor.
  - destruct (Z.leb_spec (fst x) (fst y)) as [Hle|Hlt].
    + constructor; [now constructor|].
      constructor; [exact Hle|].
      eapply Forall_impl; [exact Hy|]. cbn beta. intros; lia.
    + constructor; [exact IH|].
      rewrite insert_by_key_perm. constructor; [lia|exact Hy].
Qed.

Lemma stable_sort_sorted {A} (l : list (Z * A)) :
  StronglySorted (fun a b => fst a <= fst b) (stable_sort l).
Proof.
  induction l as [|x l IH]; [constructor|].
  unfold stable_sort in *. cbn [foldr]. now apply insert_by_key_sorted.
Qed.

Lemma sorted_lookup {A} (R : A -> A -> Prop) (l : list A) (i j : nat)
    (a b : A) :
  StronglySorted R l -> l !! i = Some a -> l !! j = Some b ->
  (i < j)%nat -> R a b.
Proof.
  intros Hs. revert i j. induction Hs as [|x l Hs IH Hx]; intros i j.
  - now rewrite lookup_nil.
  - intros Ha Hb Hij. destruct j as [|j]; [lia|].
    destruct i as [|i]; cbn in Ha, Hb.
    + injection Ha as <-. rewrite Forall_forall in Hx. apply Hx.
      now apply list_elem_of_lookup_2 in Hb.
    + apply (IH i j Ha Hb). lia.
Qed.

(** A sort that completes returns the elements that it was given, in the
    order of their keys. *)
Lemma sort_by_inv {A E} (key : A -> E + Z) (xs sorted : list A) :
  sort_by key xs = inr sorted ->
  sorted ≡ₚ xs
  /\ forall i j a b,
       sorted !! i = Some a -> sorted !! j = Some b -> (i < j)%nat ->
       exists ka kb, key a = inr ka /\ key b = inr kb /\ ka <= kb.
Proof.
  unfold sort_by.
  destruct (sort_keys key xs) as [e|keyed] eqn:Hk; [discriminate|].
  intros [= <-]. destruct (sort_keys_inv _ _ _ Hk) as [Hm Hf]. split.
  - rewrite <- Hm. apply Permutation_map, stable_sort_perm.
  - intros i j a b Ha Hb Hij.
    change (map snd (stable_sort keyed)) with (snd <$> stable_sort keyed)
      in Ha, Hb.
    rewrite list_lookup_fmap in Ha, Hb.
    destruct (stable_sort keyed !! i) as [[ka a']|] eqn:Hi; [|discriminate].
    destruct (stable_sort keyed !! j) as [[kb b']|] eqn:Hj; [|discriminate].
    cbn in Ha, Hb. injection Ha as ->. injection Hb as ->.
    exists ka, kb.
    assert (forall p, p ∈ stable_sort keyed -> key (snd p) = inr (fst p))
      as Hall.
    { intros p Hp. rewrite stable_sort_perm in Hp.
      rewrite Forall_forall in Hf. now apply Hf. }
    split; [exact (Hall _ (list_elem_of_lookup_2 _ _ _ Hi))|].
    split; [exact (Hall _ (list_elem_of_lookup_2 _ _ _ Hj))|].
    exact (sorted_lookup _ _ _ _ _ _ (stable_sort_sorted keyed) Hi Hj Hij).
Qed.

Section CliFacts.

Variable py_int : string -> option Z.
Variable path_suffix : string -> string.

Local Abbreviation save_id := (get_save_id_from_path py_int).
Local Abbreviation key :=
  (fun x : string * list byte => get_save_id_from_path py_int (fst x)).
Local Abbreviation selected :=
  (fun child : string * list byte =>
     match get_save_id_from_path py_int (fst child) with
     | inr _ => String.eqb (path_suffix (fst child)) ".ess"
     | inl _ => false
     end).
Local Abbreviation sidecar :=
  (fun (directory : list (string * list byte))
       (child : string * list byte) =>
     (fun data => (skse_file_of (fst child), data))
       <$> file_at directory (skse_file_of (fst child))).

Lemma cli_compress_step_selected (directory : list (string * list byte))
    (ess_files skse_files : list (string * list byte))
    (child : string * list byte) :
  cli_compress_step py_int path_suffix directory (ess_files, skse_files)
    child
  = if selected child
    then (ess_files ++ [child],
          skse_files ++ option_list (sidecar directory child))
    else (ess_files, skse_files).
Proof.
  unfold cli_compress_step, get_save_id_from_path.
  destruct (String.prefix "Save" (fst child)); cbn [negb]; [|reflexivity].
  destruct (py_int _); [|reflexivity].
  destruct (String.eqb _ _); [|reflexivity].
  destruct (file_at directory _); cbn; [reflexivity|].
  now rewrite app_nil_r.
Qed.

Lemma cli_compress_loop (directory children : list (string * list byte))
    (ess_files skse_files : list (string * list byte)) :
  fold_left (cli_compress_step py_int path_suffix directory) children
    (ess_files, skse_files)
  = (ess_files ++ List.filter selected children,
     skse_files ++ omap (sidecar directory) (List.filter selected children)).
Proof.
  revert ess_files skse_files.
  induction children as [|child children IH]; intros ess_files skse_files;
    cbn [fold_left List.filter].
  - cbn. now rewrite !app_nil_r.
  - rewrite cli_compress_step_selected.
    destruct (selected child) eqn:Hsel; rewrite IH; [|reflexivity].
    cbn [omap list_omap].
    destruct (file_at directory (skse_file_of (fst child))) as [data|];
      cbn [fmap option_fmap option_map option_list];
      now rewrite <- !app_assoc.
Qed.

(** X21. The saves that [cli_compress] hands over are the files of the
    input directory whose name has a save id and the suffix ['.ess'], each
    as many times as the directory lists it, in the order of their ids. *)
Theorem cli_saves_selected (directory ess_files skse_files
                            : list (string * list byte)) :
  cli_compress_files py_int path_suffix directory
  = inr (ess_files, skse_files) ->
  (forall x, x ∈ ess_files <->
     x ∈ directory /\ (exists id, save_id (fst x) = inr id)
     /\ path_suffix (fst x) = ".ess"%string)
  /\ (NoDup directory -> NoDup ess_files)
  /\ (forall i j a b,
        ess_files !! i = Some a -> ess_files !! j = Some b -> (i < j)%nat ->
        exists ka kb,
          save_id (fst a) = inr ka /\ save_id (fst b) = inr kb /\ ka <= kb).
Proof.
  unfold cli_compress_files. rewrite cli_compress_loop. cbn [app].
  destruct (sort_by _ (List.filter _ _)) as [e|ess] eqn:He; [discriminate|].
  destruct (sort_by _ (omap _ _)) as [e|skse] eqn:Hs; [discriminate|].
  intros [= <- <-].
  destruct (sort_by_inv _ _ _ He) as [Hperm Hsorted].
  split; [|split; [|exact Hsorted]].
  - intros x. rewrite Hperm, list_elem_of_In, filter_In, <- list_elem_of_In.
    split; intros [Hx Hsel]; (split; [exact Hx|]).
    + destruct (save_id (fst x)) as [e|id]; [discriminate|].
      split; [now exists id|]. now apply String.eqb_eq.
    + destruct Hsel as [[id ->] Hsuf]. now apply String.eqb_eq.
  - intros Hnd. rewrite Hperm. apply NoDup_ListNoDup, List.NoDup_filter.
    now apply NoDup_ListNoDup.
Qed.

End CliFacts.

Lemma cli_saves_selected_witness :
  (forall x,
     x ∈ [("Save3_Hero.ess"%string, sample_stored);
          ("Save12_Hero.ess"%string, sample_stored)]
     <-> x ∈ sample_directory
         /\ (exists id, get_save_id_from_path digits_int (fst x) = inr id)
         /\ simple_suffix (fst x) = ".ess"%string)
  /\ (NoDup sample_directory ->
      NoDup [("Save3_Hero.ess"%string, sample_stored);
             ("Save12_Hero.ess"%string, sample_stored)])
  /\ (forall i j a b,
        [("Save3_Hero.ess"%string, sample_stored);
         ("Save12_Hero.ess"%string, sample_stored)] !! i = Some a ->
        [("Save3_Hero.ess"%string, sample_stored);
         ("Save12_Hero.ess"%string, sample_stored)] !! j = Some b ->
        (i < j)%nat ->
        exists ka kb,
          get_save_id_from_path digits_int (fst a) = inr ka
          /\ get_save_id_from_path digits_int (fst b) = inr kb
          /\ ka <= kb).
Proof.
  apply (cli_saves_selected digits_int simple_suffix sample_directory
           [("Save3_Hero.ess"%string, sample_stored);
            ("Save12_Hero.ess"%string, sample_stored)]
           [("Save3_Hero.skse"%string, [x07; x08])]).
  vm_compute. reflexivity.
Defined.

(** Names that end with a suffix. *)

Lemma string_app_cons (c : ascii) (a b : string) :
  String c a +:+ b = String c (a +:+ b).
Proof. reflexivity. Qed.

Lemma string_length_app (a b : string) :
  String.length (a +:+ b) = (String.length a + String.length b)%nat.
Proof. induction a as [|c a IH]; simpl; [reflexivity|now rewrite IH]. Qed.

Lemma substring_app (a b : string) :
  String.substring 0 (String.length a) (a +:+ b) = a.
Proof.
  induction a as [|c a IH]; simpl.
  - now destruct b.
  - now rewrite IH.
Qed.

Lemma drop_last_app (a b : string) :
  drop_last (String.length b) (a +:+ b) = a.
Proof.
  unfold drop_last. rewrite string_length_app.
  replace (String.length a + String.length b - String.length b)%nat
    with (String.length a) by lia.
  apply substring_app.
Qed.

Lemma skse_file_of_ess (base : string) :
  skse_file_of (base +:+ ".ess") = base +:+ ".skse".
Proof.
  unfold skse_file_of.
  change 4%nat with (String.length ".ess").
  now rewrite drop_last_app.
Qed.

Lemma ess_is_not_skse (base base' : string) :
  base +:+ ".ess" <> base' +:+ ".skse".
Proof.
  intros H.
  pose proof (f_equal String.length H) as Hl.
  rewrite !string_length_app in Hl. cbn in Hl.
  pose proof (String.append_correct2 base ".ess" 3) as H1.
  pose proof (String.append_correct2 base' ".skse" 4) as H2.
  rewrite H in H1.
  replace (3 + String.length base)%nat with (4 + String.length base')%nat
    in H1 by lia.
  rewrite <- H2 in H1. discriminate.
Qed.

Lemma skse_name_inj (base base' : string) :
  base +:+ ".skse" = base' +:+ ".skse" -> base = base'.
Proof.
  intros H.
  rewrite <- (drop_last_app base ".skse"), <- (drop_last_app base' ".skse").
  now rewrite H.
Qed.

Lemma before_underscore_app (base : string) :
  (forall t, before_underscore (base +:+ t) = before_underscore base)
  \/ (forall t, before_underscore (base +:+ t) = base +:+ before_underscore t).
Proof.
  induction base as [|c base IH]; [now right|].
  destruct (Ascii.eqb c "_") eqn:E.
  - left. intros t. rewrite string_app_cons. cbn [before_underscore].
    now rewrite E.
  - destruct IH as [IH|IH]; [left|right]; intros t;
      rewrite string_app_cons; cbn [before_underscore];
      now rewrite E, IH.
Qed.

Lemma prefix_empty (s : string) : String.prefix "" s = true.
Proof. now destruct s. Qed.

Lemma prefix_Save_app (base : string) :
  String.prefix "Save" (base +:+ ".ess") = true ->
  exists rest, base = "Save" +:+ rest.
Proof.
  destruct base as [|c1 [|c2 [|c3 [|c4 rest]]]]; unfold String.append;
    cbn [String.prefix];
    repeat (destruct (ascii_dec _ _) as [<-|]; try discriminate);
    try (intros H; vm_compute in H; discriminate).
  intros _. now exists rest.
Qed.

(** A stable sort commutes with dropping elements and with replacing
    them by elements of the same key. *)

Lemma insert_by_key_head {A} (x : Z * A) (l : list (Z * A)) :
  Forall (fun y => fst x <= fst y) l -> insert_by_key x l = x :: l.
Proof.
  destruct l as [|y l]; [reflexivity|]. cbn [insert_by_key].
  intros H. apply Forall_cons in H as [H _].
  destruct (Z.leb_spec (fst x) (fst y)); [reflexivity|lia].
Qed.

Lemma Forall_omap_key {A B} (g : A -> option B) (k : Z)
    (l : list (Z * A)) :
  Forall (fun y => k <= fst y) l ->
  Forall (fun y => k <= fst y)
         (omap (fun p => (fun b => (fst p, b)) <$> g (snd p)) l).
Proof.
  induction 1 as [|[ky y] l Hy Hl IH]; cbn [omap list_omap];
    [constructor|].
  cbn [fst snd]. destruct (g y); cbn; [|exact IH].
  constructor; [exact Hy|exact IH].
Qed.

Lemma omap_insert_by_key {A B} (g : A -> option B) (x : Z * A)
    (l : list (Z * A)) :
  StronglySorted (fun a b => fst a <= fst b) l ->
  omap (fun p => (fun b => (fst p, b)) <$> g (snd p)) (insert_by_key x l)
  = match g (snd x) with
    | Some b =>
        insert_by_key (fst x, b)
          (omap (fun p => (fun b => (fst p, b)) <$> g (snd p)) l)
    | None => omap (fun p => (fun b => (fst p, b)) <$> g (snd p)) l
    end.
Proof.
  set (F := fun p : Z * A => (fun b => (fst p, b)) <$> g (snd p)).
  assert (forall p q, omap F (p :: q)
                      = match g (snd p) with
                        | Some b => (fst p, b) :: omap F q
                        | None => omap F q
                        end) as Hcons.
  { intros p q. cbn [omap list_omap]. unfold F at 1.
    now destruct (g (snd p)). }
  induction 1 as [|[ky y] l Hs IH Hy]; cbn [insert_by_key].
  - rewrite Hcons. now destruct (g (snd x)).
  - cbn [fst]. destruct (Z.leb_spec (fst x) ky) as [Hle|Hlt].
    + rewrite (Hcons x). destruct (g (snd x)) as [b|]; [|reflexivity].
      symmetry. apply insert_by_key_head.
      apply (Forall_omap_key g (fst x)).
      constructor; [exact Hle|].
      eapply Forall_impl; [exact Hy|]. cbn. intros; lia.
    + rewrite (Hcons (ky, y)), IH, (Hcons (ky, y)). cbn [fst snd].
      destruct (g y) as [b'|]; [|reflexivity].
      destruct (g (snd x)) as [b|]; [|reflexivity].
      cbn [insert_by_key fst].
      destruct (Z.leb_spec (fst x) ky); [lia|reflexivity].
Qed.

Lemma stable_sort_omap {A B} (g : A -> option B) (l : list (Z * A)) :
  omap (fun p => (fun b => (fst p, b)) <$> g (snd p)) (stable_sort l)
  = stable_sort (omap (fun p => (fun b => (fst p, b)) <$> g (snd p)) l).
Proof.
  induction l as [|x l IH]; [reflexivity|].
  change (stable_sort (x :: l)) with (insert_by_key x (stable_sort l)).
  rewrite omap_insert_by_key by apply stable_sort_sorted.
  cbn [omap list_omap]. rewrite IH.
  destruct (g (snd x)); reflexivity.
Qed.

Lemma sort_keys_omap {A B E} (key : A -> E + Z) (key' : B -> E + Z)
    (g : A -> option B) (xs : list A) (keyed : list (Z * A)) :
  sort_keys key xs = inr keyed ->
  Forall (fun x => forall y, g x = Some y -> key' y = key x) xs ->
  sort_keys key' (omap g xs)
  = inr (omap (fun p => (fun b => (fst p, b)) <$> g (snd p)) keyed).
Proof.
  intros Hk Hall. revert keyed Hk.
  induction Hall as [|x xs Hx Hxs IH]; intros keyed; cbn [sort_keys].
  - now intros [= <-].
  - destruct (key x) as [e|k] eqn:Ek; [discriminate|].
    destruct (sort_keys key xs) as [e|keyed'] eqn:Es; [discriminate|].
    intros [= <-]. cbn [omap list_omap fst snd].
    destruct (g x) as [y|] eqn:Eg;
      cbn [fmap option_fmap option_map sort_keys].
    + rewrite (Hx y eq_refl), (IH _ eq_refl). reflexivity.
    + exact (IH _ eq_refl).
Qed.

Lemma map_snd_omap {A B} (g : A -> option B) (l : list (Z * A)) :
  map snd (omap (fun p => (fun b => (fst p, b)) <$> g (snd p)) l)
  = omap g (map snd l).
Proof.
  induction l as [|[k x] l IH]; [reflexivity|].
  cbn [omap list_omap map fst snd].
  destruct (g x); cbn; now rewrite IH.
Qed.

Lemma sort_by_omap {A B E} (key : A -> E + Z) (key' : B -> E + Z)
    (g : A -> option B) (xs sorted : list A) :
  sort_by key xs = inr sorted ->
  Forall (fun x => forall y, g x = Some y -> key' y = key x) xs ->
  sort_by key' (omap g xs) = inr (omap g sorted).
Proof.
  unfold sort_by.
  destruct (sort_keys key xs) as [e|keyed] eqn:Hk; [discriminate|].
  intros [= <-] Hall.
  rewrite (sort_keys_omap key key' g xs keyed Hk Hall).
  now rewrite <- stable_sort_omap, map_snd_omap.
Qed.

Lemma NoDup_filter_fst {A B} (f : A * B -> bool) (l : list (A * B)) :
  NoDup (map fst l) -> NoDup (map fst (List.filter f l)).
Proof.
  induction l as [|x l IH]; cbn [map List.filter]; [trivial|].
  intros [Hx Hl]%NoDup_cons. destruct (f x); [|now apply IH].
  cbn [map]. apply NoDup_cons. split; [|now apply IH].
  intros Hin. apply Hx.
  apply list_elem_of_fmap in Hin as (y & -> & Hy).
  apply list_elem_of_fmap. exists y. split; [reflexivity|].
  apply list_elem_of_In. apply list_elem_of_In, filter_In in Hy. tauto.
Qed.

Lemma file_at_NoDup (directory : list (string * list byte))
    (x : string * list byte) :
  NoDup (map fst directory) -> x ∈ directory ->
  file_at directory (fst x) = Some (snd x).
Proof.
  induction directory as [|[name data] directory IH]; cbn [map file_at].
  - intros _ H. now apply elem_of_nil in H.
  - intros [Hn Hd]%NoDup_cons [->|Hx]%elem_of_cons.
    + cbn [fst snd]. now rewrite String.eqb_refl.
    + destruct (String.eqb_spec name (fst x)) as [->|Hne]; [|now apply IH].
      exfalso. apply Hn. apply list_elem_of_fmap. now exists x.
Qed.

Section CliSidecars.

Variable py_int : string -> option Z.
Variable path_suffix : string -> string.

Local Abbreviation save_id := (get_save_id_from_path py_int).
Local Abbreviation key :=
  (fun x : string * list byte => get_save_id_from_path py_int (fst x)).
Local Abbreviation selected :=
  (fun child : string * list byte =>
     match get_save_id_from_path py_int (fst child) with
     | inr _ => String.eqb (path_suffix (fst child)) ".ess"
     | inl _ => false
     end).
Local Abbreviation sidecar :=
  (fun (directory : list (string * list byte))
       (child : string * list byte) =>
     (fun data => (skse_file_of (fst child), data))
       <$> file_at directory (skse_file_of (fst child))).

(** [int] takes no text with a dot, and the suffix of a name is an end
    of the name. *)
Hypothesis py_int_ess : forall text, py_int (text +:+ ".ess") = None.
Hypothesis path_suffix_ess :
  forall name, path_suffix name = ".ess"%string ->
               exists base, name = base +:+ ".ess".

Variable path_stem : string -> string.

(** The stem of a name drops its suffix. *)
Hypothesis path_stem_sidecar :
  forall base, String.prefix "Save" base = true ->
               path_stem (base +:+ ".skse") = path_stem (base +:+ ".ess").

Lemma save_id_sidecar (base : string) (id : Z) :
  save_id (base +:+ ".ess") = inr id ->
  String.prefix "Save" base = true /\ save_id (base +:+ ".skse") = inr id.
Proof.
  unfold get_save_id_from_path.
  destruct (String.prefix "Save" (base +:+ ".ess")) eqn:Hp; [|discriminate].
  cbn [negb]. destruct (prefix_Save_app _ Hp) as [rest ->].
  intros H. split; [apply (prefix_empty rest)|]. revert H.
  change (String.prefix "Save" (("Save" +:+ rest) +:+ ".skse"))
    with (String.prefix "" (rest +:+ ".skse")).
  rewrite prefix_empty. cbn [negb].
  destruct (before_underscore_app ("Save" +:+ rest)) as [Hb|Hb];
    rewrite !Hb; [trivial|].
  change (string_drop 4 (("Save" +:+ rest) +:+ before_underscore ".ess"))
    with (rest +:+ ".ess").
  now rewrite py_int_ess.
Qed.

Lemma selected_inv (x : string * list byte) :
  selected x = true ->
  exists base id,
    fst x = base +:+ ".ess" /\ skse_file_of (fst x) = base +:+ ".skse"
    /\ String.prefix "Save" base = true
    /\ save_id (fst x) = inr id /\ save_id (base +:+ ".skse") = inr id.
Proof.
  cbv beta.
  destruct (save_id (fst x)) as [e|id] eqn:Hid; [discriminate|].
  intros Hs%String.eqb_eq.
  destruct (path_suffix_ess _ Hs) as [base Hb].
  rewrite Hb in Hid |- *. exists base, id.
  destruct (save_id_sidecar base id Hid) as [Hp Hk].
  now rewrite skse_file_of_ess.
Qed.

Lemma sidecar_key (directory : list (string * list byte))
    (x y : string * list byte) :
  selected x = true -> sidecar directory x = Some y -> key y = key x.
Proof.
  intros Hsel Hy.
  destruct (selected_inv x Hsel) as (base & id & Hx & Hs & _ & Hid & Hid').
  cbv beta in Hy.
  destruct (file_at directory (skse_file_of (fst x))) as [data|];
    [|discriminate].
  cbn in Hy. injection Hy as <-. cbn [fst].
  now rewrite Hid, Hs, Hid'.
Qed.

Lemma sidecar_inv (directory : list (string * list byte))
    (x y : string * list byte) :
  selected x = true -> sidecar directory x = Some y ->
  exists base,
    fst x = base +:+ ".ess" /\ fst y = base +:+ ".skse"
    /\ String.prefix "Save" base = true
    /\ file_at directory (fst y) = Some (snd y).
Proof.
  intros Hsel Hy.
  destruct (selected_inv x Hsel) as (base & id & Hx & Hs & Hp & _).
  cbv beta in Hy.
  destruct (file_at directory (skse_file_of (fst x))) as [data|] eqn:Hf;
    [|discriminate].
  cbn in Hy. injection Hy as <-. cbn [fst snd].
  exists base. rewrite <- Hs. now repeat split.
Qed.

Lemma NoDup_sidecars (directory l : list (string * list byte)) :
  (forall x, x ∈ l -> selected x = true) ->
  NoDup (map fst l) -> NoDup (map fst (omap (sidecar directory) l)).
Proof.
  induction l as [|x l IH]; intros Hsel; cbn [map]; [constructor|].
  intros [Hx Hnd]%NoDup_cons.
  assert (NoDup (map fst (omap (sidecar directory) l))) as IH'.
  { apply IH; [|exact Hnd]. intros z Hz. apply Hsel. now right. }
  cbn [omap list_omap].
  destruct (sidecar directory x) as [s|] eqn:Hs; cbv beta in Hs;
    rewrite Hs; [|exact IH'].
  cbn [map]. apply NoDup_cons. split; [|exact IH'].
  intros (y & Hxy & Hy)%list_elem_of_fmap.
  apply list_elem_of_omap in Hy as (z & Hz & Hy).
  destruct (sidecar_inv directory x s (Hsel x ltac:(now left)) Hs)
    as (base & H1 & H2 & _).
  destruct (sidecar_inv directory z y (Hsel z ltac:(now right)) Hy)
    as (base' & H1' & H2' & _).
  rewrite H2, H2' in Hxy. apply skse_name_inj in Hxy as ->.
  apply Hx. apply list_elem_of_fmap. exists z. split; [|exact Hz].
  now rewrite H1, H1'.
Qed.

Lemma cli_compress_files_eq (directory : list (string * list byte)) :
  exists ess_files,
    ess_files ≡ₚ List.filter selected directory
    /\ cli_compress_files py_int path_suffix directory
       = inr (ess_files, omap (sidecar directory) ess_files).
Proof.
  unfold cli_compress_files. rewrite cli_compress_loop. cbn [app].
  assert (Forall (fun x => key x
                           = inr (match key x with inr id => id | inl _ => 0 end))
                 (List.filter selected directory)) as Hkeys.
  { apply Forall_forall. intros x Hx.
    apply list_elem_of_In, filter_In in Hx as [_ Hx].
    now destruct (save_id (fst x)). }
  pose proof (sort_keys_ok key _ _ Hkeys) as Hk.
  destruct (sort_by key (List.filter selected directory)) as [e|ess] eqn:He.
  { unfold sort_by in He. rewrite Hk in He. discriminate. }
  rewrite (sort_by_omap key key (sidecar directory) _ ess He).
  - exists ess. split; [|reflexivity].
    now destruct (sort_by_inv _ _ _ He).
  - apply Forall_forall. intros x Hx y Hy.
    apply list_elem_of_In, filter_In in Hx as [_ Hx].
    exact (sidecar_key directory x y Hx Hy).
Qed.

(** X22. [cli_compress] raises nothing before it calls
    [compress_files]: the key of the second sort never fails, since a
    sidecar has the save id of its save. The sidecars that it hands over
    are the ['.skse'] siblings of the saves that it hands over, for each
    save that has one in the input directory, in the order of the saves. *)
Theorem cli_sidecars_follow_saves (directory : list (string * list byte)) :
  exists ess_files skse_files,
    cli_compress_files py_int path_suffix directory
    = inr (ess_files, skse_files)
    /\ skse_files = omap (sidecar directory) ess_files
    /\ forall x, x ∈ ess_files ->
         exists base id,
           fst x = base +:+ ".ess"
           /\ skse_file_of (fst x) = base +:+ ".skse"
           /\ save_id (fst x) = inr id
           /\ save_id (base +:+ ".skse") = inr id.
Proof.
  destruct (cli_compress_files_eq directory) as (ess & Hperm & Heq).
  exists ess, (omap (sidecar directory) ess).
  split; [exact Heq|]. split; [reflexivity|].
  intros x Hx. rewrite Hperm in Hx.
  apply list_elem_of_In, filter_In in Hx as [_ Hx].
  destruct (selected_inv x Hx) as (base & id & H1 & H2 & _ & H3 & H4).
  now exists base, id.
Qed.

Lemma cli_lists_facts (directory ess_files skse_files
                       : list (string * list byte)) :
  NoDup (map fst directory) ->
  cli_compress_files py_int path_suffix directory
  = inr (ess_files, skse_files) ->
  NoDup (map fst ess_files ++ map fst skse_files)
  /\ (forall x, x ∈ ess_files -> x ∈ directory)
  /\ (forall y, y ∈ skse_files ->
        exists x base,
          x ∈ ess_files /\ fst x = base +:+ ".ess"
          /\ fst y = base +:+ ".skse"
          /\ String.prefix "Save" base = true
          /\ file_at directory (fst y) = Some (snd y)).
Proof.
  intros Hnd Hc.
  destruct (cli_compress_files_eq directory) as (ess & Hperm & Heq).
  rewrite Heq in Hc. injection Hc as <- <-.
  assert (forall x, x ∈ ess -> x ∈ directory /\ selected x = true) as Hess.
  { intros x Hx. rewrite Hperm in Hx.
    apply list_elem_of_In, filter_In in Hx as [Hx Hs].
    split; [now apply list_elem_of_In|exact Hs]. }
  assert (forall y, y ∈ omap (sidecar directory) ess ->
            exists x base,
              x ∈ ess /\ fst x = base +:+ ".ess"
              /\ fst y = base +:+ ".skse"
              /\ String.prefix "Save" base = true
              /\ file_at directory (fst y) = Some (snd y)) as Hskse.
  { intros y (x & Hx & Hy)%list_elem_of_omap.
    destruct (sidecar_inv directory x y (proj2 (Hess x Hx)) Hy)
      as (base & H).
    now exists x, base. }
  assert (NoDup (map fst ess)) as Hnd1.
  { rewrite Hperm. now apply NoDup_filter_fst. }
  split; [|split; [intros x Hx; apply (Hess x Hx)|exact Hskse]].
  apply NoDup_app. split; [exact Hnd1|]. split.
  - intros name (x & -> & Hx)%list_elem_of_fmap
                (y & Hxy & Hy)%list_elem_of_fmap.
    destruct (selected_inv x (proj2 (Hess x Hx))) as (base & _ & H1 & _).
    destruct (Hskse y Hy) as (_ & base' & _ & _ & H2 & _).
    rewrite H1, H2 in Hxy. exact (ess_is_not_skse _ _ Hxy).
  - apply NoDup_sidecars; [|exact Hnd1]. intros x Hx. apply (Hess x Hx).
Qed.

Lemma cli_stems (directory ess_files skse_files
                 : list (string * list byte)) :
  NoDup (map fst directory) ->
  cli_compress_files py_int path_suffix directory
  = inr (ess_files, skse_files) ->
  forall name, name ∈ map fst skse_files ->
    path_stem name ∈ map (fun x => path_stem (fst x)) ess_files.
Proof.
  intros Hnd Hc name (y & -> & Hy)%list_elem_of_fmap.
  destruct (cli_lists_facts _ _ _ Hnd Hc) as (_ & _ & Hskse).
  destruct (Hskse y Hy) as (x & base & Hx & H1 & H2 & Hp & _).
  apply list_elem_of_fmap. exists x. split; [|exact Hx].
  now rewrite H1, H2, path_stem_sidecar.
Qed.

(** X23. On a directory whose files have distinct names, the two lists
    that [cli_compress] hands over name each file once, a file cannot be
    in both, each file comes with the contents that the directory has
    under its name, and the stem of each sidecar is the stem of a save of
    the first list: the restore pass finds a time for every sidecar. *)
Theorem cli_lists_restorable (directory ess_files skse_files
                              : list (string * list byte)) :
  NoDup (map fst directory) ->
  cli_compress_files py_int path_suffix directory
  = inr (ess_files, skse_files) ->
  NoDup (map fst ess_files ++ map fst skse_files)
  /\ (forall x, x ∈ ess_files ++ skse_files ->
        file_at directory (fst x) = Some (snd x))
  /\ (forall name, name ∈ map fst skse_files ->
        path_stem name ∈ map (fun x => path_stem (fst x)) ess_files).
Proof.
  intros Hnd Hc.
  destruct (cli_lists_facts _ _ _ Hnd Hc) as (Hnames & Hess & Hskse).
  split; [exact Hnames|]. split; [|exact (cli_stems _ _ _ Hnd Hc)].
  intros x [Hx|Hx]%elem_of_app.
  - apply file_at_NoDup; [exact Hnd|exact (Hess x Hx)].
  - now destruct (Hskse x Hx) as (_ & _ & _ & _ & _ & _ & H).
Qed.

End CliSidecars.

Lemma file_at_name (directory : list (string * list byte)) (name : string)
    (data : list byte) :
  file_at directory name = Some data -> name ∈ map fst directory.
Proof.
  induction directory as [|[name' data'] directory IH]; cbn [file_at map];
    [discriminate|].
  destruct (String.eqb_spec name' name) as [->|_].
  - intros _. now left.
  - intros H. right. now apply IH.
Qed.

Section CliRoundTrip.

Variable py_int : string -> option Z.
Variable path_suffix : string -> string.
Variable lz4_block_compress : list byte -> option (list byte).
Variable lz4_block_decompress : list byte -> Z -> option (list byte).
Variable zstd_stream_writer : Z -> Z -> list byte -> list byte.
Variable zstd_stream_reader : list byte -> list byte.
Variable utf8_encode : string -> list byte.
Variable utf8_decode : list byte -> option string.
Variable path_stem : string -> string.

Hypothesis py_int_ess : forall text, py_int (text +:+ ".ess") = None.
Hypothesis path_suffix_ess :
  forall name, path_suffix name = ".ess"%string ->
               exists base, name = base +:+ ".ess".
Hypothesis path_stem_sidecar :
  forall base, String.prefix "Save" base = true ->
               path_stem (base +:+ ".skse") = path_stem (base +:+ ".ess").
Hypothesis utf8_roundtrip :
  forall name, utf8_decode (utf8_encode name) = Some name.
Hypothesis zstd_roundtrip :
  forall compression_level threads written,
    zstd_stream_reader (zstd_stream_writer compression_level threads written)
    = written.

(** X24. What [cli_compress] packs, [decompress_files] restores. When
    the files of the input directory have distinct names, the archive is
    written, every save of the directory that decodes has a compressed
    serialisation, and the output directory has none of the names of the
    input directory, the restore completes and consumes the stream: no
    destination exists, and no sidecar misses its save. *)
Theorem cli_pack_then_restore (input_directory : list (string * list byte))
    (compression_level threads : Z) (archive : list byte)
    (output_directory : gmap string file) :
  NoDup (map fst input_directory) ->
  cli_compress py_int path_suffix lz4_block_decompress zstd_stream_writer
    utf8_encode input_directory compression_level threads
  = inr (Ok archive) ->
  (forall x r, x ∈ input_directory ->
     ESS_init lz4_block_decompress (snd x) = Ok r ->
     exists data, get_compressed lz4_block_compress r = Ok data) ->
  (forall name, name ∈ map fst input_directory ->
     output_directory !! name = None) ->
  exists ess_files skse_files st,
    cli_compress_files py_int path_suffix input_directory
    = inr (ess_files, skse_files)
    /\ compress_files lz4_block_decompress zstd_stream_writer utf8_encode
         ess_files skse_files compression_level threads = Ok archive
    /\ decompress_files lz4_block_compress lz4_block_decompress
         zstd_stream_reader utf8_decode path_stem archive output_directory
       = Done st
    /\ decompressor st = [].
Proof.
  intros Hnd Hc Hcomp Hfree. unfold cli_compress in Hc.
  destruct (cli_compress_files py_int path_suffix input_directory)
    as [e|[ess skse]] eqn:Hfiles; [discriminate|].
  injection Hc as Hc. exists ess, skse.
  destruct (cli_lists_facts py_int path_suffix py_int_ess path_suffix_ess
              _ _ _ Hnd Hfiles) as (Hnames & Hess & Hskse).
  pose proof (cli_stems py_int path_suffix py_int_ess path_suffix_ess
                path_stem path_stem_sidecar _ _ _ Hnd Hfiles) as Hstems.
  pose proof Hc as Hc0. unfold compress_files in Hc.
  destruct (compress_stream _ _ _ _) as [stream|] eqn:Hs; [|discriminate].
  cbn [res_map] in Hc. apply Ok_inj in Hc. subst archive.
  apply compress_stream_inv in Hs as (Hn1 & Hn2 & Hss & records & Hrs & ->).
  set (entries := zip ess records).
  assert (Forall (fun e : (string * list byte) * ESS =>
                    (ESS_init lz4_block_decompress (snd (fst e)) = Ok (snd e)
                     /\ len (utf8_encode (fst (fst e))) < 2 ^ 16
                     /\ len (stored_bytes (snd e)) < 2 ^ 32)
                    /\ exists data,
                         get_compressed lz4_block_compress (snd e) = Ok data)
                 entries) as Hes.
  { apply Forall_forall. intros [x r] He.
    pose proof (Forall2_zip _ _ _ Hrs) as Hz.
    rewrite Forall_forall in Hz. specialize (Hz _ He). cbn [fst snd] in *.
    split; [exact Hz|]. apply (Hcomp x); [|apply Hz].
    apply Hess. apply elem_of_zip_l in He. exact He. }
  assert (map (fun e : (string * list byte) * ESS => fst (fst e)) entries
          = map fst ess) as Hentries
    by apply (zip_firsts _ fst _ _ Hrs).
  assert (length entries = length ess) as Hlen.
  { unfold entries. rewrite length_zip.
    apply Forall2_length in Hrs. lia. }
  assert (forall name, name ∈ map fst ess ++ map fst skse ->
            output_directory !! name = None) as Hfree'.
  { intros name [Hn|Hn]%elem_of_app; apply Hfree.
    - apply list_elem_of_fmap in Hn as (x & -> & Hx).
      apply list_elem_of_fmap. exists x. split; [reflexivity|].
      exact (Hess x Hx).
    - apply list_elem_of_fmap in Hn as (y & -> & Hy).
      destruct (Hskse y Hy) as (_ & _ & _ & _ & _ & _ & Hf).
      exact (file_at_name _ _ _ Hf). }
  rewrite (zip_with_as_map _ _ _ _ Hrs). fold entries. rewrite <- Hlen.
  pose proof (decompress_packed lz4_block_compress lz4_block_decompress
                zstd_stream_writer zstd_stream_reader utf8_encode
                utf8_decode path_stem utf8_roundtrip zstd_roundtrip
                entries skse compression_level threads output_directory
                Hes Hss) as Hd.
  rewrite Hd.
  2:{ lia. }
  2:{ exact Hn2. }
  2:{ now rewrite Hentries. }
  2:{ now rewrite Hentries. }
  2:{ intros name Hn. unfold entries.
      rewrite (zip_firsts _ (fun x => path_stem (fst x)) _ _ Hrs).
      now apply Hstems. }
  eexists. split; [reflexivity|]. split; [|split; reflexivity].
  rewrite Hc0. f_equal. f_equal. rewrite Hlen.
  now rewrite (zip_with_as_map _ _ _ _ Hrs).
Qed.

End CliRoundTrip.

(** The stand-ins meet what the theorems assume of [int] and of
    [pathlib]. *)

Lemma digits_value_ess (text : string) (acc : Z) :
  digits_value acc (text +:+ ".ess") = None.
Proof.
  revert acc. induction text as [|c text IH]; intros acc; [reflexivity|].
  rewrite string_app_cons. cbn [digits_value].
  destruct (digit_of c); [apply IH|reflexivity].
Qed.

Lemma digits_int_ess (text : string) : digits_int (text +:+ ".ess") = None.
Proof.
  destruct text as [|c text]; [reflexivity|].
  rewrite string_app_cons. unfold digits_int.
  rewrite <- string_app_cons. apply digits_value_ess.
Qed.

Lemma from_last_dot_app (name t : string) :
  from_last_dot name = Some t -> exists base, name = base +:+ t.
Proof.
  revert t. induction name as [|c name IH]; intros t; cbn [from_last_dot];
    [discriminate|].
  destruct (from_last_dot name) as [t'|].
  - intros [= <-]. destruct (IH t' eq_refl) as [base ->].
    now exists (String c base).
  - destruct (Ascii.eqb c "."); [|discriminate].
    intros [= <-]. now exists EmptyString.
Qed.

Lemma simple_suffix_ess (name : string) :
  simple_suffix name = ".ess"%string -> exists base, name = base +:+ ".ess".
Proof.
  unfold simple_suffix.
  destruct (from_last_dot name) as [t|] eqn:E; [|discriminate].
  intros ->. now apply from_last_dot_app.
Qed.

Lemma before_last_dot_ess (base : string) :
  before_last_dot (base +:+ ".ess") = Some base
  /\ before_last_dot (base +:+ ".skse") = Some base.
Proof.
  induction base as [|c base [IH1 IH2]]; [split; reflexivity|].
  rewrite !string_app_cons. cbn [before_last_dot].
  now rewrite IH1, IH2.
Qed.

Lemma simple_stem_sidecar (base : string) :
  String.prefix "Save" base = true ->
  simple_stem (base +:+ ".skse") = simple_stem (base +:+ ".ess").
Proof.
  intros Hp. unfold simple_stem.
  destruct (before_last_dot_ess base) as [-> ->].
  destruct base; [discriminate|reflexivity].
Qed.

Lemma sample_directory_names : NoDup (map fst sample_directory).
Proof.
  apply NoDup_ListNoDup. repeat constructor; cbn; intuition discriminate.
Qed.

Lemma cli_sidecars_follow_saves_witness :
  exists ess_files skse_files,
    cli_compress_files digits_int simple_suffix sample_directory
    = inr (ess_files, skse_files)
    /\ skse_files
       = omap (fun child : string * list byte =>
                 (fun data => (skse_file_of (fst child), data))
                   <$> file_at sample_directory (skse_file_of (fst child)))
              ess_files
    /\ forall x, x ∈ ess_files ->
         exists base id,
           fst x = base +:+ ".ess"
           /\ skse_file_of (fst x) = base +:+ ".skse"
           /\ get_save_id_from_path digits_int (fst x) = inr id
           /\ get_save_id_from_path digits_int (base +:+ ".skse") = inr id.
Proof.
  exact (cli_sidecars_follow_saves digits_int simple_suffix digits_int_ess
           simple_suffix_ess sample_directory).
Defined.

Lemma cli_lists_restorable_witness :
  NoDup (map fst [("Save3_Hero.ess"%string, sample_stored);
                  ("Save12_Hero.ess"%string, sample_stored)]
           ++ map fst [("Save3_Hero.skse"%string, [x07; x08])])
  /\ (forall x,
        x ∈ [("Save3_Hero.ess"%string, sample_stored);
             ("Save12_Hero.ess"%string, sample_stored)]
            ++ [("Save3_Hero.skse"%string, [x07; x08])] ->
        file_at sample_directory (fst x) = Some (snd x))
  /\ (forall name,
        name ∈ map fst [("Save3_Hero.skse"%string, [x07; x08])] ->
        simple_stem name
        ∈ map (fun x : string * list byte => simple_stem (fst x))
              [("Save3_Hero.ess"%string, sample_stored);
               ("Save12_Hero.ess"%string, sample_stored)]).
Proof.
  apply (cli_lists_restorable digits_int simple_suffix digits_int_ess
           simple_suffix_ess simple_stem simple_stem_sidecar
           sample_directory).
  - exact sample_directory_names.
  - vm_compute. reflexivity.
Defined.

Lemma cli_pack_then_restore_witness :
  exists ess_files skse_files st,
    cli_compress_files digits_int simple_suffix sample_directory
    = inr (ess_files, skse_files)
    /\ compress_files stored_decompress plain_writer ascii_encode
         ess_files skse_files 3 1 = Ok sample_cli_archive
    /\ decompress_files stored_compress stored_decompress plain_reader
         ascii_decode simple_stem sample_cli_archive ∅ = Done st
    /\ decompressor st = [].
Proof.
  apply (cli_pack_then_restore digits_int simple_suffix stored_compress
           stored_decompress plain_writer plain_reader ascii_encode
           ascii_decode simple_stem digits_int_ess simple_suffix_ess
           simple_stem_sidecar ascii_roundtrip plain_roundtrip
           sample_directory 3 1 sample_cli_archive ∅).
  - exact sample_directory_names.
  - vm_compute. reflexivity.
  - intros x r Hx Hd.
    repeat (apply elem_of_cons in Hx as [->|Hx]);
      [..|now apply elem_of_nil in Hx];
      vm_compute in Hd; try discriminate;
      injection Hd as <-; eexists; vm_compute; reflexivity.
  - intros name _. apply lookup_empty.
Defined.

(** * Screenshots of any size *)

Lemma bind_sized_rel {A} (m : reader A) (k1 k2 : A -> reader ESS)
    (f : list byte) :
  (forall a f', k1 a f' = k2 a f' \/ k1 a f' = Err OverflowError) ->
  bind m k1 f = bind m k2 f \/ bind m k1 f = Err OverflowError.
Proof.
  intros H. unfold bind. destruct (m f) as [[a f']|e]; [apply H|now left].
Qed.

Section Sized.

Variable lz4_block_compress : list byte -> option (list byte).
Variable lz4_block_decompress : list byte -> Z -> option (list byte).
Variable max_read : Z.

Local Abbreviation decode := (ESS_init lz4_block_decompress).
Local Abbreviation decode_sized :=
  (ESS_init_sized lz4_block_decompress max_read).
Local Abbreviation encodeStored := get_uncompressed.
Local Abbreviation encodeCompressed := (get_compressed lz4_block_compress).

(** The two runs part at the read of the screenshot, and only when its
    size is too large. *)
Lemma ESS_read_sized_rel (f : list byte) :
  ESS_read_with lz4_block_decompress (read_sized max_read) f
  = ESS_read lz4_block_decompress f
  \/ ESS_read_with lz4_block_decompress (read_sized max_read) f
     = Err OverflowError.
Proof.
  unfold ESS_read, ESS_read_with.
  apply bind_sized_rel; intros magic f1.
  destruct (negb _); [now left|].
  do 2 (apply bind_sized_rel; intros ? ?).
  destruct (negb _); [now left|].
  do 13 (apply bind_sized_rel; intros ? ?).
  unfold bind at 1 3, read_sized.
  destruct (_ >? _); [now right|now left].
Qed.

Lemma decode_sized_header (r : ESS) (tag : Z) (tail : list byte) :
  header_ok r -> 0 <= tag < 2 ^ 16 ->
  decode_sized (header_bytes r tag ++ tail)
  = if 4 * shotWidth r * shotHeight r >? max_read then Err OverflowError
    else decode (header_bytes r tag ++ tail).
Proof.
  intros Hr Ht. unfold ESS_init_sized, ESS_init, ESS_read.
  rewrite !ESS_read_with_header by assumption.
  unfold ESS_read_payload_with. unfold bind at 1 3, read_sized.
  now destruct (_ >? _).
Qed.

Lemma decode_sized_rel (f : list byte) :
  decode_sized f = decode f
  \/ (decode_sized f = Err OverflowError
      /\ exists r tag tail,
           header_ok r /\ 0 <= tag < 2 ^ 16
           /\ f = header_bytes r tag ++ tail
           /\ max_read < 4 * shotWidth r * shotHeight r).
Proof.
  destruct (ESS_read_with_cases lz4_block_decompress (read_sized max_read) f)
    as [(r & tag & tail & Hr & Ht & ->)|Hcases].
  - rewrite decode_sized_header by assumption.
    destruct (Z.gtb_spec (4 * shotWidth r * shotHeight r) max_read);
      [right|now left].
    split; [reflexivity|]. now exists r, tag, tail.
  - left. unfold ESS_init_sized, ESS_init.
    destruct (ESS_read_sized_rel f) as [->|Ho]; [reflexivity|].
    rewrite Ho in Hcases.
    destruct Hcases as [[_ H]|[(? & ? & ? & _ & _ & _ & _ & H)|[? H]]];
      discriminate.
Qed.

Lemma decode_sized_ok (f : list byte) (r : ESS) :
  decode_sized f = Ok r ->
  decode f = Ok r /\ 4 * shotWidth r * shotHeight r <= max_read.
Proof.
  intros Hs.
  assert (decode f = Ok r) as Hd.
  { destruct (decode_sized_rel f) as [<-|[Ho _]]; [exact Hs|].
    rewrite Ho in Hs. discriminate. }
  split; [exact Hd|].
  destruct (decode_inv lz4_block_decompress f r Hd) as (Hr & tail & Hf & _).
  rewrite Hf in Hs. rewrite decode_sized_header in Hs.
  - destruct (Z.gtb_spec (4 * shotWidth r * shotHeight r) max_read);
      [discriminate|assumption].
  - exact Hr.
  - destruct (decode_inv lz4_block_decompress f r Hd)
      as (_ & _ & _ & [(-> & _)|(-> & _)]); lia.
Qed.

Lemma decode_sized_in_range (f : list byte) (r : ESS) :
  decode f = Ok r -> 4 * shotWidth r * shotHeight r <= max_read ->
  decode_sized f = Ok r.
Proof.
  intros Hd Hm.
  destruct (decode_sized_rel f) as [->|(_ & r0 & tag & tail & Hr & Ht & -> & Hb)];
    [exact Hd|].
  exfalso.
  rewrite ESS_init_header in Hd by assumption.
  destruct (ESS_read_payload _ _ _ _) as [[r1 f']|e] eqn:HP; [|discriminate].
  injection Hd as ->.
  destruct Hr as (_ & _ & _ & _ & _ & _ & _ & _ & _ & _ & _ & _ & Hw & Hh).
  apply payload_ok_inv in HP; [|lia..].
  destruct HP as [[_ ->]|[_ (shot & ulen & clen & d & blob & _ & _ & _ & _
                            & _ & _ & ->)]];
    cbn [shotWidth shotHeight with_payload] in Hm; lia.
Qed.



(** ** Rejection of a bad magic, version or compression type *)


(** ** What the decoder raises *)


(** ** The declared header size *)

Lemma header_bytes_start (r : ESS) (tag : Z) :
  header_bytes r tag
  = MAGIC ++ le_bytes 4 (headerSize r)
      ++ drop 17 (header_bytes r tag).
Proof.
  unfold header_bytes, header_before_exp. repeat rewrite <- app_assoc.
  reflexivity.
Qed.

Lemma header_ok_set_headerSize (v : Z) (r : ESS) :
  0 <= v < 2 ^ 32 -> header_ok r -> header_ok (set_headerSize v r).
Proof.
  intros Hv (_ & H). unfold header_ok, set_headerSize; fields.
  split; [exact Hv|exact H].
Qed.

Lemma header_bytes_set_headerSize (v : Z) (r : ESS) (tag : Z) :
  drop 17 (header_bytes (set_headerSize v r) tag)
  = drop 17 (header_bytes r tag).
Proof.
  unfold header_bytes, header_before_exp. repeat rewrite <- app_assoc.
  reflexivity.
Qed.

(** C10. [ESS.__init__] neither checks the declared header size nor
    reads by it: two inputs that differ in those four bytes alone fail
    alike or give records that differ in [headerSize] alone, which holds
    the declared value; and each serialiser succeeds on a decoded record
    whatever 32-bit value its [headerSize] holds, and writes that value
    after the magic, followed by bytes that do not depend on it. *)
Theorem C10_header_size_verbatim :
  (forall h1 h2 rest, len h1 = 4 -> len h2 = 4 ->
     decode_sized (MAGIC ++ h2 ++ rest)
     = res_map (set_headerSize (le_value h2))
         (decode_sized (MAGIC ++ h1 ++ rest)))
  /\ (forall h rest r, len h = 4 ->
        decode_sized (MAGIC ++ h ++ rest) = Ok r ->
        headerSize r = le_value h)
  /\ (forall b r v, decode_sized b = Ok r -> 0 <= v < 2 ^ 32 ->
        exists rest,
          encodeStored r = Ok (MAGIC ++ le_bytes 4 (headerSize r) ++ rest)
          /\ encodeStored (set_headerSize v r)
             = Ok (MAGIC ++ le_bytes 4 v ++ rest))
  /\ (forall b r v block, decode_sized b = Ok r -> 0 <= v < 2 ^ 32 ->
        len (uncompressedBlob r) < 2 ^ 32 ->
        lz4_block_compress (uncompressedBlob r) = Some block ->
        len block < 2 ^ 32 ->
        exists rest,
          encodeCompressed r
          = Ok (MAGIC ++ le_bytes 4 (headerSize r) ++ rest)
          /\ encodeCompressed (set_headerSize v r)
             = Ok (MAGIC ++ le_bytes 4 v ++ rest)).
Proof.
  assert (forall h1 h2 rest, len h1 = 4 -> len h2 = 4 ->
     decode_sized (MAGIC ++ h2 ++ rest)
     = res_map (set_headerSize (le_value h2))
         (decode_sized (MAGIC ++ h1 ++ rest)))
    as Hdiff.
  { intros h1 h2 rest H1 H2.
    pose proof (le_value_u32 h1 H1). pose proof (le_value_u32 h2 H2).
    remember (le_value h1) as v1 eqn:Hv1. remember (le_value h2) as v2 eqn:Hv2.
    assert (h1 = le_bytes 4 v1) as ->
      by (subst v1; apply bytes_as_le; unfold len in H1; lia).
    assert (h2 = le_bytes 4 v2) as ->
      by (subst v2; apply bytes_as_le; unfold len in H2; lia).
    unfold ESS_init_sized.
    rewrite (ESS_read_headerSize lz4_block_decompress _ v1 v2) by assumption.
    now destruct (ESS_read_with _ _ _) as [[r f']|e]. }
  split; [exact Hdiff|]. split; [|split].
  - intros h rest r Hh Hd. pose proof (Hdiff h h rest Hh Hh) as H.
    rewrite Hd in H. cbn [res_map] in H. injection H as H.
    rewrite H. reflexivity.
  - intros b r v Hd Hv. apply decode_sized_ok in Hd as [Hd _].
    destruct (decode_inv lz4_block_decompress b r Hd) as [Hr _].
    exists (drop 17 (header_bytes r 0) ++ screenshotData r
              ++ uncompressedBlob r).
    rewrite !get_uncompressed_layout
      by (assumption || now apply header_ok_set_headerSize).
    rewrite (header_bytes_start r), (header_bytes_start (set_headerSize v r)).
    rewrite header_bytes_set_headerSize.
    repeat rewrite <- app_assoc. split; reflexivity.
  - intros b r v block Hd Hv Hb Hz Hc. apply decode_sized_ok in Hd as [Hd _].
    destruct (decode_inv lz4_block_decompress b r Hd) as [Hr _].
    exists (drop 17 (header_bytes r 2) ++ screenshotData r
              ++ le_bytes 4 (len (uncompressedBlob r))
              ++ le_bytes 4 (len block) ++ block).
    rewrite (get_compressed_layout lz4_block_compress r block)
      by assumption.
    rewrite (get_compressed_layout lz4_block_compress (set_headerSize v r)
               block)
      by (assumption || now apply header_ok_set_headerSize).
    rewrite (header_bytes_start r), (header_bytes_start (set_headerSize v r)).
    rewrite header_bytes_set_headerSize.
    repeat rewrite <- app_assoc. split; reflexivity.
Qed.

End Sized.

(** * The representation inside and outside the archive *)

Section Canonical.

Variable lz4_block_compress : list byte -> option (list byte).
Variable lz4_block_decompress : list byte -> Z -> option (list byte).
Variable zstd_stream_writer : Z -> Z -> list byte -> list byte.
Variable zstd_stream_reader : list byte -> list byte.
Variable utf8_encode : string -> list byte.
Variable utf8_decode : list byte -> option string.
Variable path_stem : string -> string.
Variable max_read : Z.

Hypothesis utf8_roundtrip :
  forall name, utf8_decode (utf8_encode name) = Some name.
Hypothesis zstd_roundtrip :
  forall compression_level threads written,
    zstd_stream_reader (zstd_stream_writer compression_level threads written)
    = written.

Local Abbreviation decode_sized :=
  (ESS_init_sized lz4_block_decompress max_read).
Local Abbreviation skse_entry :=
  (fun file : string * list byte =>
     entry_bytes (utf8_encode (fst file)) (snd file)).


End Canonical.

(** ** The theorems on the sample inputs, once more *)



(** The sample save with the largest header size in place of its own,
    decoded and through both serialisers. *)
Lemma C10_header_size_witness :
  ESS_init_sized stored_decompress sys_maxsize
    (MAGIC ++ le_bytes 4 (2 ^ 32 - 1) ++ drop 17 sample_stored)
  = Ok (set_headerSize (2 ^ 32 - 1) sample_ess)
  /\ (exists rest,
        get_uncompressed sample_ess = Ok (MAGIC ++ le_bytes 4 74 ++ rest)
        /\ get_uncompressed (set_headerSize (2 ^ 32 - 1) sample_ess)
           = Ok (MAGIC ++ le_bytes 4 (2 ^ 32 - 1) ++ rest))
  /\ exists rest,
       get_compressed stored_compress sample_ess
       = Ok (MAGIC ++ le_bytes 4 74 ++ rest)
       /\ get_compressed stored_compress
            (set_headerSize (2 ^ 32 - 1) sample_ess)
          = Ok (MAGIC ++ le_bytes 4 (2 ^ 32 - 1) ++ rest).
Proof.
  destruct (C10_header_size_verbatim stored_compress stored_decompress
              sys_maxsize) as (Hdiff & _ & Hstored & Hcompressed).
  split; [|split].
  - rewrite (Hdiff (le_bytes 4 74) (le_bytes 4 (2 ^ 32 - 1)) _
               eq_refl eq_refl).
    reflexivity.
  - apply (Hstored sample_stored sample_ess (2 ^ 32 - 1));
      [vm_compute; reflexivity|lia].
  - apply (Hcompressed sample_stored sample_ess (2 ^ 32 - 1)
             [x01; x02; x03]);
      [vm_compute; reflexivity|lia|vm_compute; reflexivity|reflexivity
      |vm_compute; reflexivity].
Defined.

